(** * Events dispatching: a shallow embedding of [Event_<EventType_>]

    The source is one translation unit, [Main.cpp].  The class template
    [Event_] keeps three static members per payload type ([State],
    [NextReceiverIndex], [ReceiversContainer]); its nested class
    [Subscription_] is the handle returned by [Receive].

    Modelling decisions, all taken from the source text:

    - [size_t] is a 64-bit unsigned integer, written as [Z] with the
      wrap-around of [NextReceiverIndex++] spelled out ([wrap]).
    - [std::vector] is a [list] together with the capacity of its
      storage; a vector iterator is a position in that storage.  [erase]
      shifts the tail one slot to the left and destroys the last element,
      and it never reallocates, so an iterator obtained before the erasure
      keeps designating the same slot.  [emplace_back] appends in place
      while the size is below the capacity; on a full vector it moves the
      elements to new, larger storage, after which every iterator obtained
      before designates freed memory.  Reading a slot at or beyond the
      current size, and using an iterator into storage that was given
      up, are reported as [Fault].
    - The range-based [for] of [Send] evaluates [begin()] and [end()] once,
      before the first step.  The loop therefore performs as many steps as
      the container had elements when the loop was entered, unless it
      breaks.
    - A [std::function] callback is a program over what a receiver can do
      with the public interface of the channel: mutate the event it was
      given, call [Interrupt], call [Send] again, call [Receive] and keep
      the handle in a variable, and call [Pause], [Resume] or [Remove] on
      a handle variable it has access to.  The handle variables are
      taken to live outside the vector (they are not captures of the
      callable), so that a callback runs to its end also when [erase] or
      [emplace_back] moves or destroys the [std::function] it was called
      through.  A callback returns: the source neither throws nor
      catches, and exceptions are outside the model.
    - [Assert] expands to a statement without effect on every compiler
      except MSVC; the model records the failed assertion in a ghost log
      and continues, as the expansion does. *)

From Stdlib Require Import ZArith List Bool Lia PeanoNat Sorted.
Import ListNotations.
Local Open Scope Z_scope.

(** ** Machine integers *)

(** [ReceiverIndex_] is [size_t]: 64 bits on the usual targets.  Where
    [size_t] has 32 bits everything below holds with [2 ^ 32] for
    [2 ^ 64]. *)
Definition SIZE_BITS : Z := 64.
Definition SIZE_MOD : Z := 2 ^ SIZE_BITS.
Definition SIZE_MAX : Z := SIZE_MOD - 1.

(** Arithmetic on [size_t] is modulo [2 ^ 64]. *)
Definition wrap (x : Z) : Z := x mod SIZE_MOD.

Definition is_size_t (x : Z) : Prop := 0 <= x < SIZE_MOD.

(** ** Enumerations *)

Inductive EventState_ : Type :=
| Waiting
| Sending
| Interrupted.

Inductive ReceiverState_ : Type :=
| Active
| Paused.

Definition EventState_eqb (a b : EventState_) : bool :=
  match a, b with
  | Waiting, Waiting | Sending, Sending | Interrupted, Interrupted => true
  | _, _ => false
  end.

Definition ReceiverState_eqb (a b : ReceiverState_) : bool :=
  match a, b with
  | Active, Active | Paused, Paused => true
  | _, _ => false
  end.

Definition ReceiverIndex_ : Type := Z.

(** ** The subscription handle *)

(** [Subscription_] has one data member, [ReceiverIndex], default 0. *)
Record Subscription_ : Type := mkSubscription_ { ReceiverIndex : ReceiverIndex_ }.

(** [Subscription_() noexcept = default] *)
Definition Subscription_default : Subscription_ := mkSubscription_ 0.

(** [bool IsValid() const { return ReceiverIndex != 0; }] *)
Definition IsValid (s : Subscription_) : bool := negb (ReceiverIndex s =? 0).

(** The sites of the five [Assert] calls of the source. *)
Inductive AssertSite : Type :=
| AtSend
| AtInterrupt
| AtPause
| AtResume
| AtRemove.

Section Event.

(** The template parameter. *)
Context {EventType_ : Type}.

(** ** Callbacks *)

(** What a receiver does when it is invoked with [EventType_& InEvent].
    Handle variables live in the caller's memory and are named by a slot
    number; [ActReceive f dst] is [dst = Receive(f)]. *)
#[warnings="-register-all"]
Inductive Action : Type :=
| ActMutate (f : EventType_ -> EventType_)
| ActInterrupt
| ActSend (e : EventType_)
| ActPause (h : nat)
| ActResume (h : nat)
| ActRemove (h : nat)
| ActReceive (f : list Action) (dst : nat).

Definition ReceiverFunction_ : Type := list Action.

(** [class ReceiverData_]: [State], [Index], [Function]. *)
Record ReceiverData_ : Type := mkReceiverData_ {
  RState : ReceiverState_;
  Index : ReceiverIndex_;
  Function : ReceiverFunction_
}.

(** Ghost observations: a callback was entered with an event value, or an
    [Assert] saw a false condition. *)
Inductive Obs : Type :=
| Invoked (r : ReceiverData_) (e : EventType_)
| AssertFailed (site : AssertSite).

(** ** The state *)

(** [State], [NextReceiverIndex] and [ReceiversContainer] are the static
    members of [Event_]; [Capacity] is the number of slots of the storage
    the vector holds; [Handles] is the caller's memory holding handle
    variables; [Log] is ghost. *)
Record World : Type := mkWorld {
  State : EventState_;
  NextReceiverIndex : ReceiverIndex_;
  ReceiversContainer : list ReceiverData_;
  Capacity : nat;
  Handles : nat -> Subscription_;
  Log : list Obs
}.

(** [inline static] initialisers: [Waiting], [1], empty vector (which owns
    no storage). *)
Definition initial : World :=
  mkWorld Waiting 1 [] O (fun _ => Subscription_default) [].

(** The channel proper, for statements that say it is unchanged. *)
Definition channel (w : World) : EventState_ * ReceiverIndex_ * list ReceiverData_ :=
  (State w, NextReceiverIndex w, ReceiversContainer w).

Definition set_State (s : EventState_) (w : World) : World :=
  mkWorld s (NextReceiverIndex w) (ReceiversContainer w) (Capacity w)
          (Handles w) (Log w).

Definition set_Receivers (l : list ReceiverData_) (w : World) : World :=
  mkWorld (State w) (NextReceiverIndex w) l (Capacity w) (Handles w) (Log w).

Definition set_Handle (h : nat) (s : Subscription_) (w : World) : World :=
  mkWorld (State w) (NextReceiverIndex w) (ReceiversContainer w) (Capacity w)
          (fun k => if Nat.eqb k h then s else Handles w k) (Log w).

Definition emit (o : list Obs) (w : World) : World :=
  mkWorld (State w) (NextReceiverIndex w) (ReceiversContainer w) (Capacity w)
          (Handles w) (Log w ++ o).

(** [#define Assert(InExpression) if (!(InExpression)) ((void* )0)] *)
Definition Assert (InExpression : bool) (site : AssertSite) : list Obs :=
  if InExpression then [] else [AssertFailed site].

(** ** Vector primitives *)

(** [std::find_if(Begin, End, p)]: the position of the first element
    satisfying [p], or [End] (the length) when there is none. *)
Fixpoint find_if (p : ReceiverData_ -> bool) (l : list ReceiverData_) : nat :=
  match l with
  | [] => O
  | r :: rest => if p r then O else S (find_if p rest)
  end.

(** [vector::erase(Iterator)] for a dereferenceable iterator.  The
    capacity is not changed. *)
Fixpoint erase (pos : nat) (l : list ReceiverData_) {struct l}
  : list ReceiverData_ :=
  match l, pos with
  | [], _ => []
  | _ :: rest, O => rest
  | r :: rest, S k => r :: erase k rest
  end.

(** The capacity after [vector::emplace_back] on a vector of [size]
    elements: unchanged while there is a free slot; otherwise the storage
    is replaced by a larger one.  How much larger is left to the library;
    libstdc++ and libc++ double it, which is what is written here.  The
    statements below rely on no more than that the new capacity
    differs from the old one. *)
Definition emplace_capacity (size cap : nat) : nat :=
  if (size <? cap)%nat then cap else Nat.max 1 (2 * cap).

(** ** Receive and Interrupt *)

(** [ReceiversContainer.emplace_back(Active, NextReceiverIndex++, f);
     return { NextReceiverIndex - 1 };] *)
Definition Receive (InReceiver : ReceiverFunction_) (w : World)
  : Subscription_ * World :=
  let idx := NextReceiverIndex w in
  let next := wrap (idx + 1) in
  let w1 := mkWorld (State w) next
              (ReceiversContainer w ++ [mkReceiverData_ Active idx InReceiver])
              (emplace_capacity (length (ReceiversContainer w)) (Capacity w))
              (Handles w) (Log w) in
  (mkSubscription_ (wrap (next - 1)), w1).

Definition Interrupt (w : World) : World :=
  if negb (EventState_eqb (State w) Sending)
  then emit (Assert false AtInterrupt) w
  else set_State Interrupted w.

(** ** Handle operations *)

(** [ForThis]: apply the action to the first entry whose [Index] equals the
    handle's, then [break]. *)
Fixpoint ForThis_in (id : ReceiverIndex_)
    (InAction : ReceiverData_ -> ReceiverData_ * list Obs)
    (l : list ReceiverData_) : list ReceiverData_ * list Obs :=
  match l with
  | [] => ([], [])
  | r :: rest =>
      if Index r =? id
      then (fst (InAction r) :: rest, snd (InAction r))
      else (r :: fst (ForThis_in id InAction rest),
            snd (ForThis_in id InAction rest))
  end.

Definition ForThis (s : Subscription_)
    (InAction : ReceiverData_ -> ReceiverData_ * list Obs) (w : World) : World :=
  let res := ForThis_in (ReceiverIndex s) InAction (ReceiversContainer w) in
  emit (snd res) (set_Receivers (fst res) w).

(** The assertion is a statement of its own, so the assignment that follows
    it runs whatever the assertion saw. *)
Definition Pause (s : Subscription_) (w : World) : World :=
  ForThis s (fun r =>
    (mkReceiverData_ Paused (Index r) (Function r),
     Assert (ReceiverState_eqb (RState r) Active) AtPause)) w.

Definition Resume (s : Subscription_) (w : World) : World :=
  ForThis s (fun r =>
    (mkReceiverData_ Active (Index r) (Function r),
     Assert (ReceiverState_eqb (RState r) Paused) AtResume)) w.

Definition Remove (s : Subscription_) (w : World) : Subscription_ * World :=
  let End := length (ReceiversContainer w) in
  let Iterator :=
    find_if (fun r => Index r =? ReceiverIndex s) (ReceiversContainer w) in
  let w1 := emit (Assert (negb (Nat.eqb Iterator End)) AtRemove) w in
  if negb (Nat.eqb Iterator End)
  then (mkSubscription_ 0, set_Receivers (erase Iterator (ReceiversContainer w1)) w1)
  else (s, w1).

(** ** Send *)

(** How a call of [Send] ends: it returns, with the world and the event
    object as the receivers left them; or the loop uses an iterator that
    designates no live element; or the model ran out of fuel for nested
    calls. *)
Inductive Outcome : Type :=
| Done (w : World) (e : EventType_)
| Fault (w : World) (e : EventType_)
| OutOfFuel.

Section Dispatch.

(** The meaning of a [Send] issued from inside a callback. *)
Variable send : EventType_ -> World -> Outcome.

Definition run_action (a : Action) (e : EventType_) (w : World) : Outcome :=
  match a with
  | ActMutate f => Done w (f e)
  | ActInterrupt => Done (Interrupt w) e
  | ActSend e' =>
      match send e' w with
      | Done w' _ => Done w' e
      | Fault w' _ => Fault w' e
      | OutOfFuel => OutOfFuel
      end
  | ActPause h => Done (Pause (Handles w h) w) e
  | ActResume h => Done (Resume (Handles w h) w) e
  | ActRemove h =>
      Done (set_Handle h (fst (Remove (Handles w h) w))
                       (snd (Remove (Handles w h) w))) e
  | ActReceive f dst =>
      Done (set_Handle dst (fst (Receive f w)) (snd (Receive f w))) e
  end.

Fixpoint run_actions (f : ReceiverFunction_) (e : EventType_) (w : World)
  : Outcome :=
  match f with
  | [] => Done w e
  | a :: rest =>
      match run_action a e w with
      | Done w' e' => run_actions rest e' w'
      | other => other
      end
  end.

(** [Receiver.Function(InEvent)] *)
Definition invoke (r : ReceiverData_) (e : EventType_) (w : World) : Outcome :=
  run_actions (Function r) e (emit [Invoked r e] w).

(** The loop of [Send].  [steps] is the distance from the iterator to the
    cached [end()], [it] the position of the iterator.  [Receiver] is a
    reference: the slot is read where [Receiver.State] is, after the test
    of [State].  When the callback returns the iterator is incremented
    and compared; if the callback made [emplace_back] move the elements,
    which is when the capacity is no longer what it was, that iterator
    designates storage the vector has given up. *)
Fixpoint Send_loop (steps : nat) (it : nat) (e : EventType_) (w : World)
  : Outcome :=
  match steps with
  | O => Done w e
  | S k =>
      if negb (EventState_eqb (State w) Sending)
      then Done w e
      else
        match nth_error (ReceiversContainer w) it with
        | None => Fault w e
        | Some Receiver =>
            if negb (ReceiverState_eqb (RState Receiver) Active)
            then Send_loop k (S it) e w
            else
              match invoke Receiver e w with
              | Done w' e' =>
                  if Nat.eqb (Capacity w') (Capacity w)
                  then Send_loop k (S it) e' w'
                  else Fault w' e'
              | other => other
              end
        end
  end.

(** The body of [Send] after the guard. *)
Definition Send_body (e : EventType_) (w : World) : Outcome :=
  let w1 := set_State Sending w in
  match Send_loop (length (ReceiversContainer w1)) O e w1 with
  | Done w2 e2 => Done (set_State Waiting w2) e2
  | other => other
  end.

(** The dispatch as the specification words it: the receivers are taken in
    registration order, each one is looked up by its identity in the live
    list when its turn comes, and its activity at that moment decides. *)
Fixpoint spec_dispatch (order : list ReceiverIndex_) (e : EventType_)
    (w : World) : Outcome :=
  match order with
  | [] => Done w e
  | id :: rest =>
      if negb (EventState_eqb (State w) Sending)
      then Done w e
      else
        match find (fun r => Index r =? id) (ReceiversContainer w) with
        | None => spec_dispatch rest e w
        | Some r =>
            match RState r with
            | Paused => spec_dispatch rest e w
            | Active =>
                match invoke r e w with
                | Done w' e' => spec_dispatch rest e' w'
                | other => other
                end
            end
        end
  end.

Definition spec_Send (e : EventType_) (w : World) : Outcome :=
  match State w with
  | Waiting =>
      match spec_dispatch (map Index (ReceiversContainer w)) e
                          (set_State Sending w) with
      | Done w' e' => Done (set_State Waiting w') e'
      | other => other
      end
  | _ => Done (emit [AssertFailed AtSend] w) e
  end.

End Dispatch.

(** [Send]: the guard comes first and needs no fuel; fuel bounds the depth
    of [Send] calls nested in callbacks. *)
Fixpoint Send (fuel : nat) (e : EventType_) (w : World) : Outcome :=
  if negb (EventState_eqb (State w) Waiting)
  then Done (emit (Assert false AtSend) w) e
  else
    match fuel with
    | O => OutOfFuel
    | S f => Send_body (Send f) e w
    end.

(** ** Top-level programs *)

(** A client program: a sequence of calls on the channel and on handle
    variables, made while no dispatch is running. *)
Inductive Op : Type :=
| OpReceive (f : ReceiverFunction_) (dst : nat)
| OpSend (e : EventType_)
| OpInterrupt
| OpPause (h : nat)
| OpResume (h : nat)
| OpRemove (h : nat)
| OpCopy (src dst : nat).

Definition run_op (o : Op) (w : World) : option World :=
  match o with
  | OpReceive f dst =>
      Some (set_Handle dst (fst (Receive f w)) (snd (Receive f w)))
  | OpSend e =>
      match Send 1 e w with
      | Done w' _ => Some w'
      | _ => None
      end
  | OpInterrupt => Some (Interrupt w)
  | OpPause h => Some (Pause (Handles w h) w)
  | OpResume h => Some (Resume (Handles w h) w)
  | OpRemove h =>
      Some (set_Handle h (fst (Remove (Handles w h) w))
                         (snd (Remove (Handles w h) w)))
  | OpCopy src dst => Some (set_Handle dst (Handles w src) w)
  end.

Fixpoint run_ops (ops : list Op) (w : World) : option World :=
  match ops with
  | [] => Some w
  | o :: rest =>
      match run_op o w with
      | Some w' => run_ops rest w'
      | None => None
      end
  end.

(** ** Vocabulary of the statements *)

Definition ids (w : World) : list ReceiverIndex_ :=
  map Index (ReceiversContainer w).

Definition returns (o : Outcome) : Prop :=
  match o with
  | Done _ _ => True
  | _ => False
  end.

Definition is_Fault (o : Outcome) : bool :=
  match o with
  | Fault _ _ => true
  | _ => false
  end.

(** The callbacks entered, in order, each with the event value it saw. *)
Fixpoint invocations (l : list Obs) : list (ReceiverData_ * EventType_) :=
  match l with
  | [] => []
  | Invoked r e :: t => (r, e) :: invocations t
  | AssertFailed _ :: t => invocations t
  end.

Fixpoint violations (l : list Obs) : list AssertSite :=
  match l with
  | [] => []
  | Invoked _ _ :: t => violations t
  | AssertFailed s :: t => s :: violations t
  end.

(** What a callback does to the event object it was handed. *)
Definition mutate (e : EventType_) (a : Action) : EventType_ :=
  match a with
  | ActMutate f => f e
  | _ => e
  end.

Definition mutations (f : ReceiverFunction_) (e : EventType_) : EventType_ :=
  fold_left mutate f e.

(** Every callback saw the event as its predecessor left it. *)
Fixpoint threaded (e : EventType_) (invs : list (ReceiverData_ * EventType_))
    (e_end : EventType_) : Prop :=
  match invs with
  | [] => e_end = e
  | (r, ev) :: rest =>
      ev = e /\ threaded (mutations (Function r) e) rest e_end
  end.

(** The identities and the callbacks of the list, position by position. *)
Definition shape (w : World) : list ReceiverIndex_ * list ReceiverFunction_ :=
  (map Index (ReceiversContainer w), map Function (ReceiversContainer w)).

(** A callback that calls [Interrupt] is the last one entered. *)
Definition interrupter_last (invs : list (ReceiverData_ * EventType_)) : Prop :=
  forall n r ev,
    nth_error invs n = Some (r, ev) ->
    In ActInterrupt (Function r) ->
    length invs = S n.

(** The invocations of a dispatch over receivers that leave the channel
    alone: the active ones, in list order. *)
Fixpoint expected_invocations (l : list ReceiverData_) (e : EventType_)
  : list (ReceiverData_ * EventType_) :=
  match l with
  | [] => []
  | r :: t =>
      match RState r with
      | Paused => expected_invocations t e
      | Active => (r, e) :: expected_invocations t (mutations (Function r) e)
      end
  end.

Fixpoint expected_event (l : list ReceiverData_) (e : EventType_)
  : EventType_ :=
  match l with
  | [] => e
  | r :: t =>
      match RState r with
      | Paused => expected_event t e
      | Active => expected_event t (mutations (Function r) e)
      end
  end.

Definition is_Remove (a : Action) : bool :=
  match a with
  | ActRemove _ => true
  | _ => false
  end.

Definition is_Resume (a : Action) : bool :=
  match a with
  | ActResume _ => true
  | _ => false
  end.

Definition is_Register (a : Action) : bool :=
  match a with
  | ActReceive _ _ => true
  | _ => false
  end.

(** The actions that change the number of entries. *)
Definition resizes (a : Action) : bool := is_Remove a || is_Register a.


(** The actions other than a mutation of the event and a nested [Send],
    which is rejected: those that touch the channel or a handle. *)
Definition touches_channel (a : Action) : bool :=
  match a with
  | ActMutate _ | ActSend _ => false
  | _ => true
  end.

(** No callback registered in [l] performs an action selected by [p]. *)
Definition callbacks_avoid (p : Action -> bool) (l : list ReceiverData_)
  : Prop :=
  forall r a, In r l -> In a (Function r) -> p a = false.

(** The data-model invariant of the identities: pairwise distinct, never
    0, all below the next identity to assign. *)
Definition identities_ok (w : World) : Prop :=
  NoDup (ids w) /\
  (forall id, In id (ids w) -> 0 < id < NextReceiverIndex w) /\
  0 < NextReceiverIndex w < SIZE_MOD.

Definition is_Receive (o : Op) : bool :=
  match o with
  | OpReceive _ _ => true
  | _ => false
  end.

(** No callback that the client program registers performs an action
    selected by [p]. *)
Definition program_avoids (p : Action -> bool) (ops : list Op) : Prop :=
  forall f dst a, In (OpReceive f dst) ops -> In a f -> p a = false.

Definition registrations (ops : list Op) : nat :=
  length (filter is_Receive ops).

(** A client that registers a receiver and removes it again, [n] times. *)
Fixpoint churn (n : nat) : list Op :=
  match n with
  | O => []
  | S k => OpReceive [] O :: OpRemove O :: churn k
  end.

(** Register the callbacks one after the other; the handles come back in
    the order of the calls. *)
Fixpoint Receive_all (fs : list ReceiverFunction_) (w : World)
  : list Subscription_ * World :=
  match fs with
  | [] => ([], w)
  | f :: rest =>
      (fst (Receive f w) :: fst (Receive_all rest (snd (Receive f w))),
       snd (Receive_all rest (snd (Receive f w))))
  end.

Definition is_Interrupt (a : Action) : bool :=
  match a with
  | ActInterrupt => true
  | _ => false
  end.

(** The actions that can keep the loop of [Send] from running to the end
    position it fixed: [Interrupt] stops it, [Receive] refills the list. *)
Definition stops_or_refills (a : Action) : bool :=
  is_Interrupt a || is_Register a.

(** ** Vocabulary of the further properties *)

(** The entries that consecutive registrations append, the first under
    the identity [id]. *)
Fixpoint entries_from (id : ReceiverIndex_) (fs : list ReceiverFunction_)
  : list ReceiverData_ :=
  match fs with
  | [] => []
  | f :: rest => mkReceiverData_ Active id f :: entries_from (id + 1) rest
  end.

(** What a callback that only mutates the event and calls [Send] leaves in
    the log: one failed assertion per nested [Send]. *)
Fixpoint rejected_sends (f : ReceiverFunction_) : list Obs :=
  match f with
  | [] => []
  | ActSend _ :: rest => AssertFailed AtSend :: rejected_sends rest
  | _ :: rest => rejected_sends rest
  end.

(** The log of a dispatch over receivers that leave the channel alone. *)
Fixpoint quiet_trace (l : list ReceiverData_) (e : EventType_) : list Obs :=
  match l with
  | [] => []
  | r :: t =>
      match RState r with
      | Paused => quiet_trace t e
      | Active =>
          Invoked r e :: rejected_sends (Function r)
            ++ quiet_trace t (mutations (Function r) e)
      end
  end.

(** What identifies an entry apart from its activity. *)
Definition label (r : ReceiverData_) : ReceiverIndex_ * ReceiverFunction_ :=
  (Index r, Function r).

(** [subseq l1 l2]: [l1] is [l2] with some elements left out. *)
Inductive subseq {A : Type} : list A -> list A -> Prop :=
| subseq_nil : forall l, subseq [] l
| subseq_skip : forall x l1 l2, subseq l1 l2 -> subseq l1 (x :: l2)
| subseq_take : forall x l1 l2, subseq l1 l2 -> subseq (x :: l1) (x :: l2).

(** The subscription management part of [main]: register, send, pause,
    send, resume, send, remove, send, all through one handle variable. *)
Definition lifecycle (f : ReceiverFunction_) (e1 e2 e3 e4 : EventType_)
  : list Op :=
  [OpReceive f O; OpSend e1; OpPause O; OpSend e2;
   OpResume O; OpSend e3; OpRemove O; OpSend e4].

End Event.

Arguments Action EventType_ : clear implicits.
Arguments ReceiverFunction_ EventType_ : clear implicits.
Arguments ReceiverData_ EventType_ : clear implicits.
Arguments Obs EventType_ : clear implicits.
Arguments World EventType_ : clear implicits.
Arguments Outcome EventType_ : clear implicits.
Arguments Op EventType_ : clear implicits.
Arguments initial EventType_ : clear implicits.

(** ** Example clients, with [EventType_ := Z] *)

(** The world a client program leaves, started on a fresh channel. *)
Definition after (ops : list (Op Z)) : World Z :=
  match run_ops ops (initial Z) with
  | Some w => w
  | None => initial Z
  end.

(** Three receivers that only touch the event; the second is paused. *)
Definition three_ops : list (Op Z) :=
  [OpReceive [ActMutate (Z.add 1)] 0%nat;
   OpReceive [ActMutate (Z.mul 2)] 1%nat;
   OpReceive [ActMutate (Z.add 100)] 2%nat;
   OpPause 1%nat].

(** Two receivers; the first interrupts the dispatch. *)
Definition interrupting_ops : list (Op Z) :=
  [OpReceive [ActInterrupt] 0%nat; OpReceive [] 1%nat].

(** Two receivers; the callback of the first removes the second through
    the handle variable that the second registration fills. *)
Definition eraser_ops : list (Op Z) :=
  [OpReceive [ActRemove 1%nat] 0%nat; OpReceive [] 1%nat].

(** Three receivers; the first pauses the third. *)
Definition pauser_ops : list (Op Z) :=
  [OpReceive [ActPause 2%nat] 0%nat; OpReceive [] 1%nat; OpReceive [] 2%nat].

(** One receiver, which registers another one. *)
Definition registrar_alone : list (Op Z) :=
  [OpReceive [ActReceive [] 5%nat] 0%nat].

(** Three receivers; the first registers a fourth. *)
Definition registrar_ops : list (Op Z) :=
  [OpReceive [ActReceive [] 5%nat] 0%nat; OpReceive [] 1%nat;
   OpReceive [] 2%nat].

(** Two receivers; the first removes the second and registers a third. *)
Definition refiller_ops : list (Op Z) :=
  [OpReceive [ActRemove 1%nat; ActReceive [ActMutate (Z.add 100)] 5%nat]
             0%nat;
   OpReceive [] 1%nat].

(** Three receivers; the first removes the second, the third
    interrupts. *)
Definition remover_ops : list (Op Z) :=
  [OpReceive [ActRemove 1%nat] 0%nat; OpReceive [ActMutate (Z.add 1)] 1%nat;
   OpReceive [ActInterrupt] 2%nat].

(** Three receivers; the first removes itself, the third interrupts. *)
Definition leaver_ops : list (Op Z) :=
  [OpReceive [ActRemove 0%nat] 0%nat; OpReceive [ActMutate (Z.add 1)] 1%nat;
   OpReceive [ActInterrupt] 2%nat].


Definition wrapped : World Z :=
  mkWorld Waiting 0 [] 1 (fun _ => Subscription_default) [].

(** A channel whose first receiver is still registered when the counter,
    after [2 ^ 64] registrations, is back at 1. *)
Definition second_round : World Z :=
  mkWorld Waiting 1 [mkReceiverData_ Active 1 []] 2
    (fun k => if Nat.eqb k 1 then mkSubscription_ 1 else Subscription_default)
    [].

(** The world a client program leaves, started on [w]. *)
Definition run_from (w : World Z) (ops : list (Op Z)) : World Z :=
  match run_ops ops w with
  | Some w' => w'
  | None => w
  end.

(** * Properties *)

(** Tactics for the closed instances at the end. *)

Ltac avoid_by_cases :=
  let r := fresh "r" in
  let a := fresh "a" in
  let Hr := fresh "Hr" in
  let Ha := fresh "Ha" in
  intros r a Hr Ha; cbv in Hr;
  repeat (destruct Hr as [Hr | Hr];
          [subst r; cbv in Ha;
           repeat (destruct Ha as [Ha | Ha]; [subst a; reflexivity |]);
           contradiction |]);
  contradiction.

Ltac split_all :=
  repeat match goal with
         | |- _ /\ _ => split
         end.

Ltac NoDup_by_cases :=
  cbv; repeat (constructor; [cbv; intuition discriminate |]); constructor.

Ltac program_by_cases :=
  let f := fresh "f" in
  let dst := fresh "dst" in
  let a := fresh "a" in
  let Hin := fresh "Hin" in
  let Ha := fresh "Ha" in
  intros f dst a Hin Ha; cbv in Hin;
  repeat (destruct Hin as [Hin | Hin];
          [try discriminate Hin; injection Hin as <- <-; cbv in Ha;
           repeat (destruct Ha as [Ha | Ha]; [subst a; reflexivity |]);
           contradiction |]);
  contradiction.

(** ** Arithmetic of [size_t] *)

Lemma SIZE_MOD_value : SIZE_MOD = 18446744073709551616.
Proof. reflexivity. Qed.

Lemma wrap_small (x : Z) : is_size_t x -> wrap x = x.
Proof. intros H. unfold wrap. apply Z.mod_small. exact H. Qed.

Lemma wrap_is_size_t (x : Z) : is_size_t (wrap x).
Proof.
  unfold is_size_t, wrap. apply Z.mod_pos_bound.
  rewrite SIZE_MOD_value. lia.
Qed.

Lemma wrap_succ_small (x : Z) : 0 <= x < SIZE_MAX -> wrap (x + 1) = x + 1.
Proof.
  intros H. apply wrap_small. unfold is_size_t, SIZE_MAX in *. lia.
Qed.

Lemma wrap_succ_pred (x : Z) : is_size_t x -> wrap (wrap (x + 1) - 1) = x.
Proof.
  intros H. unfold is_size_t in H.
  destruct (Z.eq_dec x SIZE_MAX) as [-> | Hne].
  - reflexivity.
  - rewrite wrap_succ_small by (unfold SIZE_MAX in *; lia).
    replace (x + 1 - 1) with x by lia. apply wrap_small. exact H.
Qed.

Lemma EventState_eqb_eq (a b : EventState_) :
  EventState_eqb a b = true <-> a = b.
Proof. destruct a, b; simpl; split; congruence. Qed.

Lemma ReceiverState_eqb_eq (a b : ReceiverState_) :
  ReceiverState_eqb a b = true <-> a = b.
Proof. destruct a, b; simpl; split; congruence. Qed.

Section Theory.

Context {EventType_ : Type}.

Implicit Types (w : World EventType_) (e : EventType_)
  (r : ReceiverData_ EventType_) (a : Action EventType_)
  (s : Subscription_) (l : list (ReceiverData_ EventType_))
  (f : ReceiverFunction_ EventType_) (o : list (Obs EventType_)).

(** ** The ghost log *)

Lemma invocations_app o1 o2 :
  invocations (o1 ++ o2) = invocations o1 ++ invocations o2.
Proof.
  induction o1 as [| [r e | site] t IH]; simpl; [reflexivity | | exact IH].
  now rewrite IH.
Qed.

Lemma invocations_Assert (b : bool) (site : AssertSite) :
  invocations (Assert (EventType_ := EventType_) b site) = [].
Proof. destruct b; reflexivity. Qed.

(** ** Vector primitives *)

Lemma find_if_End (p : ReceiverData_ EventType_ -> bool) l :
  find_if p l = length l -> forall r, In r l -> p r = false.
Proof.
  induction l as [| x t IH]; simpl; intros H r Hin; [contradiction |].
  destruct (p x) eqn:Hp; [discriminate |].
  destruct Hin as [<- | Hin]; [exact Hp | apply IH; [lia | exact Hin]].
Qed.

Lemma find_if_none (p : ReceiverData_ EventType_ -> bool) l :
  (forall r, In r l -> p r = false) -> find_if p l = length l.
Proof.
  induction l as [| x t IH]; simpl; intros H; [reflexivity |].
  rewrite (H x) by (now left). f_equal. apply IH. intros r Hr. apply H. now right.
Qed.

(** The element found by [find_if] and what [erase] leaves. *)
Lemma find_if_erase (p : ReceiverData_ EventType_ -> bool) l :
  find_if p l <> length l ->
  exists l1 r l2,
    l = l1 ++ r :: l2 /\ p r = true /\ (forall x, In x l1 -> p x = false) /\
    find_if p l = length l1 /\ erase (find_if p l) l = l1 ++ l2.
Proof.
  induction l as [| x t IH]; simpl; intros H; [congruence |].
  destruct (p x) eqn:Hp.
  - exists [], x, t. simpl. repeat split; auto. intros y [].
  - destruct IH as (l1 & r & l2 & Hl & Hr & Hl1 & Hpos & Her); [lia |].
    exists (x :: l1), r, l2. simpl.
    split; [now rewrite Hl |].
    split; [exact Hr |].
    split; [intros y [<- | Hy]; auto |].
    split; [now rewrite Hpos | now rewrite Her].
Qed.

Lemma erase_incl (k : nat) l x : In x (erase k l) -> In x l.
Proof.
  revert k. induction l as [| y t IH]; intros k; simpl; [tauto |].
  destruct k as [| k]; [now right |].
  intros [<- | H]; [now left | right; eapply IH; eauto].
Qed.

Lemma erase_ids_incl (k : nat) l x :
  In x (map Index (erase k l)) -> In x (map Index l).
Proof.
  rewrite !in_map_iff. intros (r & <- & Hr). exists r. split; [reflexivity |].
  eapply erase_incl; eauto.
Qed.

Lemma erase_NoDup (k : nat) l :
  NoDup (map Index l) -> NoDup (map Index (erase k l)).
Proof.
  revert k. induction l as [| y t IH]; intros k; simpl; [auto |].
  intros H. inversion H as [| ? ? Hnotin Hnd]; subst.
  destruct k as [| k]; [exact Hnd |].
  simpl. constructor; [| apply IH; exact Hnd].
  intros Hin. apply Hnotin. eapply erase_ids_incl; eauto.
Qed.

(** ** [ForThis] *)

Section ForThisFacts.

Variable id : ReceiverIndex_.
Variable InAction :
  ReceiverData_ EventType_ -> ReceiverData_ EventType_ * list (Obs EventType_).
Hypothesis keeps_Index : forall r, Index (fst (InAction r)) = Index r.
Hypothesis keeps_Function : forall r, Function (fst (InAction r)) = Function r.
Hypothesis only_asserts : forall r, invocations (snd (InAction r)) = [].

Lemma ForThis_in_Index l :
  map Index (fst (ForThis_in id InAction l)) = map Index l.
Proof.
  induction l as [| r t IH]; simpl; [reflexivity |].
  destruct (Index r =? id); simpl; [now rewrite keeps_Index | now rewrite IH].
Qed.

Lemma ForThis_in_Function l :
  map Function (fst (ForThis_in id InAction l)) = map Function l.
Proof.
  induction l as [| r t IH]; simpl; [reflexivity |].
  destruct (Index r =? id); simpl; [now rewrite keeps_Function | now rewrite IH].
Qed.

Lemma ForThis_in_log l : invocations (snd (ForThis_in id InAction l)) = [].
Proof.
  induction l as [| r t IH]; simpl; [reflexivity |].
  destruct (Index r =? id); simpl; auto.
Qed.

Lemma ForThis_in_absent l :
  ~ In id (map Index l) -> ForThis_in id InAction l = (l, []).
Proof.
  induction l as [| r t IH]; simpl; intros H; [reflexivity |].
  destruct (Z.eqb_spec (Index r) id) as [Heq | Hne]; [tauto |].
  rewrite IH by tauto. reflexivity.
Qed.

End ForThisFacts.

(** ** What handle operations leave alone *)

Lemma Pause_receivers s w :
  ReceiversContainer (Pause s w) =
  fst (ForThis_in (ReceiverIndex s)
         (fun r => (mkReceiverData_ Paused (Index r) (Function r),
                    Assert (ReceiverState_eqb (RState r) Active) AtPause))
         (ReceiversContainer w)).
Proof. reflexivity. Qed.

Lemma Resume_receivers s w :
  ReceiversContainer (Resume s w) =
  fst (ForThis_in (ReceiverIndex s)
         (fun r => (mkReceiverData_ Active (Index r) (Function r),
                    Assert (ReceiverState_eqb (RState r) Paused) AtResume))
         (ReceiversContainer w)).
Proof. reflexivity. Qed.

Lemma Pause_ids s w : ids (Pause s w) = ids w.
Proof. unfold ids. rewrite Pause_receivers. now apply ForThis_in_Index. Qed.

Lemma Resume_ids s w : ids (Resume s w) = ids w.
Proof. unfold ids. rewrite Resume_receivers. now apply ForThis_in_Index. Qed.

Lemma Pause_Functions s w :
  map Function (ReceiversContainer (Pause s w)) =
  map Function (ReceiversContainer w).
Proof. rewrite Pause_receivers. now apply ForThis_in_Function. Qed.

Lemma Resume_Functions s w :
  map Function (ReceiversContainer (Resume s w)) =
  map Function (ReceiversContainer w).
Proof. rewrite Resume_receivers. now apply ForThis_in_Function. Qed.

Lemma Pause_log s w :
  exists o, Log (Pause s w) = Log w ++ o /\ invocations o = [].
Proof.
  eexists. split; [reflexivity |]. apply ForThis_in_log.
  intros r. apply invocations_Assert.
Qed.

Lemma Resume_log s w :
  exists o, Log (Resume s w) = Log w ++ o /\ invocations o = [].
Proof.
  eexists. split; [reflexivity |]. apply ForThis_in_log.
  intros r. apply invocations_Assert.
Qed.

Lemma Remove_receivers s w :
  ReceiversContainer (snd (Remove s w)) =
  erase (find_if (fun r => Index r =? ReceiverIndex s) (ReceiversContainer w))
        (ReceiversContainer w)
  \/ ReceiversContainer (snd (Remove s w)) = ReceiversContainer w.
Proof.
  unfold Remove.
  destruct (negb (Nat.eqb _ _)); simpl; [left | right]; reflexivity.
Qed.

Lemma Remove_In s w r :
  In r (ReceiversContainer (snd (Remove s w))) -> In r (ReceiversContainer w).
Proof.
  destruct (Remove_receivers s w) as [-> | ->]; [apply erase_incl | auto].
Qed.

Lemma Remove_State s w : State (snd (Remove s w)) = State w.
Proof. unfold Remove. destruct (negb (Nat.eqb _ _)); reflexivity. Qed.

Lemma Remove_Next s w :
  NextReceiverIndex (snd (Remove s w)) = NextReceiverIndex w.
Proof. unfold Remove. destruct (negb (Nat.eqb _ _)); reflexivity. Qed.

Lemma Remove_Handles s w : Handles (snd (Remove s w)) = Handles w.
Proof. unfold Remove. destruct (negb (Nat.eqb _ _)); reflexivity. Qed.

Lemma Remove_Capacity s w : Capacity (snd (Remove s w)) = Capacity w.
Proof. unfold Remove. destruct (negb (Nat.eqb _ _)); reflexivity. Qed.

Lemma Remove_log s w :
  exists o, Log (snd (Remove s w)) = Log w ++ o /\ invocations o = [].
Proof.
  unfold Remove. destruct (negb (Nat.eqb _ _)); simpl;
    (eexists; split; [reflexivity | reflexivity]).
Qed.

Lemma Interrupt_receivers w :
  ReceiversContainer (Interrupt w) = ReceiversContainer w.
Proof. unfold Interrupt. destruct (negb _); reflexivity. Qed.

Lemma Interrupt_Next w : NextReceiverIndex (Interrupt w) = NextReceiverIndex w.
Proof. unfold Interrupt. destruct (negb _); reflexivity. Qed.

Lemma Interrupt_Handles w : Handles (Interrupt w) = Handles w.
Proof. unfold Interrupt. destruct (negb _); reflexivity. Qed.

Lemma Interrupt_Capacity w : Capacity (Interrupt w) = Capacity w.
Proof. unfold Interrupt. destruct (negb _); reflexivity. Qed.

Lemma Interrupt_mid w : State w <> Waiting -> State (Interrupt w) = Interrupted.
Proof.
  unfold Interrupt. destruct (State w) eqn:E; simpl; intros H;
    [congruence | reflexivity | exact E].
Qed.

Lemma Interrupt_log w :
  exists o, Log (Interrupt w) = Log w ++ o /\ invocations o = [].
Proof.
  unfold Interrupt. destruct (negb _); simpl.
  - exists [AssertFailed AtInterrupt]. split; reflexivity.
  - exists []. split; [now rewrite app_nil_r | reflexivity].
Qed.

(** ** Callbacks running inside a dispatch *)

Section Mid.

(** Inside a dispatch the state is never [Waiting], and a [Send] issued
    there stops at its guard. *)
Variable send : EventType_ -> World EventType_ -> Outcome EventType_.
Hypothesis send_guard : forall e w,
  State w <> Waiting -> send e w = Done (emit [AssertFailed AtSend] w) e.

Lemma run_action_mid a e w :
  State w <> Waiting ->
  exists w' o,
    run_action send a e w = Done w' (mutate e a) /\
    Log w' = Log w ++ o /\ invocations o = [] /\
    State w' <> Waiting /\
    (State w = Interrupted -> State w' = Interrupted) /\
    (a = ActInterrupt -> State w' = Interrupted) /\
    (is_Register a = false ->
     NextReceiverIndex w' = NextReceiverIndex w /\ Capacity w' = Capacity w).
Proof.
  intros Hmid. destruct a as [g | | e0 | h | h | h | f0 dst]; simpl.
  - exists w, []. rewrite app_nil_r. repeat split; auto; discriminate.
  - destruct (Interrupt_log w) as (o & Hlog & Ho).
    exists (Interrupt w), o.
    rewrite (Interrupt_mid w Hmid), Interrupt_Next, Interrupt_Capacity.
    repeat split; auto; discriminate.
  - rewrite (send_guard e0 w Hmid). eexists _, _. simpl.
    repeat split; auto; discriminate.
  - destruct (Pause_log (Handles w h) w) as (o & Hlog & Ho).
    exists (Pause (Handles w h) w), o. repeat split; auto; discriminate.
  - destruct (Resume_log (Handles w h) w) as (o & Hlog & Ho).
    exists (Resume (Handles w h) w), o. repeat split; auto; discriminate.
  - destruct (Remove_log (Handles w h) w) as (o & Hlog & Ho).
    eexists _, o. split; [reflexivity |]. simpl.
    rewrite Remove_State, Remove_Next, Remove_Capacity.
    repeat split; auto; discriminate.
  - eexists _, []. split; [reflexivity |]. simpl. rewrite app_nil_r.
    repeat split; auto; discriminate.
Qed.

Lemma run_actions_mid f e w :
  State w <> Waiting ->
  exists w' o,
    run_actions send f e w = Done w' (mutations f e) /\
    Log w' = Log w ++ o /\ invocations o = [] /\
    State w' <> Waiting /\
    (State w = Interrupted -> State w' = Interrupted) /\
    (In ActInterrupt f -> State w' = Interrupted) /\
    ((forall a, In a f -> is_Register a = false) ->
     NextReceiverIndex w' = NextReceiverIndex w /\ Capacity w' = Capacity w).
Proof.
  revert e w. induction f as [| a t IH]; intros e w Hmid.
  - exists w, []. simpl. rewrite app_nil_r. repeat split; auto. intros [].
  - destruct (run_action_mid a e w Hmid)
      as (w1 & o1 & Hrun & Hlog1 & Ho1 & Hmid1 & Hint1 & Hact1 & Hnext1).
    destruct (IH (mutate e a) w1 Hmid1)
      as (w2 & o2 & Hrun2 & Hlog2 & Ho2 & Hmid2 & Hint2 & Hact2 & Hnext2).
    exists w2, (o1 ++ o2). simpl. rewrite Hrun.
    split; [exact Hrun2 |].
    split; [now rewrite Hlog2, Hlog1, app_assoc |].
    split; [now rewrite invocations_app, Ho1, Ho2 |].
    split; [exact Hmid2 |].
    split; [auto |].
    split.
    + intros [Heq | Hin]; auto.
    + intros Hreg.
      destruct Hnext1 as [N1 C1]; [apply Hreg; now left |].
      destruct Hnext2 as [N2 C2]; [intros b Hb; apply Hreg; now right |].
      split; congruence.
Qed.

Lemma invoke_mid r e w :
  State w <> Waiting ->
  exists w' o,
    invoke send r e w = Done w' (mutations (Function r) e) /\
    Log w' = Log w ++ Invoked r e :: o /\ invocations o = [] /\
    State w' <> Waiting /\
    (In ActInterrupt (Function r) -> State w' = Interrupted) /\
    ((forall a, In a (Function r) -> is_Register a = false) ->
     NextReceiverIndex w' = NextReceiverIndex w /\ Capacity w' = Capacity w).
Proof.
  intros Hmid. unfold invoke.
  destruct (run_actions_mid (Function r) e (emit [Invoked r e] w) Hmid)
    as (w' & o & Hrun & Hlog & Ho & Hmid' & _ & Hint & Hnext).
  exists w', o.
  split; [exact Hrun |].
  split; [rewrite Hlog; simpl; now rewrite <- app_assoc |].
  split; [exact Ho |]. split; [exact Hmid' |]. split; [exact Hint |].
  exact Hnext.
Qed.

Lemma Send_loop_not_Sending steps it e w :
  State w <> Sending -> Send_loop send steps it e w = Done w e.
Proof.
  intros H. destruct steps as [| k]; simpl; [reflexivity |].
  destruct (State w); simpl; congruence.
Qed.

(** The log of the loop, whatever the callbacks do. *)
Lemma Send_loop_log steps : forall it e w,
  State w <> Waiting ->
  exists w' e' L,
    (Send_loop send steps it e w = Done w' e' \/
     Send_loop send steps it e w = Fault w' e') /\
    Log w' = Log w ++ L /\
    threaded e (invocations L) e' /\
    interrupter_last (invocations L) /\
    Forall (fun x => RState (fst x) = Active) (invocations L) /\
    State w' <> Waiting.
Proof.
  induction steps as [| k IH]; intros it e w Hmid.
  - exists w, e, []. simpl. rewrite app_nil_r.
    repeat split; auto. intros [| n] r ev H; discriminate.
  - assert (Hstop : exists L : list (Obs EventType_),
               L = [] /\ Log w = Log w ++ L /\ threaded e (invocations L) e /\
               interrupter_last (invocations L) /\
               Forall (fun x => RState (fst x) = Active) (invocations L)).
    { exists []. simpl. rewrite app_nil_r. repeat split; auto.
      intros [| n] r ev H; discriminate. }
    destruct Hstop as (L0 & _ & HL0 & Hth0 & Hil0 & Hact0).
    simpl. destruct (EventState_eqb (State w) Sending) eqn:Hs; simpl.
    2:{ exists w, e, L0. repeat split; auto. }
    destruct (nth_error (ReceiversContainer w) it) as [r |] eqn:Hnth.
    2:{ exists w, e, L0. repeat split; auto. }
    destruct (RState r) eqn:Hr; simpl.
    + destruct (invoke_mid r e w Hmid)
        as (w1 & o & Hinv & Hlog1 & Ho & Hmid1 & Hint1 & _).
      rewrite Hinv.
      destruct (Nat.eqb (Capacity w1) (Capacity w)).
      2:{ exists w1, (mutations (Function r) e), (Invoked r e :: o).
          simpl. rewrite Ho.
          split; [now right |]. split; [exact Hlog1 |].
          split; [simpl; auto |].
          split; [| split; [constructor; auto | exact Hmid1]].
          intros [| [| n]] r' ev' Hn Hin; simpl in Hn;
            [reflexivity | discriminate | discriminate]. }
      destruct (IH (S it) (mutations (Function r) e) w1 Hmid1)
        as (w' & e' & L & Hout & Hlog & Hth & Hil & Hact & Hmid').
      exists w', e', (Invoked r e :: o ++ L).
      assert (Hinvs : invocations (Invoked r e :: o ++ L) =
                      (r, e) :: invocations L).
      { simpl. now rewrite invocations_app, Ho. }
      rewrite Hinvs.
      split; [exact Hout |].
      split; [rewrite Hlog, Hlog1, <- app_assoc; reflexivity |].
      split; [simpl; auto |].
      split; [| split; [constructor; auto | auto]].
      destruct (EventState_eqb (State w1) Sending) eqn:Hs1.
      * intros [| n] r' ev' Hn Hin; simpl in Hn.
        -- injection Hn as <- <-. apply Hint1 in Hin.
           apply EventState_eqb_eq in Hs1. congruence.
        -- simpl. f_equal. eapply Hil; eauto.
      * assert (Hne : State w1 <> Sending).
        { intros Heq. apply EventState_eqb_eq in Heq. congruence. }
        rewrite (Send_loop_not_Sending k (S it) _ w1 Hne) in Hout.
        assert (HL : L = []).
        { destruct Hout as [Hout | Hout]; [| discriminate].
          injection Hout as <- <-.
          apply (f_equal (@length _)) in Hlog. rewrite length_app in Hlog.
          destruct L; [reflexivity | simpl in Hlog; lia]. }
        subst L. intros [| n] r' ev' Hn Hin; simpl in Hn.
        -- reflexivity.
        -- destruct n; discriminate.
    + destruct (IH (S it) e w Hmid)
        as (w' & e' & L & Hout & Hlog & Hth & Hil & Hact & Hmid').
      exists w', e', L. repeat split; auto.
Qed.

(** *** Invariants of a dispatch *)

Section Invariant.

(** [p] selects the actions the registered callbacks are assumed not to
    perform; [I] is a property of the channel that the other actions keep;
    [J] is what [I] says about an entry found active. *)
Variable p : Action EventType_ -> bool.
Variable I : World EventType_ -> Prop.
Variable J : ReceiverData_ EventType_ -> Prop.

Hypothesis I_emit : forall w o, I w -> I (emit o w).
Hypothesis I_action : forall a e w w' e',
  p a = false -> I w -> State w <> Waiting ->
  run_action send a e w = Done w' e' -> I w'.
Hypothesis I_avoid : forall w, I w -> callbacks_avoid p (ReceiversContainer w).
Hypothesis I_J : forall w r,
  I w -> In r (ReceiversContainer w) -> RState r = Active -> J r.

Lemma run_actions_inv f : forall e w,
  (forall a, In a f -> p a = false) -> I w -> State w <> Waiting ->
  forall w' e', run_actions send f e w = Done w' e' -> I w'.
Proof.
  induction f as [| a t IH]; intros e w Hp HI Hmid w' e' Hrun; simpl in Hrun.
  - now injection Hrun as <- <-.
  - destruct (run_action_mid a e w Hmid)
      as (w1 & o1 & Hrun1 & _ & _ & Hmid1 & _).
    rewrite Hrun1 in Hrun.
    eapply IH; [| | exact Hmid1 | exact Hrun].
    + intros b Hb. apply Hp. now right.
    + eapply I_action; [| exact HI | exact Hmid | exact Hrun1].
      apply Hp. now left.
Qed.

Lemma Send_loop_inv steps : forall it e w,
  I w -> State w <> Waiting ->
  exists w' e' L,
    (Send_loop send steps it e w = Done w' e' \/
     Send_loop send steps it e w = Fault w' e') /\
    I w' /\ State w' <> Waiting /\
    Log w' = Log w ++ L /\
    Forall (fun x => J (fst x)) (invocations L).
Proof.
  induction steps as [| k IH]; intros it e w HI Hmid.
  - exists w, e, []. simpl. rewrite app_nil_r. repeat split; auto.
  - simpl. destruct (EventState_eqb (State w) Sending) eqn:Hs; simpl.
    2:{ exists w, e, []. rewrite app_nil_r. repeat split; auto. }
    destruct (nth_error (ReceiversContainer w) it) as [r |] eqn:Hnth.
    2:{ exists w, e, []. rewrite app_nil_r. repeat split; auto. }
    destruct (RState r) eqn:Hr; simpl.
    + destruct (invoke_mid r e w Hmid)
        as (w1 & o & Hinv & Hlog1 & Ho & Hmid1 & _ & _).
      rewrite Hinv.
      assert (HI1 : I w1).
      { unfold invoke in Hinv.
        eapply run_actions_inv; [| | | exact Hinv].
        - intros a Ha.
          exact (I_avoid w HI r a (nth_error_In _ _ Hnth) Ha).
        - apply I_emit. exact HI.
        - exact Hmid. }
      assert (HJ1 : J r) by exact (I_J w r HI (nth_error_In _ _ Hnth) Hr).
      destruct (Nat.eqb (Capacity w1) (Capacity w)).
      2:{ exists w1, (mutations (Function r) e), (Invoked r e :: o).
          split; [now right |]. split; [exact HI1 |]. split; [exact Hmid1 |].
          split; [exact Hlog1 |].
          simpl. rewrite Ho. constructor; [exact HJ1 | constructor]. }
      destruct (IH (S it) (mutations (Function r) e) w1 HI1 Hmid1)
        as (w' & e' & L & Hout & HI' & Hmid' & Hlog & HJ).
      exists w', e', (Invoked r e :: o ++ L).
      split; [exact Hout |]. split; [exact HI' |]. split; [exact Hmid' |].
      split; [rewrite Hlog, Hlog1, <- app_assoc; reflexivity |].
      simpl. rewrite invocations_app, Ho. simpl. constructor; [| exact HJ].
      exact (I_J w r HI (nth_error_In _ _ Hnth) Hr).
    + destruct (IH (S it) e w HI Hmid)
        as (w' & e' & L & Hout & HI' & Hmid' & Hlog & HJ).
      exists w', e', L. repeat split; auto.
Qed.

Lemma invoke_inv r e w :
  I w -> In r (ReceiversContainer w) -> State w <> Waiting ->
  forall w' e', invoke send r e w = Done w' e' -> I w'.
Proof.
  intros HI Hin Hmid w' e' Hinv. unfold invoke in Hinv.
  eapply run_actions_inv; [| | | exact Hinv].
  - intros a Ha. exact (I_avoid w HI r a Hin Ha).
  - apply I_emit. exact HI.
  - exact Hmid.
Qed.

End Invariant.

(** *** Dispatches that neither erase nor register *)

Lemma resizes_Register a : resizes a = false -> is_Register a = false.
Proof. unfold resizes. intros H. now apply orb_false_elim in H. Qed.

Lemma resizes_Remove a : resizes a = false -> is_Remove a = false.
Proof. unfold resizes. intros H. now apply orb_false_elim in H. Qed.

Lemma avoid_weaken (p q : Action EventType_ -> bool) l :
  (forall a, p a = false -> q a = false) ->
  callbacks_avoid p l -> callbacks_avoid q l.
Proof. intros Hpq Hav r a Hr Ha. apply Hpq. exact (Hav r a Hr Ha). Qed.

Lemma shape_avoid (p : Action EventType_ -> bool) w w' :
  shape w' = shape w ->
  callbacks_avoid p (ReceiversContainer w) ->
  callbacks_avoid p (ReceiversContainer w').
Proof.
  unfold shape. intros Hsh Hav r a Hr Ha.
  injection Hsh as _ Hf.
  assert (Hin : In (Function r) (map Function (ReceiversContainer w))).
  { rewrite <- Hf. now apply in_map. }
  apply in_map_iff in Hin. destruct Hin as (r0 & Heq & Hr0).
  apply (Hav r0 a Hr0). now rewrite Heq.
Qed.

Lemma run_action_shape a e w w' e' :
  resizes a = false -> State w <> Waiting ->
  run_action send a e w = Done w' e' -> shape w' = shape w.
Proof.
  intros Hp Hmid Hrun. destruct a as [g | | e0 | h | h | h | f0 dst]; simpl in *.
  - now injection Hrun as <- <-.
  - injection Hrun as <- <-. unfold shape. now rewrite Interrupt_receivers.
  - rewrite (send_guard e0 w Hmid) in Hrun. now injection Hrun as <- <-.
  - injection Hrun as <- <-. unfold shape.
    f_equal; [apply Pause_ids | apply Pause_Functions].
  - injection Hrun as <- <-. unfold shape.
    f_equal; [apply Resume_ids | apply Resume_Functions].
  - discriminate.
  - discriminate.
Qed.

Lemma invoke_shape r e w w' e' :
  callbacks_avoid resizes (ReceiversContainer w) ->
  In r (ReceiversContainer w) -> State w <> Waiting ->
  invoke send r e w = Done w' e' -> shape w' = shape w.
Proof.
  intros Hav Hin Hmid Hinv.
  set (K := fun x : World EventType_ => shape x = shape w).
  assert (K_emit : forall x o, K x -> K (emit o x)) by (intros x o H; exact H).
  assert (K_action : forall a e1 x x' e1',
             resizes a = false -> K x -> State x <> Waiting ->
             run_action send a e1 x = Done x' e1' -> K x').
  { intros a e1 x x' e1' Hp H1 Hm Hrun. unfold K in *.
    rewrite <- H1. eapply run_action_shape; eauto. }
  assert (K_avoid : forall x,
             K x -> callbacks_avoid resizes (ReceiversContainer x)).
  { intros x H1. eapply shape_avoid; eauto. }
  exact (invoke_inv resizes K K_emit K_action K_avoid r e w
           eq_refl Hin Hmid w' e' Hinv).
Qed.

(** A callback that registers nothing leaves the storage where it is. *)
Lemma invoke_Capacity r e w w' e' :
  (forall a, In a (Function r) -> is_Register a = false) ->
  State w <> Waiting ->
  invoke send r e w = Done w' e' ->
  Capacity w' = Capacity w /\ NextReceiverIndex w' = NextReceiverIndex w.
Proof.
  intros Hreg Hmid Hinv.
  destruct (invoke_mid r e w Hmid) as (w1 & o & Hinv1 & _ & _ & _ & _ & Hn).
  rewrite Hinv1 in Hinv. injection Hinv as <- _.
  destruct (Hn Hreg). auto.
Qed.

Lemma invoke_same_storage r e w w' e' :
  (forall a, In a (Function r) -> is_Register a = false) ->
  State w <> Waiting ->
  invoke send r e w = Done w' e' ->
  Nat.eqb (Capacity w') (Capacity w) = true.
Proof.
  intros Hreg Hmid Hinv.
  destruct (invoke_Capacity r e w w' e' Hreg Hmid Hinv) as [-> _].
  apply Nat.eqb_refl.
Qed.

Lemma skipn_nth_error {A : Type} (x : A) : forall (l : list A) (n : nat),
  nth_error l n = Some x -> skipn n l = x :: skipn (S n) l.
Proof.
  induction l as [| y t IH]; intros [| n] H; simpl in *; try discriminate.
  - now injection H as ->.
  - rewrite (IH n H). reflexivity.
Qed.



(** The dispatch of the specification always returns. *)
Lemma spec_dispatch_returns order : forall e w,
  State w <> Waiting ->
  exists w' e', spec_dispatch send order e w = Done w' e' /\
                State w' <> Waiting.
Proof.
  induction order as [| id rest IH]; intros e w Hmid; simpl.
  - eauto.
  - destruct (negb (EventState_eqb (State w) Sending)); [eauto |].
    destruct (find _ _) as [r |]; [| auto].
    destruct (RState r); [| auto].
    destruct (invoke_mid r e w Hmid)
      as (w1 & o & Hinv & _ & _ & Hmid1 & _ & _).
    rewrite Hinv. auto.
Qed.

(** Without erasure and registration the loop never leaves the live
    elements. *)
Lemma Send_loop_returns steps : forall it e w,
  callbacks_avoid resizes (ReceiversContainer w) ->
  State w <> Waiting ->
  (it + steps <= length (ReceiversContainer w))%nat ->
  exists w' e', Send_loop send steps it e w = Done w' e' /\
                State w' <> Waiting.
Proof.
  induction steps as [| k IH]; intros it e w Hav Hmid Hlen; simpl.
  - eauto.
  - destruct (negb (EventState_eqb (State w) Sending)); [eauto |].
    destruct (nth_error (ReceiversContainer w) it) as [r |] eqn:Hnth.
    2:{ apply nth_error_None in Hnth. lia. }
    destruct (negb (ReceiverState_eqb (RState r) Active)).
    + apply IH; auto. lia.
    + destruct (invoke_mid r e w Hmid)
        as (w1 & o & Hinv & _ & _ & Hmid1 & _ & _).
      rewrite Hinv.
      rewrite (invoke_same_storage r e w w1 _
                 (fun a Ha => resizes_Register a
                    (Hav r a (nth_error_In _ _ Hnth) Ha)) Hmid Hinv).
      assert (Hsh : shape w1 = shape w).
      { eapply invoke_shape; eauto. eapply nth_error_In; eauto. }
      apply IH; auto.
      * eapply shape_avoid; eauto.
      * assert (Hl : length (ReceiversContainer w1) =
                     length (ReceiversContainer w)).
        { rewrite <- (length_map Index (ReceiversContainer w1)).
          rewrite <- (length_map Index (ReceiversContainer w)).
          unfold shape in Hsh. injection Hsh as Hi _.
          exact (f_equal (@length _) Hi). }
        lia.
Qed.

(** *** Callbacks that leave the channel alone *)





(** *** Where the entries of the list come from *)

Lemma ForThis_in_In (id : ReceiverIndex_)
    (InAction : ReceiverData_ EventType_ ->
                ReceiverData_ EventType_ * list (Obs EventType_)) l r' :
  In r' (fst (ForThis_in id InAction l)) ->
  In r' l \/ exists r, In r l /\ r' = fst (InAction r).
Proof.
  induction l as [| x t IH]; simpl; [tauto |].
  destruct (Index x =? id); simpl.
  - intros [<- | H]; [right; exists x; auto | left; auto].
  - intros [<- | H]; [left; auto |].
    destruct (IH H) as [H1 | (r & Hr & ->)]; [left; auto |].
    right. exists r. auto.
Qed.

(** An action of a callback other than [Receive] creates no entry: an
    entry of the list after the action is an entry of the list before it,
    or such an entry with its activity set by [Pause] or [Resume]. *)
Lemma run_action_entries a e w w' e' :
  is_Register a = false ->
  State w <> Waiting ->
  run_action send a e w = Done w' e' ->
  forall r', In r' (ReceiversContainer w') ->
    In r' (ReceiversContainer w) \/
    exists r, In r (ReceiversContainer w) /\
              Index r' = Index r /\ Function r' = Function r /\
              (RState r' = Paused /\ is_Resume a = false \/
               RState r' = Active /\ is_Resume a = true).
Proof.
  intros Hreg Hmid Hrun r' Hin.
  destruct a as [g | | e0 | h | h | h | f0 dst]; simpl in Hrun;
    try discriminate Hreg.
  - injection Hrun as <- <-. now left.
  - injection Hrun as <- <-. rewrite Interrupt_receivers in Hin. now left.
  - rewrite (send_guard e0 w Hmid) in Hrun. injection Hrun as <- <-.
    now left.
  - injection Hrun as <- <-. rewrite Pause_receivers in Hin.
    apply ForThis_in_In in Hin. destruct Hin as [H | (r & Hr & ->)]; [now left |].
    right. exists r. simpl. do 3 (split; [auto |]). left. auto.
  - injection Hrun as <- <-. rewrite Resume_receivers in Hin.
    apply ForThis_in_In in Hin. destruct Hin as [H | (r & Hr & ->)]; [now left |].
    right. exists r. simpl. do 3 (split; [auto |]). right. auto.
  - injection Hrun as <- <-. simpl in Hin. left. eapply Remove_In; eauto.
Qed.

Lemma run_action_avoid (p : Action EventType_ -> bool) a e w w' e' :
  is_Register a = false ->
  State w <> Waiting ->
  run_action send a e w = Done w' e' ->
  callbacks_avoid p (ReceiversContainer w) ->
  callbacks_avoid p (ReceiversContainer w').
Proof.
  intros Hreg Hmid Hrun Hav r' b Hr' Hb.
  destruct (run_action_entries a e w w' e' Hreg Hmid Hrun r' Hr')
    as [H | (r & Hr & _ & Hf & _)].
  - eapply Hav; eauto.
  - rewrite Hf in Hb. eapply Hav; eauto.
Qed.




(** An identity absent from the list stays absent, and no entry carrying it
    is invoked, while no callback registers. *)
Lemma Send_loop_absent (x : ReceiverIndex_) steps it e w :
  State w <> Waiting ->
  ~ In x (ids w) ->
  callbacks_avoid is_Register (ReceiversContainer w) ->
  exists w' e' L,
    (Send_loop send steps it e w = Done w' e' \/
     Send_loop send steps it e w = Fault w' e') /\
    Log w' = Log w ++ L /\
    Forall (fun i => Index (fst i) <> x) (invocations L) /\
    ~ In x (ids w') /\ State w' <> Waiting.
Proof.
  intros Hmid Hx Hav.
  destruct (Send_loop_inv is_Register
              (fun y : World EventType_ =>
                 ~ In x (ids y) /\
                 callbacks_avoid is_Register (ReceiversContainer y))
              (fun r => Index r <> x)) with
    (steps := steps) (it := it) (e := e) (w := w)
    as (w' & e' & L & Hout & (HI & _) & Hmid' & Hlog & HJ).
  - intros y o H. exact H.
  - intros a e1 y y' e1' Hreg [H1 H2] Hm Hrun. split.
    + intros Hin. apply H1.
      unfold ids in *. apply in_map_iff in Hin. destruct Hin as (r' & <- & Hr').
      destruct (run_action_entries a e1 y y' e1' Hreg Hm Hrun r' Hr')
        as [H | (r & Hr & Hi & _)].
      * now apply in_map.
      * rewrite Hi. now apply in_map.
    + eapply run_action_avoid; eauto.
  - intros y [_ H]. exact H.
  - intros y r [H1 _] Hr _ Hi. apply H1. unfold ids. rewrite <- Hi.
    now apply in_map.
  - split; assumption.
  - exact Hmid.
  - exists w', e', L. auto.
Qed.

(** *** Identities across a dispatch *)

Lemma run_action_ids a e w w' e' :
  is_Register a = false ->
  State w <> Waiting ->
  run_action send a e w = Done w' e' ->
  ids w' = ids w \/
  exists k, ReceiversContainer w' = erase k (ReceiversContainer w).
Proof.
  intros Hreg Hmid Hrun.
  destruct a as [g | | e0 | h | h | h | f0 dst]; simpl in Hrun;
    try discriminate Hreg.
  - injection Hrun as <- <-. now left.
  - injection Hrun as <- <-. left. unfold ids. now rewrite Interrupt_receivers.
  - rewrite (send_guard e0 w Hmid) in Hrun. injection Hrun as <- <-. now left.
  - injection Hrun as <- <-. left. apply Pause_ids.
  - injection Hrun as <- <-. left. apply Resume_ids.
  - injection Hrun as <- <-. simpl.
    destruct (Remove_receivers (Handles w h) w) as [H | H].
    + right. eexists. exact H.
    + left. unfold ids. simpl. now rewrite H.
Qed.

(** What a dispatch without registration keeps: the callbacks register
    nothing afterwards either, the counter and the capacity stand, the
    identities stay distinct and none is new. *)
Lemma Send_loop_ids steps it e w :
  State w <> Waiting ->
  callbacks_avoid is_Register (ReceiversContainer w) ->
  exists w' e',
    (Send_loop send steps it e w = Done w' e' \/
     Send_loop send steps it e w = Fault w' e') /\
    callbacks_avoid is_Register (ReceiversContainer w') /\
    NextReceiverIndex w' = NextReceiverIndex w /\
    Capacity w' = Capacity w /\
    (NoDup (ids w) -> NoDup (ids w')) /\
    (forall id, In id (ids w') -> In id (ids w)).
Proof.
  intros Hmid Hav.
  destruct (Send_loop_inv is_Register
              (fun y : World EventType_ =>
                 callbacks_avoid is_Register (ReceiversContainer y) /\
                 NextReceiverIndex y = NextReceiverIndex w /\
                 Capacity y = Capacity w /\
                 (NoDup (ids w) -> NoDup (ids y)) /\
                 forall id, In id (ids y) -> In id (ids w))
              (fun _ => True)) with
    (steps := steps) (it := it) (e := e) (w := w)
    as (w' & e' & L & Hout & HI & _).
  - intros y o H. exact H.
  - intros a e1 y y' e1' Hreg (H0 & Hn & Hc & H1 & H2) Hm Hrun.
    split; [eapply run_action_avoid; eauto |].
    destruct (run_action_mid a e1 y Hm)
      as (y1 & o1 & Hrun1 & _ & _ & _ & _ & _ & Hkeep).
    rewrite Hrun1 in Hrun. injection Hrun as <- _.
    destruct (Hkeep Hreg) as [Hn1 Hc1].
    split; [congruence |]. split; [congruence |].
    destruct (run_action_ids a e1 y y1 _ Hreg Hm Hrun1) as [Heq | [k Heq]].
    + rewrite Heq. auto.
    + split.
      * intros Hnd. unfold ids. rewrite Heq. apply erase_NoDup.
        now apply H1.
      * intros id Hid. apply H2. unfold ids in Hid. rewrite Heq in Hid.
        eapply erase_ids_incl; eauto.
  - intros y [H _]. exact H.
  - auto.
  - repeat split; auto.
  - exact Hmid.
  - exists w', e'. destruct HI as (H0 & Hn & Hc & H1 & H2). auto 10.
Qed.

End Mid.

(** ** The guard of [Send] *)

Lemma Send_guard (fuel : nat) e w :
  State w <> Waiting ->
  Send fuel e w = Done (emit [AssertFailed AtSend] w) e.
Proof.
  intros H. destruct fuel; simpl; destruct (State w); simpl; congruence.
Qed.

Lemma Send_Waiting (fuel : nat) e w :
  State w = Waiting -> Send (S fuel) e w = Send_body (Send fuel) e w.
Proof. intros H. simpl. rewrite H. reflexivity. Qed.

(** ** Fuel *)

(** Nested calls stop at the guard, so one unit of fuel is as good as
    any. *)
Lemma Send_loop_ext
    (send1 send2 : EventType_ -> World EventType_ -> Outcome EventType_) :
  (forall e w, State w <> Waiting ->
     send1 e w = Done (emit [AssertFailed AtSend] w) e) ->
  (forall e w, State w <> Waiting ->
     send2 e w = Done (emit [AssertFailed AtSend] w) e) ->
  forall steps it e w,
    State w <> Waiting ->
    Send_loop send1 steps it e w = Send_loop send2 steps it e w.
Proof.
  intros G1 G2.
  assert (Hact : forall a e w, State w <> Waiting ->
            run_action send1 a e w = run_action send2 a e w).
  { intros a e w Hmid. destruct a; simpl; try reflexivity.
    now rewrite (G1 _ _ Hmid), (G2 _ _ Hmid). }
  assert (Hacts : forall f e w, State w <> Waiting ->
            run_actions send1 f e w = run_actions send2 f e w).
  { induction f as [| a t IH]; intros e w Hmid; simpl; [reflexivity |].
    rewrite <- (Hact a e w Hmid).
    destruct (run_action_mid send1 G1 a e w Hmid)
      as (w1 & o & Hrun & _ & _ & Hmid1 & _).
    rewrite Hrun. now apply IH. }
  induction steps as [| k IH]; intros it e w Hmid; simpl; [reflexivity |].
  destruct (negb (EventState_eqb (State w) Sending)); [reflexivity |].
  destruct (nth_error (ReceiversContainer w) it) as [r |]; [| reflexivity].
  destruct (negb (ReceiverState_eqb (RState r) Active)); [now apply IH |].
  unfold invoke. rewrite <- Hacts by exact Hmid.
  destruct (invoke_mid send1 G1 r e w Hmid)
    as (w1 & o & Hinv & _ & _ & Hmid1 & _).
  unfold invoke in Hinv. rewrite Hinv.
  destruct (Nat.eqb (Capacity w1) (Capacity w)); [now apply IH | reflexivity].
Qed.

Lemma Send_fuel (fuel : nat) e w : Send (S fuel) e w = Send 1 e w.
Proof.
  destruct (State w) eqn:Hs.
  - rewrite !Send_Waiting by exact Hs. unfold Send_body.
    rewrite (Send_loop_ext (Send fuel) (Send 0)
               (Send_guard fuel) (Send_guard 0)); [reflexivity |].
    simpl. discriminate.
  - rewrite !Send_guard by congruence. reflexivity.
  - rewrite !Send_guard by congruence. reflexivity.
Qed.

(** ** Top-level dispatch *)

Lemma Send_top_log (fuel : nat) e w :
  State w = Waiting ->
  exists w' e' L,
    (Send (S fuel) e w = Done w' e' /\ State w' = Waiting \/
     Send (S fuel) e w = Fault w' e') /\
    Log w' = Log w ++ L /\
    threaded e (invocations L) e' /\
    interrupter_last (invocations L) /\
    Forall (fun x => RState (fst x) = Active) (invocations L).
Proof.
  intros Hw. rewrite (Send_Waiting fuel e w Hw). unfold Send_body.
  destruct (Send_loop_log (Send fuel) (Send_guard fuel)
              (length (ReceiversContainer (set_State Sending w))) O e
              (set_State Sending w))
    as (w2 & e2 & L & Hout & Hlog & Hth & Hil & Hact & _);
    [simpl; discriminate |].
  destruct Hout as [Hout | Hout]; rewrite Hout.
  - exists (set_State Waiting w2), e2, L. repeat split; auto.
  - exists w2, e2, L. repeat split; auto.
Qed.

Lemma Send_top_returns (fuel : nat) e w :
  State w = Waiting ->
  callbacks_avoid resizes (ReceiversContainer w) ->
  returns (Send (S fuel) e w).
Proof.
  intros Hw Hav. rewrite (Send_Waiting fuel e w Hw). unfold Send_body.
  destruct (Send_loop_returns (Send fuel) (Send_guard fuel)
              (length (ReceiversContainer (set_State Sending w))) O e
              (set_State Sending w))
    as (w2 & e2 & Hout & _); auto; [simpl; discriminate |].
  rewrite Hout. exact Logic.I.
Qed.



(** C2.  [Interrupt] called while sending sets the state to
    [Interrupted]; the loop tests the state at the start of every step and
    leaves without touching anything when it is not [Sending]; hence, in
    the sequence of callbacks entered by one [Send], a callback that calls
    [Interrupt] is the last one: the entries after it are not invoked, the
    ones entered before it were. *)
Theorem Interrupt_stops_dispatch (fuel : nat) e w :
  State w = Waiting ->
  (forall x : World EventType_,
     State x = Sending -> State (Interrupt x) = Interrupted) /\
  (forall (x : World EventType_) steps it ev,
     State x = Interrupted ->
     Send_loop (Send fuel) steps it ev x = Done x ev) /\
  exists w' e' L,
    (Send (S fuel) e w = Done w' e' \/ Send (S fuel) e w = Fault w' e') /\
    Log w' = Log w ++ L /\
    interrupter_last (invocations L).
Proof.
  intros Hw. split; [| split].
  - intros x Hx. apply Interrupt_mid. congruence.
  - intros x steps it ev Hx. apply Send_loop_not_Sending. congruence.
  - destruct (Send_top_log fuel e w Hw)
      as (w' & e' & L & Hout & Hlog & _ & Hil & _).
    exists w', e', L. repeat split; auto. tauto.
Qed.

Lemma run_op_Waiting (op : Op EventType_) w w' :
  State w = Waiting -> run_op op w = Some w' -> State w' = Waiting.
Proof.
  intros Hw Hrun. destruct op as [f dst | e | | h | h | h | src dst];
    cbn [run_op] in Hrun.
  - injection Hrun as <-. exact Hw.
  - destruct (Send_top_log 0 e w Hw) as (w2 & e2 & L & Hout & _).
    destruct Hout as [[Hout Hst] | Hout]; rewrite Hout in Hrun.
    + injection Hrun as <-. exact Hst.
    + discriminate.
  - injection Hrun as <-. unfold Interrupt. rewrite Hw. exact Hw.
  - injection Hrun as <-. exact Hw.
  - injection Hrun as <-. exact Hw.
  - injection Hrun as <-. simpl. now rewrite Remove_State.
  - injection Hrun as <-. exact Hw.
Qed.

Lemma run_ops_Waiting (ops : list (Op EventType_)) : forall w w',
  State w = Waiting -> run_ops ops w = Some w' -> State w' = Waiting.
Proof.
  induction ops as [| op rest IH]; intros w w' Hw Hrun; simpl in Hrun.
  - now injection Hrun as <-.
  - destruct (run_op op w) as [w1 |] eqn:Hop; [| discriminate].
    eapply IH; [| exact Hrun]. eapply run_op_Waiting; eauto.
Qed.

(** C4.  A [Send] that passes the guard never runs out of fuel, and
    whenever it returns - the loop having run to its end or having been
    broken by [Interrupt] - the state is [Waiting]; it does return when no
    callback erases or registers an entry.  [Waiting] is the initial state
    and the state after every top-level operation. *)
Theorem Send_leaves_Waiting (fuel : nat) e w :
  State w = Waiting ->
  Send (S fuel) e w <> OutOfFuel /\
  (forall w' e', Send (S fuel) e w = Done w' e' -> State w' = Waiting) /\
  (callbacks_avoid resizes (ReceiversContainer w) ->
     returns (Send (S fuel) e w)) /\
  State (initial EventType_) = Waiting /\
  (forall ops w', run_ops ops w = Some w' -> State w' = Waiting).
Proof.
  intros Hw.
  destruct (Send_top_log fuel e w Hw) as (w2 & e2 & L & Hout & _).
  split; [| split; [| split; [| split]]].
  - destruct Hout as [[Hout _] | Hout]; rewrite Hout; discriminate.
  - intros w' e' Hd. destruct Hout as [[Hout Hst] | Hout]; rewrite Hout in Hd.
    + now injection Hd as <- <-.
    + discriminate.
  - now apply Send_top_returns.
  - reflexivity.
  - intros ops w'. now apply run_ops_Waiting.
Qed.

(** C5.  [Send] called while the state is not [Waiting] - from a callback
    of a running dispatch, whose state is [Sending] or [Interrupted] -
    fails the assertion and returns at once: no callback is entered and
    the state, the receiver list, the next identity, the handles and the
    event are as before. *)
Theorem Send_rejected_while_sending (fuel : nat) e w :
  State w <> Waiting ->
  exists w',
    Send fuel e w = Done w' e /\
    Log w' = Log w ++ [AssertFailed AtSend] /\
    channel w' = channel w /\
    Handles w' = Handles w /\
    (forall e0, run_action (Send fuel) (ActSend e) e0 w = Done w' e0).
Proof.
  intros Hw. exists (emit [AssertFailed AtSend] w).
  rewrite (Send_guard fuel e w Hw). repeat split.
  intros e0. simpl. now rewrite (Send_guard fuel e w Hw).
Qed.

(** ** Identities across top-level programs *)

Lemma Send_top_ids (fuel : nat) e w w' e' :
  State w = Waiting ->
  callbacks_avoid is_Register (ReceiversContainer w) ->
  Send (S fuel) e w = Done w' e' ->
  callbacks_avoid is_Register (ReceiversContainer w') /\
  NextReceiverIndex w' = NextReceiverIndex w /\
  Capacity w' = Capacity w /\
  (NoDup (ids w) -> NoDup (ids w')) /\
  (forall id, In id (ids w') -> In id (ids w)).
Proof.
  intros Hw Hav Hd.
  rewrite (Send_Waiting fuel e w Hw) in Hd. unfold Send_body in Hd.
  destruct (Send_loop_ids (Send fuel) (Send_guard fuel)
              (length (ReceiversContainer (set_State Sending w))) O e
              (set_State Sending w))
    as (w3 & e3 & Hout3 & H3); [simpl; discriminate | exact Hav |].
  destruct Hout3 as [Hout3 | Hout3]; rewrite Hout3 in Hd; [| discriminate].
  injection Hd as <- <-. exact H3.
Qed.

Lemma Send_top_absent (fuel : nat) (x : ReceiverIndex_) e w w' e' :
  State w = Waiting -> ~ In x (ids w) ->
  callbacks_avoid is_Register (ReceiversContainer w) ->
  Send (S fuel) e w = Done w' e' ->
  exists L, Log w' = Log w ++ L /\
            Forall (fun i => Index (fst i) <> x) (invocations L) /\
            ~ In x (ids w').
Proof.
  intros Hw Hx Hav Hd.
  rewrite (Send_Waiting fuel e w Hw) in Hd. unfold Send_body in Hd.
  destruct (Send_loop_absent (Send fuel) (Send_guard fuel) x
              (length (ReceiversContainer (set_State Sending w))) O e
              (set_State Sending w))
    as (w3 & e3 & L & Hout3 & Hlog & HL & Hab & _);
    [simpl; discriminate | exact Hx | exact Hav |].
  destruct Hout3 as [Hout3 | Hout3]; rewrite Hout3 in Hd; [| discriminate].
  injection Hd as <- <-. exists L. auto.
Qed.

Lemma NoDup_snoc {A : Type} (l : list A) (a : A) :
  NoDup l -> ~ In a l -> NoDup (l ++ [a]).
Proof.
  induction l as [| x t IH]; simpl; intros Hnd Hin.
  - constructor; [intros [] | constructor].
  - inversion Hnd as [| ? ? Hx Ht]; subst. constructor.
    + rewrite in_app_iff. simpl. intros [H | [H | []]]; [auto | subst; auto].
    + apply IH; auto.
Qed.

Lemma registrations_cons (op : Op EventType_) ops :
  registrations (op :: ops) =
  if is_Receive op then S (registrations ops) else registrations ops.
Proof. unfold registrations. simpl. destruct (is_Receive op); reflexivity. Qed.

Lemma program_avoids_cons (p : Action EventType_ -> bool)
    (op : Op EventType_) ops :
  program_avoids p (op :: ops) ->
  program_avoids p [op] /\ program_avoids p ops.
Proof.
  intros H. split; intros f dst a Hin Ha.
  - destruct Hin as [Heq | []]. apply (H f dst a); [now left | exact Ha].
  - apply (H f dst a); [now right | exact Ha].
Qed.

(** A client program whose callbacks do not register keeps a channel
    whose callbacks do not register. *)
Lemma run_op_Register_free (op : Op EventType_) w w' :
  State w = Waiting ->
  callbacks_avoid is_Register (ReceiversContainer w) ->
  program_avoids is_Register [op] ->
  run_op op w = Some w' ->
  callbacks_avoid is_Register (ReceiversContainer w').
Proof.
  intros Hw Hav Hop Hrun.
  destruct op as [f dst | e | | h | h | h | src dst]; cbn [run_op] in Hrun.
  - injection Hrun as <-. intros r a Hr Ha. simpl in Hr.
    apply in_app_or in Hr. destruct Hr as [Hr | [<- | []]].
    + exact (Hav r a Hr Ha).
    + apply (Hop f dst a); [now left | exact Ha].
  - destruct (Send 1 e w) as [w1 e1 | |] eqn:Hd; try discriminate.
    injection Hrun as ->.
    now destruct (Send_top_ids 0 e w w' e1 Hw Hav Hd).
  - injection Hrun as <-. now rewrite Interrupt_receivers.
  - injection Hrun as <-. apply (shape_avoid is_Register w); [| exact Hav].
    unfold shape. f_equal; [apply Pause_ids | apply Pause_Functions].
  - injection Hrun as <-. apply (shape_avoid is_Register w); [| exact Hav].
    unfold shape. f_equal; [apply Resume_ids | apply Resume_Functions].
  - injection Hrun as <-. intros r a Hr Ha. simpl in Hr.
    apply Remove_In in Hr. exact (Hav r a Hr Ha).
  - injection Hrun as <-. exact Hav.
Qed.

(** What one top-level operation does to the identities and the log. *)
Lemma run_op_effect (op : Op EventType_) w w' :
  State w = Waiting ->
  callbacks_avoid is_Register (ReceiversContainer w) ->
  run_op op w = Some w' ->
  NextReceiverIndex w' =
    (if is_Receive op then wrap (NextReceiverIndex w + 1)
     else NextReceiverIndex w) /\
  (if is_Receive op then ids w' = ids w ++ [NextReceiverIndex w]
   else (NoDup (ids w) -> NoDup (ids w')) /\
        (forall id, In id (ids w') -> In id (ids w))) /\
  exists L, Log w' = Log w ++ L /\
    forall x, ~ In x (ids w) ->
      Forall (fun i => Index (fst i) <> x) (invocations L).
Proof.
  intros Hw Hav Hrun.
  assert (Hnil : forall o : list (Obs EventType_), invocations o = [] ->
            forall x : ReceiverIndex_, ~ In x (ids w) ->
              Forall (fun i => Index (fst i) <> x) (invocations o)).
  { intros o -> x _. constructor. }
  destruct op as [f dst | e | | h | h | h | src dst]; cbn [run_op] in Hrun;
    cbn [is_Receive].
  - injection Hrun as <-. split; [reflexivity |]. split.
    + unfold ids. simpl. now rewrite map_app.
    + exists []. simpl. rewrite app_nil_r. split; [reflexivity |].
      intros x _. constructor.
  - destruct (Send 1 e w) as [w1 e1 | |] eqn:Hd; try discriminate.
    injection Hrun as ->.
    destruct (Send_top_ids 0 e w w' e1 Hw Hav Hd)
      as (_ & Hn & _ & Hnd & Hincl).
    split; [exact Hn |]. split; [split; [exact Hnd | exact Hincl] |].
    destruct (Send_top_log 0 e w Hw)
      as (w2 & e2 & L & Hout & Hlog & _).
    assert (Hww : w2 = w').
    { destruct Hout as [[Hout _] | Hout]; rewrite Hout in Hd;
        [now injection Hd as <- <- | discriminate]. }
    subst w2. exists L. split; [exact Hlog |].
    intros x Hx.
    destruct (Send_top_absent 0 x e w w' e1 Hw Hx Hav Hd)
      as (L' & Hlog' & HL' & _).
    rewrite Hlog in Hlog'. apply app_inv_head in Hlog'. now subst L'.
  - injection Hrun as <-. rewrite Interrupt_Next. split; [reflexivity |].
    unfold ids. rewrite Interrupt_receivers. split; [auto |].
    destruct (Interrupt_log w) as (o & Hlog & Ho). exists o. auto.
  - injection Hrun as <-. split; [reflexivity |].
    rewrite Pause_ids. split; [auto |].
    destruct (Pause_log (Handles w h) w) as (o & Hlog & Ho). exists o. auto.
  - injection Hrun as <-. split; [reflexivity |].
    rewrite Resume_ids. split; [auto |].
    destruct (Resume_log (Handles w h) w) as (o & Hlog & Ho). exists o. auto.
  - injection Hrun as <-. simpl. rewrite Remove_Next. split; [reflexivity |].
    split.
    + unfold ids. simpl.
      destruct (Remove_receivers (Handles w h) w) as [-> | ->]; [| auto].
      split; [apply erase_NoDup | intros id; apply erase_ids_incl].
    + destruct (Remove_log (Handles w h) w) as (o & Hlog & Ho). exists o. auto.
  - injection Hrun as <-. split; [reflexivity |]. split; [auto |].
    exists []. simpl. rewrite app_nil_r. split; [reflexivity |].
    intros x _. constructor.
Qed.

(** While the counter does not wrap and the registrations are those of
    the client program, the identities stay distinct, nonzero and below
    the counter, and the counter counts the registrations. *)
Lemma run_ops_identities_ok (ops : list (Op EventType_)) : forall w w',
  State w = Waiting -> identities_ok w ->
  callbacks_avoid is_Register (ReceiversContainer w) ->
  program_avoids is_Register ops ->
  NextReceiverIndex w + Z.of_nat (registrations ops) <= SIZE_MAX ->
  run_ops ops w = Some w' ->
  identities_ok w' /\
  NextReceiverIndex w' = NextReceiverIndex w + Z.of_nat (registrations ops).
Proof.
  induction ops as [| op rest IH]; intros w w' Hw Hok Hav Hpa Hb Hrun;
    simpl in Hrun.
  - injection Hrun as <-. unfold registrations. simpl. split; [exact Hok | lia].
  - destruct (run_op op w) as [w1 |] eqn:Hop; [| discriminate].
    destruct (program_avoids_cons _ _ _ Hpa) as [Hpa1 Hpa2].
    pose proof (run_op_Register_free op w w1 Hw Hav Hpa1 Hop) as Hav1.
    destruct (run_op_effect op w w1 Hw Hav Hop) as (Hn & Hids & _).
    pose proof (run_op_Waiting op w w1 Hw Hop) as Hw1.
    rewrite registrations_cons in Hb |- *.
    destruct Hok as (Hnd & Hrange & Hnext).
    destruct (is_Receive op).
    + assert (Hwrap : wrap (NextReceiverIndex w + 1) = NextReceiverIndex w + 1).
      { apply wrap_succ_small. lia. }
      rewrite Hwrap in Hn.
      destruct (IH w1 w' Hw1) as (Hok' & Hn'); auto.
      * split; [| split].
        -- rewrite Hids. apply NoDup_snoc; [exact Hnd |].
           intros Hin. apply Hrange in Hin. lia.
        -- intros id. rewrite Hids, in_app_iff. simpl.
           intros [Hin | [<- | []]]; [apply Hrange in Hin |]; lia.
        -- unfold SIZE_MAX in Hb. lia.
      * lia.
      * split; [exact Hok' | lia].
    + destruct Hids as (Hnd1 & Hincl).
      destruct (IH w1 w' Hw1) as (Hok' & Hn'); auto.
      * split; [auto | split].
        -- intros id Hin. rewrite Hn. auto.
        -- now rewrite Hn.
      * now rewrite Hn.
      * split; [exact Hok' | lia].
Qed.

(** An identity that is not in the list and lies below the counter is not
    invoked again while the counter does not wrap. *)
Lemma run_ops_absent (x : ReceiverIndex_) (ops : list (Op EventType_)) :
  forall w w',
  State w = Waiting -> ~ In x (ids w) ->
  x < NextReceiverIndex w -> 0 <= NextReceiverIndex w ->
  callbacks_avoid is_Register (ReceiversContainer w) ->
  program_avoids is_Register ops ->
  NextReceiverIndex w + Z.of_nat (registrations ops) <= SIZE_MAX ->
  run_ops ops w = Some w' ->
  exists L, Log w' = Log w ++ L /\
            Forall (fun i => Index (fst i) <> x) (invocations L) /\
            ~ In x (ids w').
Proof.
  induction ops as [| op rest IH]; intros w w' Hw Hx Hlt Hpos Hav Hpa Hb Hrun;
    simpl in Hrun.
  - injection Hrun as <-. exists []. rewrite app_nil_r.
    split; [reflexivity | split; [constructor | exact Hx]].
  - destruct (run_op op w) as [w1 |] eqn:Hop; [| discriminate].
    destruct (program_avoids_cons _ _ _ Hpa) as [Hpa1 Hpa2].
    pose proof (run_op_Register_free op w w1 Hw Hav Hpa1 Hop) as Hav1.
    destruct (run_op_effect op w w1 Hw Hav Hop) as (Hn & Hids & L1 & Hlog1 & HL1).
    pose proof (run_op_Waiting op w w1 Hw Hop) as Hw1.
    rewrite registrations_cons in Hb.
    assert (Hstep : ~ In x (ids w1) /\ x < NextReceiverIndex w1 /\
                    0 <= NextReceiverIndex w1 /\
                    NextReceiverIndex w1 + Z.of_nat (registrations rest)
                      <= SIZE_MAX).
    { destruct (is_Receive op).
      - assert (Hwrap : wrap (NextReceiverIndex w + 1) =
                        NextReceiverIndex w + 1).
        { apply wrap_succ_small. lia. }
        rewrite Hwrap in Hn. rewrite Hids, in_app_iff. simpl.
        split; [intros [H | [H | []]]; [auto | lia] | lia].
      - destruct Hids as (_ & Hincl). rewrite Hn.
        split; [auto | lia]. }
    destruct Hstep as (Hx1 & Hlt1 & Hpos1 & Hb1).
    destruct (IH w1 w' Hw1 Hx1 Hlt1 Hpos1 Hav1 Hpa2 Hb1 Hrun)
      as (L & Hlog & HL & Hx').
    exists (L1 ++ L). split; [now rewrite Hlog, Hlog1, app_assoc |].
    split; [| exact Hx'].
    rewrite invocations_app. apply Forall_app. split; auto.
Qed.

(** ** The identity counter *)

Lemma run_ops_app (ops1 ops2 : list (Op EventType_)) w :
  run_ops (ops1 ++ ops2) w =
  match run_ops ops1 w with
  | Some w1 => run_ops ops2 w1
  | None => None
  end.
Proof.
  revert w. induction ops1 as [| op t IH]; intros w; simpl; [reflexivity |].
  destruct (run_op op w); [apply IH | reflexivity].
Qed.

Lemma find_if_snoc (q : ReceiverData_ EventType_ -> bool) l x :
  (forall r, In r l -> q r = false) -> q x = true ->
  find_if q (l ++ [x]) = length l.
Proof.
  intros Hl Hx. induction l as [| y t IH]; simpl.
  - now rewrite Hx.
  - rewrite (Hl y) by (now left). f_equal. apply IH.
    intros r Hr. apply Hl. now right.
Qed.

Lemma erase_snoc l x : erase (length l) (l ++ [x]) = l.
Proof. induction l as [| y t IH]; simpl; [reflexivity | now rewrite IH]. Qed.

(** One round of [churn] on a channel that holds no entry under the
    current value of the counter. *)
Lemma churn_round w :
  is_size_t (NextReceiverIndex w) ->
  ~ In (NextReceiverIndex w) (ids w) ->
  exists w2,
    run_ops [OpReceive [] O; OpRemove O] w = Some w2 /\
    State w2 = State w /\
    ReceiversContainer w2 = ReceiversContainer w /\
    NextReceiverIndex w2 = wrap (NextReceiverIndex w + 1) /\
    Log w2 = Log w /\
    Capacity w2 =
      emplace_capacity (length (ReceiversContainer w)) (Capacity w) /\
    forall k, Handles w2 k =
              if Nat.eqb k O then Subscription_default else Handles w k.
Proof.
  intros Hn Hnin. destruct w as [st n l c h lg].
  cbn [NextReceiverIndex] in Hn. unfold ids in Hnin.
  cbn [NextReceiverIndex ReceiversContainer] in Hnin.
  eexists. split; [reflexivity |].
  cbn -[wrap emplace_capacity]. rewrite (wrap_succ_pred n Hn).
  unfold Remove. cbn -[wrap find_if erase emplace_capacity].
  rewrite find_if_snoc.
  - rewrite length_app. cbn [length].
    replace (Nat.eqb (length l) (length l + 1)) with false
      by (symmetry; apply Nat.eqb_neq; lia).
    cbn -[wrap erase emplace_capacity]. rewrite erase_snoc, !app_nil_r.
    repeat split.
    intros [| k]; reflexivity.
  - intros r Hr. apply Z.eqb_neq. intros Heq. apply Hnin.
    rewrite <- Heq. now apply in_map.
  - apply Z.eqb_refl.
Qed.

Lemma churn_run (n : nat) : forall w,
  is_size_t (NextReceiverIndex w) ->
  (forall k, (k < n)%nat ->
     ~ In (wrap (NextReceiverIndex w + Z.of_nat k)) (ids w)) ->
  exists w',
    run_ops (churn n) w = Some w' /\
    State w' = State w /\
    ReceiversContainer w' = ReceiversContainer w /\
    NextReceiverIndex w' = wrap (NextReceiverIndex w + Z.of_nat n) /\
    Log w' = Log w /\
    (forall k, k <> O -> Handles w' k = Handles w k) /\
    (Handles w O = Subscription_default ->
     Handles w' O = Subscription_default) /\
    ((length (ReceiversContainer w) < Capacity w)%nat ->
     Capacity w' = Capacity w).
Proof.
  induction n as [| n IH]; intros w Hn Hfresh.
  - exists w. simpl. rewrite Z.add_0_r, (wrap_small _ Hn). repeat split; auto.
  - destruct (churn_round w Hn)
      as (w2 & Hrun2 & Hs2 & Hl2 & Hn2 & Hlog2 & Hc2 & Hh2).
    { specialize (Hfresh O (Nat.lt_0_succ n)). simpl in Hfresh.
      now rewrite Z.add_0_r, (wrap_small _ Hn) in Hfresh. }
    destruct (IH w2) as (w' & Hrun & Hs & Hl' & Hn' & Hlog & Hh' & Hh0 & Hc').
    + rewrite Hn2. apply wrap_is_size_t.
    + intros k Hk. unfold ids. rewrite Hl2, Hn2. fold (ids w).
      replace (wrap (wrap (NextReceiverIndex w + 1) + Z.of_nat k))
        with (wrap (NextReceiverIndex w + Z.of_nat (S k))).
      * apply Hfresh. lia.
      * unfold wrap. rewrite Zplus_mod_idemp_l. f_equal. lia.
    + exists w'.
      change (churn (EventType_ := EventType_) (S n))
        with ([OpReceive (EventType_ := EventType_) [] O; OpRemove O]
                ++ churn n).
      rewrite run_ops_app, Hrun2, Hrun.
      split; [reflexivity |]. split; [congruence |]. split; [congruence |].
      split.
      { rewrite Hn', Hn2. unfold wrap. rewrite Zplus_mod_idemp_l.
        f_equal. lia. }
      split; [congruence |]. split; [| split].
      * intros k Hk. rewrite (Hh' k Hk), Hh2.
        destruct k; [contradiction | reflexivity].
      * intros _. apply Hh0. now rewrite Hh2.
      * intros Hroom.
        assert (Hc : Capacity w2 = Capacity w).
        { rewrite Hc2. unfold emplace_capacity.
          apply Nat.ltb_lt in Hroom. now rewrite Hroom. }
        rewrite Hc', Hc; [reflexivity |]. rewrite Hl2, Hc. exact Hroom.
Qed.

(** Every value of the counter is reached by a client program. *)
Lemma counter_reachable (n : nat) :
  exists w,
    run_ops (churn n) (initial EventType_) = Some w /\
    State w = Waiting /\ ReceiversContainer w = [] /\
    NextReceiverIndex w = wrap (1 + Z.of_nat n) /\
    Log w = [] /\
    (forall k, Handles w k = Subscription_default) /\
    Capacity w = match n with O => O | S _ => 1%nat end.
Proof.
  destruct (churn_run n (initial EventType_))
    as (w & H1 & H2 & H3 & H4 & H5 & H6 & H7 & _).
  - unfold is_size_t. simpl. rewrite SIZE_MOD_value. lia.
  - intros k _ [].
  - exists w. split; [exact H1 |]. split; [exact H2 |]. split; [exact H3 |].
    split; [exact H4 |]. split; [exact H5 |].
    split; [intros [| k]; [now apply H7 | now rewrite H6] |].
    destruct n as [| m]; [simpl in H1; now injection H1 as <- |].
    change (churn (EventType_ := EventType_) (S m))
      with ([OpReceive (EventType_ := EventType_) [] O; OpRemove O]
              ++ churn m) in H1.
    rewrite run_ops_app in H1.
    destruct (churn_round (initial EventType_))
      as (w2 & Hrun2 & _ & Hl2 & Hn2 & _ & Hc2 & _).
    { unfold is_size_t. simpl. rewrite SIZE_MOD_value. lia. }
    { intros []. }
    rewrite Hrun2 in H1.
    destruct (churn_run m w2) as (w3 & Hrun3 & _ & _ & _ & _ & _ & _ & Hc3).
    { rewrite Hn2. apply wrap_is_size_t. }
    { intros k _. unfold ids. rewrite Hl2. intros []. }
    rewrite Hrun3 in H1. injection H1 as <-.
    rewrite Hc3; [rewrite Hc2; reflexivity |]. rewrite Hl2, Hc2. cbv. lia.
Qed.

(** A receiver registered first survives [n] rounds of [churn] when the
    counter does not come back to its identity before the last round. *)
Lemma survivor_after (n : nat) :
  Z.of_nat n = SIZE_MAX ->
  exists w,
    run_ops (OpReceive [] 1%nat :: churn n) (initial EventType_) = Some w /\
    State w = Waiting /\
    ReceiversContainer w = [mkReceiverData_ Active 1 []] /\
    NextReceiverIndex w = 1 /\ Log w = [] /\
    (forall k, Handles w k =
               if Nat.eqb k 1 then mkSubscription_ 1 else Subscription_default) /\
    Capacity w = 2%nat.
Proof.
  intros Hn.
  set (wA := set_Handle 1 (fst (Receive [] (initial EventType_)))
                          (snd (Receive [] (initial EventType_)))).
  assert (HszA : is_size_t (NextReceiverIndex wA)).
  { unfold is_size_t. rewrite SIZE_MOD_value. cbv. split; congruence. }
  destruct (churn_run n wA) as (w & H1 & H2 & H3 & H4 & H5 & H6 & H7 & _).
  - unfold is_size_t. rewrite SIZE_MOD_value. cbv. split; congruence.
  - intros k Hk.
    assert (Hk' : 0 <= Z.of_nat k < SIZE_MAX) by lia.
    change (ids wA) with [1]. change (NextReceiverIndex wA) with 2.
    intros [Heq | []].
    destruct (Z.eq_dec (Z.of_nat k) (SIZE_MAX - 1)) as [Hm | Hm].
    + rewrite Hm in Heq. discriminate Heq.
    + rewrite wrap_small in Heq; [lia |].
      unfold is_size_t, SIZE_MAX in *. lia.
  - exists w.
    split; [exact H1 |]. split; [exact H2 |]. split; [exact H3 |].
    split; [rewrite H4, Hn; reflexivity |].
    split; [exact H5 |].
    split.
    { intros [| k]; [now apply H7 |]. rewrite H6 by discriminate.
      destruct k as [| k]; reflexivity. }
    destruct n as [| m].
    { exfalso. unfold SIZE_MAX in Hn. rewrite SIZE_MOD_value in Hn.
      simpl in Hn. lia. }
    change (churn (EventType_ := EventType_) (S m))
      with ([OpReceive (EventType_ := EventType_) [] O; OpRemove O]
              ++ churn m) in H1.
    rewrite run_ops_app in H1.
    destruct (churn_round wA HszA)
      as (w2 & Hrun2 & _ & Hl2 & Hn2 & _ & Hc2 & _).
    { change (ids wA) with [1]. change (NextReceiverIndex wA) with 2.
      intros [Heq | []]. discriminate Heq. }
    rewrite Hrun2 in H1.
    change (ReceiversContainer wA) with [mkReceiverData_ (EventType_ := EventType_) Active 1 []] in Hl2, Hc2.
    change (Capacity wA) with 1%nat in Hc2.
    change (emplace_capacity (length [mkReceiverData_ (EventType_ := EventType_) Active 1 []]) 1)
      with 2%nat in Hc2.
    destruct (churn_run m w2) as (w3 & Hrun3 & _ & _ & _ & _ & _ & _ & Hc3).
    { rewrite Hn2. apply wrap_is_size_t. }
    { intros k Hk. unfold ids. rewrite Hl2, Hn2.
      change (NextReceiverIndex wA) with 2. cbn [map Index].
      intros [Heq | []].
      assert (Hk' : 0 <= Z.of_nat k < SIZE_MAX - 1) by lia.
      change (wrap (2 + 1)) with 3 in Heq.
      destruct (Z.eq_dec (Z.of_nat k) (SIZE_MAX - 2)) as [Hm | Hm].
      - rewrite Hm in Heq. discriminate Heq.
      - rewrite wrap_small in Heq; [lia |].
        unfold is_size_t, SIZE_MAX in *. lia. }
    rewrite Hrun3 in H1. injection H1 as <-.
    rewrite Hc3; [exact Hc2 |]. rewrite Hl2, Hc2. simpl. lia.
Qed.

Lemma survivor_reachable :
  exists (ops : list (Op EventType_)) w,
    run_ops ops (initial EventType_) = Some w /\
    State w = Waiting /\
    ReceiversContainer w = [mkReceiverData_ Active 1 []] /\
    NextReceiverIndex w = 1 /\ Log w = [] /\
    (forall k, Handles w k =
               if Nat.eqb k 1 then mkSubscription_ 1 else Subscription_default) /\
    Capacity w = 2%nat.
Proof.
  assert (Hn : Z.of_nat (Z.to_nat SIZE_MAX) = SIZE_MAX).
  { apply Z2Nat.id. unfold SIZE_MAX. rewrite SIZE_MOD_value. lia. }
  destruct (survivor_after (Z.to_nat SIZE_MAX) Hn) as (w & H).
  eexists. exists w. exact H.
Qed.


Lemma initial_identities_ok : identities_ok (initial EventType_).
Proof.
  split; [constructor | split].
  - intros id [].
  - simpl. rewrite SIZE_MOD_value. lia.
Qed.

Lemma initial_avoids (p : Action EventType_ -> bool) :
  callbacks_avoid p (ReceiversContainer (initial EventType_)).
Proof. intros r a []. Qed.


Lemma counter_value_reachable (v : Z) :
  is_size_t v ->
  exists (ops : list (Op EventType_)) w,
    run_ops ops (initial EventType_) = Some w /\
    State w = Waiting /\ ReceiversContainer w = [] /\
    NextReceiverIndex w = v /\ Log w = [] /\
    (forall k, Handles w k = Subscription_default) /\
    Capacity w = if v =? 1 then O else 1%nat.
Proof.
  intros Hv.
  assert (Hpos : 0 <= (v - 1) mod SIZE_MOD).
  { apply Z.mod_pos_bound. rewrite SIZE_MOD_value. lia. }
  destruct (counter_reachable (Z.to_nat ((v - 1) mod SIZE_MOD)))
    as (w & H1 & H2 & H3 & H4 & H5 & H6 & H7).
  eexists _, w. split; [exact H1 |]. split; [exact H2 |]. split; [exact H3 |].
  split; [| split; [exact H5 | split; [exact H6 |]]].
  - rewrite H4. rewrite Z2Nat.id by exact Hpos.
    unfold wrap. rewrite Zplus_mod_idemp_r.
    replace (1 + (v - 1)) with v by lia. apply Z.mod_small. exact Hv.
  - rewrite H7. unfold is_size_t in Hv. rewrite SIZE_MOD_value in Hv.
    destruct (Z.eqb_spec v 1) as [-> | Hne].
    + reflexivity.
    + destruct (Z.to_nat ((v - 1) mod SIZE_MOD)) as [| m] eqn:Hm;
        [| reflexivity].
      exfalso.
      assert (Hz : (v - 1) mod SIZE_MOD = 0) by lia.
      destruct (Z.eq_dec v 0) as [-> | Hv0].
      * discriminate Hz.
      * rewrite Z.mod_small in Hz; [lia |]. rewrite SIZE_MOD_value. lia.
Qed.

(** *** Handles across a dispatch *)

Lemma Send_keeps_Handles (fuel : nat) e w w' e' :
  State w = Waiting ->
  callbacks_avoid resizes (ReceiversContainer w) ->
  Send (S fuel) e w = Done w' e' ->
  Handles w' = Handles w.
Proof.
  intros Hw Hav Hd.
  rewrite (Send_Waiting fuel e w Hw) in Hd. unfold Send_body in Hd.
  destruct (Send_loop_inv (Send fuel) (Send_guard fuel) resizes
              (fun y : World EventType_ =>
                 Handles y = Handles w /\
                 callbacks_avoid resizes (ReceiversContainer y))
              (fun _ => True)) with
    (steps := length (ReceiversContainer (set_State Sending w)))
    (it := O) (e := e) (w := set_State Sending w)
    as (w2 & e2 & L & Hout & (HI & _) & _).
  - intros y o H. exact H.
  - intros a e1 y y' e1' Hp [H1 H2] Hm Hrun. split.
    + rewrite <- H1.
      destruct a as [g | | e0 | h | h | h | f0 dst]; simpl in Hrun;
        try discriminate Hp.
      * now injection Hrun as <- <-.
      * injection Hrun as <- <-. apply Interrupt_Handles.
      * rewrite (Send_guard fuel e0 y Hm) in Hrun. now injection Hrun as <- <-.
      * now injection Hrun as <- <-.
      * now injection Hrun as <- <-.
    + eapply run_action_avoid; eauto;
        [apply Send_guard | now apply resizes_Register].
  - intros y [_ H]. exact H.
  - auto.
  - split; [reflexivity | exact Hav].
  - simpl. discriminate.
  - destruct Hout as [Hout | Hout]; rewrite Hout in Hd; [| discriminate].
    injection Hd as <- <-. exact HI.
Qed.

Lemma Remove_found s w :
  In (ReceiverIndex s) (ids w) ->
  find_if (fun r => Index r =? ReceiverIndex s) (ReceiversContainer w)
    <> length (ReceiversContainer w).
Proof.
  intros Hin Heq. unfold ids in Hin. apply in_map_iff in Hin.
  destruct Hin as (r & Hr & Hin).
  pose proof (find_if_End _ _ Heq r Hin) as H. simpl in H.
  rewrite Hr, Z.eqb_refl in H. discriminate.
Qed.

Lemma Remove_not_found s w :
  ~ In (ReceiverIndex s) (ids w) ->
  Remove s w = (s, emit [AssertFailed AtRemove] w).
Proof.
  intros Hnin. unfold Remove.
  rewrite find_if_none.
  - now rewrite Nat.eqb_refl.
  - intros r Hr. apply Z.eqb_neq. intros Heq. apply Hnin.
    unfold ids. rewrite <- Heq. now apply in_map.
Qed.

Lemma Remove_success s w :
  In (ReceiverIndex s) (ids w) ->
  Remove s w =
    (mkSubscription_ 0,
     set_Receivers
       (erase (find_if (fun r => Index r =? ReceiverIndex s)
                       (ReceiversContainer w))
              (ReceiversContainer w))
       (emit [] w)).
Proof.
  intros Hin. unfold Remove.
  apply Remove_found in Hin. apply Nat.eqb_neq in Hin. rewrite Hin.
  reflexivity.
Qed.

(** C9 (amended).  [IsValid] is the test [ReceiverIndex != 0] on the
    handle alone.  It is false on a default-constructed handle; the handle
    returned by [Receive] holds the value the counter had, so it is valid
    whenever that value is not 0; [Pause], [Resume], [Interrupt] and a
    dispatch whose callbacks remove and register nothing write no handle;
    a [Remove] that finds the entry sets the handle to 0, one that does
    not leaves the handle as it was. *)
Theorem IsValid_tracks_bound_identity s w f :
  is_size_t (NextReceiverIndex w) ->
  (IsValid s = true <-> ReceiverIndex s <> 0) /\
  IsValid Subscription_default = false /\
  fst (Receive f w) = mkSubscription_ (NextReceiverIndex w) /\
  (NextReceiverIndex w <> 0 -> IsValid (fst (Receive f w)) = true) /\
  Handles (Pause s w) = Handles w /\
  Handles (Resume s w) = Handles w /\
  Handles (Interrupt w) = Handles w /\
  (forall fuel e w' e',
     State w = Waiting ->
     callbacks_avoid resizes (ReceiversContainer w) ->
     Send (S fuel) e w = Done w' e' -> Handles w' = Handles w) /\
  (In (ReceiverIndex s) (ids w) -> IsValid (fst (Remove s w)) = false) /\
  (~ In (ReceiverIndex s) (ids w) -> fst (Remove s w) = s).
Proof.
  intros Hsz.
  assert (Hh : fst (Receive f w) = mkSubscription_ (NextReceiverIndex w)).
  { unfold Receive. cbn [fst]. now rewrite (wrap_succ_pred _ Hsz). }
  split.
  { unfold IsValid. destruct (Z.eqb_spec (ReceiverIndex s) 0); simpl;
      split; congruence. }
  split; [reflexivity |]. split; [exact Hh |]. split.
  { intros Hne. rewrite Hh. unfold IsValid. cbn [ReceiverIndex].
    destruct (Z.eqb_spec (NextReceiverIndex w) 0); [contradiction | reflexivity]. }
  split; [reflexivity |]. split; [reflexivity |].
  split; [apply Interrupt_Handles |].
  split; [intros fuel e w' e'; apply Send_keeps_Handles |].
  split.
  - intros Hin. now rewrite (Remove_success s w Hin).
  - intros Hnin. now rewrite (Remove_not_found s w Hnin).
Qed.

(** ** Handles and their entries *)

Lemma NoDup_Index_inj l r1 r2 :
  NoDup (map Index l) -> In r1 l -> In r2 l -> Index r1 = Index r2 -> r1 = r2.
Proof.
  induction l as [| x t IH]; simpl; intros Hnd H1 H2 Heq; [contradiction |].
  inversion Hnd as [| ? ? Hx Ht]; subst.
  destruct H1 as [<- | H1], H2 as [<- | H2]; auto.
  - exfalso. apply Hx. rewrite Heq. now apply in_map.
  - exfalso. apply Hx. rewrite <- Heq. now apply in_map.
Qed.


Lemma NoDup_split_Index l1 r l2 :
  NoDup (map Index (l1 ++ r :: l2)) ->
  (forall x, In x l1 -> Index x <> Index r) /\
  (forall x, In x l2 -> Index x <> Index r) /\
  ~ In (Index r) (map Index (l1 ++ l2)).
Proof.
  intros Hnd.
  assert (Hnin : ~ In (Index r) (map Index (l1 ++ l2))).
  { rewrite map_app in *. simpl in Hnd. now apply NoDup_remove_2 in Hnd. }
  split; [| split; [| exact Hnin]].
  - intros x Hx Heq. apply Hnin. rewrite <- Heq. apply in_map.
    apply in_or_app. now left.
  - intros x Hx Heq. apply Hnin. rewrite <- Heq. apply in_map.
    apply in_or_app. now right.
Qed.

Lemma Remove_bound_split s w r :
  NoDup (ids w) ->
  In r (ReceiversContainer w) -> Index r = ReceiverIndex s ->
  (exists l1 l2,
     ReceiversContainer w = l1 ++ r :: l2 /\
     ReceiversContainer (snd (Remove s w)) = l1 ++ l2) /\
  ~ In (ReceiverIndex s) (ids (snd (Remove s w))).
Proof.
  intros Hnd Hin Hidx.
  assert (Hid : In (ReceiverIndex s) (ids w)).
  { unfold ids. rewrite <- Hidx. now apply in_map. }
  pose proof (Remove_success s w Hid) as Hrem.
  destruct (find_if_erase (fun x => Index x =? ReceiverIndex s)
              (ReceiversContainer w) (Remove_found s w Hid))
    as (l1 & r' & l2 & Hl & Hr' & Hl1 & _ & Her).
  apply Z.eqb_eq in Hr'.
  assert (Hrr : r' = r).
  { apply (NoDup_Index_inj (ReceiversContainer w)); auto; [| congruence].
    rewrite Hl. apply in_or_app. right. now left. }
  subst r'.
  assert (Hrec : ReceiversContainer (snd (Remove s w)) = l1 ++ l2).
  { rewrite Hrem. simpl. exact Her. }
  split; [exists l1, l2; auto |].
  unfold ids. rewrite Hrec, <- Hidx.
  unfold ids in Hnd. rewrite Hl in Hnd. now apply NoDup_split_Index in Hnd.
Qed.

(** C7.  On a channel whose identities are distinct, nonzero and below
    the counter, [Remove] through a handle bound to the entry [r] erases
    that entry and nothing else, and sets the handle to 0; no assertion
    fails.  From then on, while the counter does not wrap, no top-level
    program makes a [Send] enter a callback registered under that
    identity; the registrations counted are those of the program, the
    callbacks registering nothing themselves.  A second [Remove] through
    the same handle fails its assertion and leaves the handle and the
    channel as they were. *)
Theorem Remove_erases_bound_entry s w r :
  identities_ok w ->
  In r (ReceiversContainer w) -> Index r = ReceiverIndex s ->
  fst (Remove s w) = mkSubscription_ 0 /\
  (exists l1 l2,
     ReceiversContainer w = l1 ++ r :: l2 /\
     ReceiversContainer (snd (Remove s w)) = l1 ++ l2) /\
  ~ In (ReceiverIndex s) (ids (snd (Remove s w))) /\
  violations (Log (snd (Remove s w))) = violations (Log w) /\
  State (snd (Remove s w)) = State w /\
  NextReceiverIndex (snd (Remove s w)) = NextReceiverIndex w /\
  (State w = Waiting ->
   callbacks_avoid is_Register (ReceiversContainer w) ->
   forall ops w',
     program_avoids is_Register ops ->
     NextReceiverIndex w + Z.of_nat (registrations ops) <= SIZE_MAX ->
     run_ops ops (snd (Remove s w)) = Some w' ->
     exists L,
       Log w' = Log (snd (Remove s w)) ++ L /\
       Forall (fun i => Index (fst i) <> ReceiverIndex s) (invocations L)) /\
  fst (Remove (fst (Remove s w)) (snd (Remove s w))) = fst (Remove s w) /\
  channel (snd (Remove (fst (Remove s w)) (snd (Remove s w)))) =
    channel (snd (Remove s w)) /\
  Log (snd (Remove (fst (Remove s w)) (snd (Remove s w)))) =
    Log (snd (Remove s w)) ++ [AssertFailed AtRemove].
Proof.
  intros (Hnd & Hrange & Hnext) Hin Hidx.
  assert (Hid : In (ReceiverIndex s) (ids w)).
  { unfold ids. rewrite <- Hidx. now apply in_map. }
  pose proof (Remove_success s w Hid) as Hrem.
  destruct (Remove_bound_split s w r Hnd Hin Hidx)
    as ((l1 & l2 & Hl & Hrec) & Habs).
  assert (Hsub : forall id, In id (ids (snd (Remove s w))) -> In id (ids w)).
  { intros id. unfold ids. rewrite Hrec, Hl, !map_app, !in_app_iff. simpl.
    tauto. }
  split; [now rewrite Hrem |].
  split; [exists l1, l2; auto |].
  split; [exact Habs |].
  split; [rewrite Hrem; simpl; now rewrite app_nil_r |].
  split; [apply Remove_State |].
  split; [apply Remove_Next |].
  split.
  { intros Hw Hav ops w' Hpa Hb Hrun.
    destruct (run_ops_absent (ReceiverIndex s) ops (snd (Remove s w)) w')
      as (L & HL1 & HL2 & _); auto.
    - now rewrite Remove_State.
    - rewrite Remove_Next. now apply Hrange.
    - rewrite Remove_Next. lia.
    - intros x a Hx Ha. apply Remove_In in Hx. exact (Hav x a Hx Ha).
    - now rewrite Remove_Next.
    - exists L. auto. }
  assert (Hzero : ~ In (ReceiverIndex (fst (Remove s w)))
                       (ids (snd (Remove s w)))).
  { rewrite Hrem at 1. cbn [fst ReceiverIndex]. intros H0.
    apply Hsub, Hrange in H0. lia. }
  rewrite (Remove_not_found _ _ Hzero). repeat split.
Qed.

(** C10.  A handle is valid or not by the identity it stores.  After a
    handle variable is copied and the entry is removed through the
    original, the original holds 0 and the copy still holds the identity
    and is valid, although no entry carries that identity; [Pause] and
    [Resume] through the copy find no entry and change nothing in the
    channel. *)
Theorem stale_copy_stays_valid (h c : nat) w :
  h <> c -> identities_ok w ->
  In (ReceiverIndex (Handles w h)) (ids w) ->
  exists w1,
    run_ops [OpCopy h c; OpRemove h] w = Some w1 /\
    IsValid (Handles w1 h) = false /\
    Handles w1 c = Handles w h /\
    IsValid (Handles w1 c) = true /\
    ~ In (ReceiverIndex (Handles w1 c)) (ids w1) /\
    channel (Pause (Handles w1 c) w1) = channel w1 /\
    channel (Resume (Handles w1 c) w1) = channel w1 /\
    violations (Log (Pause (Handles w1 c) w1)) = violations (Log w1) /\
    violations (Log (Resume (Handles w1 c) w1)) = violations (Log w1).
Proof.
  intros Hhc (Hnd & Hrange & Hnext) Hin.
  set (s := Handles w h) in *.
  set (w0 := set_Handle c s w).
  assert (Hs0 : Handles w0 h = s).
  { unfold w0. simpl. apply Nat.eqb_neq in Hhc. now rewrite Hhc. }
  assert (Hin0 : In (ReceiverIndex s) (ids w0)) by exact Hin.
  pose proof (Remove_success s w0 Hin0) as Hrem.
  unfold ids in Hin. apply in_map_iff in Hin. destruct Hin as (r & Hr & Hin).
  destruct (Remove_bound_split s w0 r Hnd Hin Hr) as (Hrec & Habs).
  exists (set_Handle h (fst (Remove s w0)) (snd (Remove s w0))).
  assert (Hc : Handles (set_Handle h (fst (Remove s w0)) (snd (Remove s w0))) c
               = s).
  { simpl. assert (Hch : Nat.eqb c h = false) by (apply Nat.eqb_neq; auto).
    rewrite Hch, Remove_Handles. unfold w0. simpl. now rewrite Nat.eqb_refl. }
  split.
  { cbn [run_ops run_op]. change (Handles w h) with s.
    change (set_Handle c s w) with w0. now rewrite Hs0. }
  split.
  { simpl. rewrite Nat.eqb_refl. now rewrite Hrem. }
  split; [exact Hc |]. rewrite Hc.
  split.
  { unfold IsValid. destruct (Z.eqb_spec (ReceiverIndex s) 0) as [H0 | H0];
      [| reflexivity].
    assert (Hi : In (ReceiverIndex s) (ids w)).
    { unfold ids. rewrite <- Hr. now apply in_map. }
    apply Hrange in Hi. lia. }
  split; [exact Habs |].
  assert (Hp : forall act,
             ForThis_in (ReceiverIndex s) act
               (ReceiversContainer (snd (Remove s w0))) =
             (ReceiversContainer (snd (Remove s w0)), [])).
  { intros act. apply ForThis_in_absent. exact Habs. }
  unfold channel, Pause, Resume, ForThis. cbn -[Remove ForThis_in].
  rewrite !Hp. cbn -[Remove]. rewrite !app_nil_r. repeat split.
Qed.

(** ** Pause and Resume seen through Send *)

Lemma expected_invocations_app l1 l2 e :
  expected_invocations (l1 ++ l2) e =
  expected_invocations l1 e ++ expected_invocations l2 (expected_event l1 e).
Proof.
  revert e. induction l1 as [| x t IH]; intros e; simpl; [reflexivity |].
  destruct (RState x); simpl; now rewrite IH.
Qed.




(** * Further properties of the handle operations *)

Lemma ForThis_in_nth_other (id : ReceiverIndex_)
    (InAction : ReceiverData_ EventType_ ->
                ReceiverData_ EventType_ * list (Obs EventType_)) l :
  forall (n : nat) r,
    nth_error l n = Some r -> Index r <> id ->
    nth_error (fst (ForThis_in id InAction l)) n = Some r.
Proof.
  induction l as [| x t IH]; intros [| n] r Hn Hne; simpl in *;
    try discriminate.
  - injection Hn as ->. apply Z.eqb_neq in Hne. now rewrite Hne.
  - destruct (Index x =? id); simpl; [exact Hn | now apply IH].
Qed.

(** X1.  [Pause] and [Resume] write one field of at most one entry: the
    identities and the callbacks of the list, position by position, its
    length, the state, the counter and the handle variables are as
    before, and an entry under another identity keeps its place and its
    activity. *)
Theorem Pause_Resume_keep_shape s w :
  shape (Pause s w) = shape w /\
  shape (Resume s w) = shape w /\
  State (Pause s w) = State w /\
  State (Resume s w) = State w /\
  NextReceiverIndex (Pause s w) = NextReceiverIndex w /\
  NextReceiverIndex (Resume s w) = NextReceiverIndex w /\
  Handles (Pause s w) = Handles w /\
  Handles (Resume s w) = Handles w /\
  (forall (n : nat) r,
     nth_error (ReceiversContainer w) n = Some r ->
     Index r <> ReceiverIndex s ->
     nth_error (ReceiversContainer (Pause s w)) n = Some r /\
     nth_error (ReceiversContainer (Resume s w)) n = Some r).
Proof.
  split; [unfold shape; f_equal; [apply Pause_ids | apply Pause_Functions] |].
  split; [unfold shape; f_equal; [apply Resume_ids | apply Resume_Functions] |].
  do 6 (split; [reflexivity |]).
  intros n r Hn Hne. rewrite Pause_receivers, Resume_receivers.
  split; now apply ForThis_in_nth_other.
Qed.

Lemma emit_nil w : emit [] w = w.
Proof. destruct w. unfold emit. simpl. now rewrite app_nil_r. Qed.

Lemma set_Receivers_same w : set_Receivers (ReceiversContainer w) w = w.
Proof. now destruct w. Qed.

Lemma ForThis_in_round_trip (id : ReceiverIndex_) (a b : ReceiverState_) l :
  a <> b ->
  (forall r, find (fun x => Index x =? id) l = Some r -> RState r = a) ->
  ForThis_in id
    (fun r => (mkReceiverData_ b (Index r) (Function r),
               Assert (ReceiverState_eqb (RState r) a)
                      (if ReceiverState_eqb a Active then AtPause else AtResume)))
    l =
  (fst (ForThis_in id
          (fun r => (mkReceiverData_ b (Index r) (Function r),
                     Assert (ReceiverState_eqb (RState r) a)
                            (if ReceiverState_eqb a Active
                             then AtPause else AtResume))) l), []) /\
  ForThis_in id
    (fun r => (mkReceiverData_ a (Index r) (Function r),
               Assert (ReceiverState_eqb (RState r) b)
                      (if ReceiverState_eqb b Active then AtPause else AtResume)))
    (fst (ForThis_in id
            (fun r => (mkReceiverData_ b (Index r) (Function r),
                       Assert (ReceiverState_eqb (RState r) a)
                              (if ReceiverState_eqb a Active
                               then AtPause else AtResume))) l)) =
  (l, []).
Proof.
  intros Hab. induction l as [| x t IH]; intros Hfind; simpl; [auto |].
  simpl in Hfind. destruct (Index x =? id) eqn:Hx; simpl.
  - rewrite Hx. simpl.
    assert (Hs : RState x = a) by (now apply Hfind).
    destruct x as [st ix fn]. simpl in *. subst st.
    destruct a, b; simpl; try contradiction; auto.
  - rewrite Hx. destruct (IH Hfind) as [H1 H2].
    rewrite H1 at 1. simpl. rewrite H2. simpl. rewrite H1. auto.
Qed.

(** X2.  [Resume] undoes [Pause] and [Pause] undoes [Resume]: when the
    entry the handle designates - the first one under its identity - is
    active, or there is none, [Pause] followed by [Resume] gives back the
    world it started from, no assertion failing; likewise [Resume]
    followed by [Pause] when that entry is paused. *)
Theorem Resume_undoes_Pause s w :
  ((forall r,
      find (fun x => Index x =? ReceiverIndex s) (ReceiversContainer w) = Some r ->
      RState r = Active) ->
   Resume s (Pause s w) = w) /\
  ((forall r,
      find (fun x => Index x =? ReceiverIndex s) (ReceiversContainer w) = Some r ->
      RState r = Paused) ->
   Pause s (Resume s w) = w).
Proof.
  split; intros Hfind.
  - destruct (ForThis_in_round_trip (ReceiverIndex s) Active Paused
                (ReceiversContainer w)) as [H1 H2]; [discriminate | exact Hfind |].
    simpl in H1, H2.
    unfold Resume, Pause, ForThis. cbn -[ForThis_in].
    rewrite H1. cbn -[ForThis_in]. rewrite H2. cbn.
    destruct w. unfold emit, set_Receivers. simpl. now rewrite !app_nil_r.
  - destruct (ForThis_in_round_trip (ReceiverIndex s) Paused Active
                (ReceiversContainer w)) as [H1 H2]; [discriminate | exact Hfind |].
    simpl in H1, H2.
    unfold Resume, Pause, ForThis. cbn -[ForThis_in].
    rewrite H1. cbn -[ForThis_in]. rewrite H2. cbn.
    destruct w. unfold emit, set_Receivers. simpl. now rewrite !app_nil_r.
Qed.

Lemma ForThis_in_twice (id : ReceiverIndex_) (b : ReceiverState_)
    (site : AssertSite) (want : ReceiverState_) l :
  want <> b ->
  fst (ForThis_in id
         (fun r => (mkReceiverData_ b (Index r) (Function r),
                    Assert (ReceiverState_eqb (RState r) want) site))
         (fst (ForThis_in id
                 (fun r => (mkReceiverData_ b (Index r) (Function r),
                            Assert (ReceiverState_eqb (RState r) want) site))
                 l))) =
  fst (ForThis_in id
         (fun r => (mkReceiverData_ b (Index r) (Function r),
                    Assert (ReceiverState_eqb (RState r) want) site)) l) /\
  snd (ForThis_in id
         (fun r => (mkReceiverData_ b (Index r) (Function r),
                    Assert (ReceiverState_eqb (RState r) want) site))
         (fst (ForThis_in id
                 (fun r => (mkReceiverData_ b (Index r) (Function r),
                            Assert (ReceiverState_eqb (RState r) want) site))
                 l))) =
  if existsb (fun x => Index x =? id) l then [AssertFailed site] else [].
Proof.
  intros Hne. induction l as [| x t IH]; simpl; [auto |].
  destruct (Index x =? id) eqn:Hx; simpl; rewrite Hx; simpl.
  - split; [reflexivity |]. destruct want, b; simpl; try contradiction; auto.
  - destruct IH as [H1 H2]. now rewrite H1, H2.
Qed.

Lemma existsb_ids s w :
  existsb (fun x => Index x =? ReceiverIndex s) (ReceiversContainer w) = true <->
  In (ReceiverIndex s) (ids w).
Proof.
  rewrite existsb_exists. unfold ids. rewrite in_map_iff.
  split; intros (x & H1 & H2).
  - exists x. apply Z.eqb_eq in H2. auto.
  - exists x. split; [exact H2 |]. now apply Z.eqb_eq.
Qed.

(** X3.  A second [Pause] through the same handle leaves the receiver list
    as the first one made it; when the handle designates an entry the
    second call fails the assertion, once.  The same holds for
    [Resume]. *)
Theorem Pause_twice s w :
  ReceiversContainer (Pause s (Pause s w)) = ReceiversContainer (Pause s w) /\
  ReceiversContainer (Resume s (Resume s w)) = ReceiversContainer (Resume s w) /\
  (In (ReceiverIndex s) (ids w) ->
   Log (Pause s (Pause s w)) = Log (Pause s w) ++ [AssertFailed AtPause] /\
   Log (Resume s (Resume s w)) = Log (Resume s w) ++ [AssertFailed AtResume]).
Proof.
  destruct (ForThis_in_twice (ReceiverIndex s) Paused AtPause Active
              (ReceiversContainer w)) as [P1 P2]; [discriminate |].
  destruct (ForThis_in_twice (ReceiverIndex s) Active AtResume Paused
              (ReceiversContainer w)) as [R1 R2]; [discriminate |].
  split; [exact P1 |]. split; [exact R1 |].
  intros Hin. apply existsb_ids in Hin. rewrite Hin in P2, R2.
  split.
  - unfold Pause at 1. unfold ForThis. cbn -[ForThis_in Pause].
    rewrite Pause_receivers. now rewrite P2.
  - unfold Resume at 1. unfold ForThis. cbn -[ForThis_in Resume].
    rewrite Resume_receivers. now rewrite R2.
Qed.

(** X4.  Through a handle whose identity no entry carries - a
    default-constructed one on a channel with nonzero identities, or one
    whose entry was removed - [Pause] and [Resume] do nothing at all and
    no assertion fails, because [ForThis] never calls the action; [Remove]
    fails its assertion and changes neither the handle nor the channel. *)
Theorem operations_without_entry s w :
  ~ In (ReceiverIndex s) (ids w) ->
  Pause s w = w /\
  Resume s w = w /\
  Remove s w = (s, emit [AssertFailed AtRemove] w) /\
  (identities_ok w -> ~ In (ReceiverIndex Subscription_default) (ids w)).
Proof.
  intros Hnin.
  assert (H : forall act,
            ForThis_in (ReceiverIndex s) act (ReceiversContainer w) =
            (ReceiversContainer w, [])).
  { intros act. now apply ForThis_in_absent. }
  split; [| split; [| split]].
  - unfold Pause, ForThis. rewrite H. simpl.
    now rewrite emit_nil, set_Receivers_same.
  - unfold Resume, ForThis. rewrite H. simpl.
    now rewrite emit_nil, set_Receivers_same.
  - now apply Remove_not_found.
  - intros (_ & Hrange & _) H0. apply Hrange in H0. simpl in H0. lia.
Qed.

(** X5.  [Remove] through a handle whose identity is in the list erases
    the first entry under that identity and no other: the entries before
    and after it keep their order and their contents, the handle becomes
    0, no assertion fails, and the state, the counter and the other
    handle variables are untouched.  Nothing is assumed about the
    identities being distinct. *)
Theorem Remove_erases_first_match s w :
  In (ReceiverIndex s) (ids w) ->
  exists l1 r l2,
    ReceiversContainer w = l1 ++ r :: l2 /\
    Index r = ReceiverIndex s /\
    (forall x, In x l1 -> Index x <> ReceiverIndex s) /\
    Remove s w = (mkSubscription_ 0, set_Receivers (l1 ++ l2) w).
Proof.
  intros Hin. rewrite (Remove_success s w Hin).
  destruct (find_if_erase (fun x => Index x =? ReceiverIndex s)
              (ReceiversContainer w) (Remove_found s w Hin))
    as (l1 & r & l2 & Hl & Hr & Hl1 & _ & Her).
  exists l1, r, l2. split; [exact Hl |].
  split; [now apply Z.eqb_eq |]. split.
  - intros x Hx. apply Z.eqb_neq. now apply Hl1.
  - rewrite Her, emit_nil. reflexivity.
Qed.

(** X6.  [Receive] followed by [Remove] through the handle it returned
    gives back the receiver list, the state, the log and the handle
    variables as they were, provided no entry already carries the value
    of the counter; the identity is used up all the same: the counter has
    advanced by one and the handle is 0.  The storage that a full vector
    acquired for the entry stays. *)
Theorem Receive_then_Remove f w :
  is_size_t (NextReceiverIndex w) ->
  ~ In (NextReceiverIndex w) (ids w) ->
  Remove (fst (Receive f w)) (snd (Receive f w)) =
    (mkSubscription_ 0,
     mkWorld (State w) (wrap (NextReceiverIndex w + 1))
             (ReceiversContainer w)
             (emplace_capacity (length (ReceiversContainer w)) (Capacity w))
             (Handles w) (Log w)).
Proof.
  intros Hn Hnin. unfold Receive. cbn [fst snd].
  rewrite (wrap_succ_pred _ Hn). unfold Remove.
  cbn [ReceiversContainer ReceiverIndex].
  rewrite find_if_snoc.
  - rewrite length_app. cbn [length].
    replace (Nat.eqb (length (ReceiversContainer w))
                     (length (ReceiversContainer w) + 1)) with false
      by (symmetry; apply Nat.eqb_neq; lia).
    cbn -[wrap erase emplace_capacity]. rewrite erase_snoc.
    unfold set_Receivers, emit. cbn -[wrap emplace_capacity].
    now rewrite app_nil_r.
  - intros r Hr. apply Z.eqb_neq. intros Heq. apply Hnin.
    unfold ids. rewrite <- Heq. now apply in_map.
  - apply Z.eqb_refl.
Qed.

Lemma ForThis_in_len (id : ReceiverIndex_)
    (InAction : ReceiverData_ EventType_ ->
                ReceiverData_ EventType_ * list (Obs EventType_)) l :
  length (fst (ForThis_in id InAction l)) = length l.
Proof.
  induction l as [| x t IH]; simpl; [reflexivity |].
  destruct (Index x =? id); simpl; [reflexivity | now rewrite IH].
Qed.

Lemma ForThis_in_erase (id j : ReceiverIndex_)
    (InAction : ReceiverData_ EventType_ ->
                ReceiverData_ EventType_ * list (Obs EventType_)) l :
  id <> j ->
  (forall r, Index (fst (InAction r)) = Index r) ->
  find_if (fun r => Index r =? j) (fst (ForThis_in id InAction l)) =
    find_if (fun r => Index r =? j) l /\
  fst (ForThis_in id InAction (erase (find_if (fun r => Index r =? j) l) l)) =
    erase (find_if (fun r => Index r =? j) l) (fst (ForThis_in id InAction l)).
Proof.
  intros Hne Hkeep. induction l as [| x t [IH1 IH2]]; simpl; [auto |].
  destruct (Z.eqb_spec (Index x) j) as [Hj | Hj].
  - assert (Hi : (Index x =? id) = false) by (apply Z.eqb_neq; congruence).
    rewrite Hi. simpl. apply Z.eqb_eq in Hj. rewrite Hj. auto.
  - apply Z.eqb_neq in Hj. destruct (Index x =? id) eqn:Hi; simpl.
    + rewrite Hkeep, Hj, Hi. simpl. auto.
    + rewrite Hj, Hi. simpl. rewrite IH1, IH2. auto.
Qed.

(** X7.  A handle designates its entry by identity, so it is indifferent
    to the removal of another entry: [Pause] (or [Resume]) through one
    handle and [Remove] through a handle with a different identity give
    the same receiver list in either order, and [Remove] finds or misses
    its entry alike. *)
Theorem Pause_commutes_with_Remove s1 s2 w :
  ReceiverIndex s1 <> ReceiverIndex s2 ->
  ReceiversContainer (Pause s1 (snd (Remove s2 w))) =
    ReceiversContainer (snd (Remove s2 (Pause s1 w))) /\
  ReceiversContainer (Resume s1 (snd (Remove s2 w))) =
    ReceiversContainer (snd (Remove s2 (Resume s1 w))) /\
  fst (Remove s2 (Pause s1 w)) = fst (Remove s2 w) /\
  fst (Remove s2 (Resume s1 w)) = fst (Remove s2 w).
Proof.
  intros Hne.
  assert (G : forall act,
            (forall r, Index (fst (act r)) = Index r) ->
            ReceiversContainer (ForThis s1 act (snd (Remove s2 w))) =
              ReceiversContainer (snd (Remove s2 (ForThis s1 act w))) /\
            fst (Remove s2 (ForThis s1 act w)) = fst (Remove s2 w)).
  { intros act Hkeep.
    destruct (ForThis_in_erase (ReceiverIndex s1) (ReceiverIndex s2) act
                (ReceiversContainer w) Hne Hkeep) as [H1 H2].
    unfold Remove. cbn [ForThis ReceiversContainer emit set_Receivers].
    rewrite H1, ForThis_in_len.
    destruct (negb (Nat.eqb _ _)); cbn [fst snd ReceiversContainer emit
                                        set_Receivers ForThis];
      [split; [exact H2 | reflexivity] | split; reflexivity]. }
  destruct (G (fun r => (mkReceiverData_ Paused (Index r) (Function r),
                         Assert (ReceiverState_eqb (RState r) Active) AtPause)))
    as [P1 P2]; [reflexivity |].
  destruct (G (fun r => (mkReceiverData_ Active (Index r) (Function r),
                         Assert (ReceiverState_eqb (RState r) Paused) AtResume)))
    as [R1 R2]; [reflexivity |].
  auto.
Qed.

(** * Further properties of the dispatch *)

Lemma set_State_round_trip w :
  State w = Waiting -> set_State Waiting (set_State Sending w) = w.
Proof. destruct w. simpl. intros ->. reflexivity. Qed.

Lemma Send_loop_all_paused
    (send : EventType_ -> World EventType_ -> Outcome EventType_) steps :
  forall it e w,
    (forall r, In r (ReceiversContainer w) -> RState r = Paused) ->
    (it + steps <= length (ReceiversContainer w))%nat ->
    Send_loop send steps it e w = Done w e.
Proof.
  induction steps as [| k IH]; intros it e w Hp Hlen; simpl; [reflexivity |].
  destruct (negb (EventState_eqb (State w) Sending)); [reflexivity |].
  destruct (nth_error (ReceiversContainer w) it) as [r |] eqn:Hnth.
  2:{ apply nth_error_None in Hnth. lia. }
  rewrite (Hp r (nth_error_In _ _ Hnth)). simpl. apply IH; auto. lia.
Qed.

(** X8.  A [Send] on a waiting channel that has no active receiver - an
    empty one, or one whose receivers are all paused - returns at once:
    the world and the event are exactly as before, no callback is entered
    and no assertion fails. *)
Theorem Send_without_active_receiver (fuel : nat) e w :
  State w = Waiting ->
  (forall r, In r (ReceiversContainer w) -> RState r = Paused) ->
  Send (S fuel) e w = Done w e.
Proof.
  intros Hw Hp. rewrite (Send_Waiting fuel e w Hw). unfold Send_body.
  rewrite Send_loop_all_paused; [| exact Hp | simpl; lia].
  now rewrite set_State_round_trip.
Qed.

Lemma Send_loop_skip_paused
    (send : EventType_ -> World EventType_ -> Outcome EventType_) e w pre :
  forall done rest (k : nat),
    State w = Sending ->
    ReceiversContainer w = done ++ pre ++ rest ->
    (forall x, In x pre -> RState x = Paused) ->
    Send_loop send (length pre + k) (length done) e w =
    Send_loop send k (length done + length pre) e w.
Proof.
  induction pre as [| x t IH]; intros done rest k Hs Hl Hp.
  - simpl. now rewrite Nat.add_0_r.
  - cbn [length Nat.add Send_loop]. rewrite Hs. cbn [EventState_eqb negb].
    assert (Hnth : nth_error (ReceiversContainer w) (length done) = Some x).
    { rewrite Hl, nth_error_app2 by lia. now rewrite Nat.sub_diag. }
    rewrite Hnth, (Hp x) by (now left). cbn [ReceiverState_eqb negb].
    replace (S (length done)) with (length (done ++ [x]))
      by (rewrite length_app; simpl; lia).
    rewrite (IH (done ++ [x]) rest k Hs).
    + f_equal. rewrite length_app. simpl. lia.
    + rewrite Hl, <- app_assoc. reflexivity.
    + intros y Hy. apply Hp. now right.
Qed.

(** X9.  When the first active receiver of the list calls [Interrupt]
    and registers nothing, [Send] returns whatever else that callback
    does - also when it removes entries - having entered that callback
    and no other; [Interrupt] does not cut the callback short: the event
    comes back with all the mutations of that callback. *)
Theorem Send_interrupted_by_first_active (fuel : nat) e w pre r post :
  State w = Waiting ->
  ReceiversContainer w = pre ++ r :: post ->
  (forall x, In x pre -> RState x = Paused) ->
  RState r = Active ->
  In ActInterrupt (Function r) ->
  (forall a, In a (Function r) -> is_Register a = false) ->
  exists w' L,
    Send (S fuel) e w = Done w' (mutations (Function r) e) /\
    State w' = Waiting /\
    Log w' = Log w ++ L /\
    invocations L = [(r, e)] /\
    NextReceiverIndex w' = NextReceiverIndex w.
Proof.
  intros Hw Hl Hp Hact Hint Hreg.
  rewrite (Send_Waiting fuel e w Hw). unfold Send_body. cbv zeta.
  set (w1 := set_State Sending w).
  assert (Hl1 : ReceiversContainer w1 = [] ++ pre ++ r :: post) by exact Hl.
  replace (length (ReceiversContainer w1))
    with (length pre + S (length post))%nat
    by (rewrite Hl1; cbn [app]; rewrite length_app; reflexivity).
  change O with (length (@nil (ReceiverData_ EventType_))) at 1.
  rewrite (Send_loop_skip_paused (Send fuel) e w1 pre [] (r :: post)
             (S (length post)) eq_refl Hl1 Hp).
  cbn [length Nat.add Send_loop].
  change (State w1) with Sending. cbn [EventState_eqb negb].
  assert (Hnth : nth_error (ReceiversContainer w1) (length pre) = Some r).
  { rewrite Hl1. cbn [app]. rewrite nth_error_app2 by lia.
    now rewrite Nat.sub_diag. }
  rewrite Hnth, Hact. cbn [ReceiverState_eqb negb].
  destruct (invoke_mid (Send fuel) (Send_guard fuel) r e w1)
    as (w2 & o & Hinv & Hlog & Ho & Hmid & Hi & Hn); [discriminate |].
  destruct (Hn Hreg) as [Hnext Hcap].
  rewrite Hinv, Hcap, Nat.eqb_refl. rewrite Send_loop_not_Sending.
  - exists (set_State Waiting w2), (Invoked r e :: o).
    split; [reflexivity |]. split; [reflexivity |]. split; [exact Hlog |].
    split; [simpl; now rewrite Ho | exact Hnext].
  - rewrite (Hi Hint). discriminate.
Qed.

Lemma emit_emit o1 o2 w : emit o2 (emit o1 w) = emit (o1 ++ o2) w.
Proof. unfold emit. simpl. now rewrite app_assoc. Qed.

Lemma emit_Capacity o w : Capacity (emit o w) = Capacity w.
Proof. reflexivity. Qed.

Lemma run_actions_quiet_eq
    (send : EventType_ -> World EventType_ -> Outcome EventType_) :
  (forall e w, State w <> Waiting ->
     send e w = Done (emit [AssertFailed AtSend] w) e) ->
  forall f e w,
    (forall a, In a f -> touches_channel a = false) ->
    State w <> Waiting ->
    run_actions send f e w = Done (emit (rejected_sends f) w) (mutations f e).
Proof.
  intros G. induction f as [| a t IH]; intros e w Hq Hmid.
  - simpl. now rewrite emit_nil.
  - assert (Ha : touches_channel a = false) by (apply Hq; now left).
    assert (Ht : forall b, In b t -> touches_channel b = false)
      by (intros b Hb; apply Hq; now right).
    destruct a as [g | | e0 | h | h | h | f0 dst]; try discriminate; simpl.
    + now apply IH.
    + rewrite (G e0 w Hmid). rewrite IH by auto.
      now rewrite emit_emit.
Qed.

Lemma Send_loop_quiet_eq
    (send : EventType_ -> World EventType_ -> Outcome EventType_) :
  (forall e w, State w <> Waiting ->
     send e w = Done (emit [AssertFailed AtSend] w) e) ->
  forall steps it e w,
    callbacks_avoid touches_channel (ReceiversContainer w) ->
    State w = Sending ->
    (it + steps = length (ReceiversContainer w))%nat ->
    Send_loop send steps it e w =
      Done (emit (quiet_trace (skipn it (ReceiversContainer w)) e) w)
           (expected_event (skipn it (ReceiversContainer w)) e).
Proof.
  intros G. induction steps as [| k IH]; intros it e w Hav Hs Hlen.
  - rewrite skipn_all2 by lia. simpl. now rewrite emit_nil.
  - destruct (nth_error (ReceiversContainer w) it) as [r |] eqn:Hnth.
    2:{ apply nth_error_None in Hnth. lia. }
    rewrite (skipn_nth_error _ _ _ Hnth). simpl. rewrite Hs, Hnth. simpl.
    destruct (RState r) eqn:Hr; simpl.
    + unfold invoke. rewrite (run_actions_quiet_eq send G).
      * rewrite !emit_Capacity, Nat.eqb_refl.
        rewrite IH; auto; [| simpl; lia].
        simpl. rewrite !emit_emit. reflexivity.
      * intros a Ha. exact (Hav r a (nth_error_In _ _ Hnth) Ha).
      * simpl. congruence.
    + apply IH; auto. lia.
Qed.

Lemma invocations_rejected_sends (f : ReceiverFunction_ EventType_) :
  invocations (rejected_sends f) = [].
Proof.
  induction f as [| a t IH]; simpl; [reflexivity |].
  destruct a; simpl; auto.
Qed.

Lemma invocations_quiet_trace l : forall e,
  invocations (quiet_trace l e) = expected_invocations l e.
Proof.
  induction l as [| r t IH]; intros e; simpl; [reflexivity |].
  destruct (RState r); simpl; [| apply IH].
  now rewrite invocations_app, invocations_rejected_sends, IH.
Qed.

Lemma violations_app o1 o2 :
  violations (o1 ++ o2) = violations o1 ++ violations o2.
Proof.
  induction o1 as [| [r e | site] t IH]; simpl; [reflexivity | exact IH |].
  now rewrite IH.
Qed.

Lemma violations_rejected_sends (f : ReceiverFunction_ EventType_) :
  Forall (eq AtSend) (violations (rejected_sends f)).
Proof.
  induction f as [| a t IH]; simpl; [constructor |].
  destruct a; simpl; auto.
Qed.

Lemma violations_quiet_trace l : forall e,
  Forall (eq AtSend) (violations (quiet_trace l e)).
Proof.
  induction l as [| r t IH]; intros e; simpl; [constructor |].
  destruct (RState r); simpl; [| apply IH].
  rewrite violations_app. apply Forall_app. split;
    [apply violations_rejected_sends | apply IH].
Qed.

Lemma Send_quiet_eq (fuel : nat) e w :
  State w = Waiting ->
  callbacks_avoid touches_channel (ReceiversContainer w) ->
  Send (S fuel) e w =
    Done (emit (quiet_trace (ReceiversContainer w) e) w)
         (expected_event (ReceiversContainer w) e).
Proof.
  intros Hw Hav.
  rewrite (Send_Waiting fuel e w Hw). unfold Send_body. cbv zeta.
  rewrite (Send_loop_quiet_eq (Send fuel) (Send_guard fuel)); auto.
  simpl. destruct w. simpl in *. subst. reflexivity.
Qed.

(** X10.  A [Send] over callbacks that do no more than mutate the event
    and call [Send] changes nothing but the log and the event: the world
    it returns is the world it was given with the log extended, so the
    next [Send] meets the same receivers.  The callbacks entered are the
    active entries in list order, and the only assertions that fail are
    those of the nested [Send] calls, each of which is rejected. *)
Theorem Send_changes_only_the_log (fuel : nat) e w :
  State w = Waiting ->
  callbacks_avoid touches_channel (ReceiversContainer w) ->
  Send (S fuel) e w =
    Done (emit (quiet_trace (ReceiversContainer w) e) w)
         (expected_event (ReceiversContainer w) e) /\
  invocations (quiet_trace (ReceiversContainer w) e) =
    expected_invocations (ReceiversContainer w) e /\
  Forall (eq AtSend) (violations (quiet_trace (ReceiversContainer w) e)).
Proof.
  intros Hw Hav. split; [| split].
  - now apply Send_quiet_eq.
  - apply invocations_quiet_trace.
  - apply violations_quiet_trace.
Qed.

Lemma erase_len (k : nat) l : (length (erase k l) <= length l)%nat.
Proof.
  revert k. induction l as [| y t IH]; intros k; simpl; [lia |].
  destruct k as [| k]; simpl; [lia | specialize (IH k); lia].
Qed.

(** X11.  Only [Receive] creates entries.  In a dispatch whose callbacks
    do not call [Receive], whatever else they do, and however the
    dispatch ends - by returning or by a read beyond the live list -
    every entry of the list was there before under the same identity and
    with the same callback, the list has not grown, and the counter and
    the capacity have not moved. *)
Theorem Send_adds_no_entry (fuel : nat) e w w' e' :
  State w = Waiting ->
  callbacks_avoid is_Register (ReceiversContainer w) ->
  Send (S fuel) e w = Done w' e' \/ Send (S fuel) e w = Fault w' e' ->
  NextReceiverIndex w' = NextReceiverIndex w /\
  Capacity w' = Capacity w /\
  (length (ReceiversContainer w') <= length (ReceiversContainer w))%nat /\
  forall r', In r' (ReceiversContainer w') ->
    exists r, In r (ReceiversContainer w) /\
              Index r' = Index r /\ Function r' = Function r.
Proof.
  intros Hw Hav Hout.
  rewrite (Send_Waiting fuel e w Hw) in Hout. unfold Send_body in Hout.
  destruct (Send_loop_inv (Send fuel) (Send_guard fuel) is_Register
              (fun y : World EventType_ =>
                 callbacks_avoid is_Register (ReceiversContainer y) /\
                 NextReceiverIndex y = NextReceiverIndex w /\
                 Capacity y = Capacity w /\
                 (length (ReceiversContainer y) <=
                  length (ReceiversContainer w))%nat /\
                 forall r', In r' (ReceiversContainer y) ->
                   exists r, In r (ReceiversContainer w) /\
                             Index r' = Index r /\ Function r' = Function r)
              (fun _ => True)) with
    (steps := length (ReceiversContainer (set_State Sending w)))
    (it := O) (e := e) (w := set_State Sending w)
    as (w3 & e3 & L3 & Hout3 & HI & _).
  - intros y o H. exact H.
  - intros a e1 y y' e1' Hreg (H0 & Hn & Hc & H1 & H2) Hm Hrun.
    split; [eapply run_action_avoid; eauto; apply Send_guard |].
    destruct (run_action_mid (Send fuel) (Send_guard fuel) a e1 y Hm)
      as (y1 & o1 & Hrun1 & _ & _ & _ & _ & _ & Hkeep).
    destruct (Hkeep Hreg) as [Hn1 Hc1].
    assert (Hy : y1 = y') by (rewrite Hrun1 in Hrun; now injection Hrun).
    subst y1.
    split; [congruence |]. split; [congruence |]. split.
    + destruct (run_action_ids (Send fuel) (Send_guard fuel) a e1 y y' e1'
                  Hreg Hm Hrun) as [Heq | [k Heq]].
      * apply (f_equal (@length _)) in Heq. unfold ids in Heq.
        rewrite !length_map in Heq. lia.
      * rewrite Heq. pose proof (erase_len k (ReceiversContainer y)). lia.
    + intros r' Hr'.
      destruct (run_action_entries (Send fuel) (Send_guard fuel)
                  a e1 y y' e1' Hreg Hm Hrun r' Hr')
        as [H | (r & Hr & Hi & Hf & _)].
      * now apply H2.
      * destruct (H2 r Hr) as (r0 & Hr0 & Hi0 & Hf0).
        exists r0. split; [exact Hr0 |]. split; congruence.
  - intros y [H _]. exact H.
  - auto.
  - split; [exact Hav |]. split; [reflexivity |]. split; [reflexivity |].
    split; [simpl; lia |]. intros r' Hr'. exists r'. auto.
  - simpl. discriminate.
  - destruct HI as (_ & Hn & Hc & Hlen & Hent).
    assert (Hww : NextReceiverIndex w' = NextReceiverIndex w3 /\
                  Capacity w' = Capacity w3 /\
                  ReceiversContainer w' = ReceiversContainer w3).
    { destruct Hout as [H | H], Hout3 as [H3 | H3]; rewrite H3 in H;
        try discriminate; injection H as <- _; auto. }
    destruct Hww as (-> & -> & ->). auto.
Qed.

(** ** The order of the identities *)

Lemma erase_sorted (k : nat) l :
  StronglySorted Z.lt (map Index l) ->
  StronglySorted Z.lt (map Index (erase k l)).
Proof.
  revert k. induction l as [| y t IH]; intros k; simpl; [auto |].
  intros H. inversion H as [| ? ? Hs Hall]; subst.
  destruct k as [| k]; [exact Hs |].
  simpl. constructor; [now apply IH |].
  rewrite Forall_forall in *. intros x Hx. apply Hall.
  eapply erase_ids_incl; eauto.
Qed.

Lemma sorted_snoc (l : list Z) (a : Z) :
  StronglySorted Z.lt l -> (forall x, In x l -> x < a) ->
  StronglySorted Z.lt (l ++ [a]).
Proof.
  induction l as [| y t IH]; simpl; intros Hs Hlt.
  - constructor; constructor.
  - inversion Hs as [| ? ? Hs' Hall]; subst. constructor.
    + apply IH; auto.
    + apply Forall_app. split; [exact Hall |].
      constructor; [apply Hlt; now left | constructor].
Qed.

Lemma run_op_sorted (op : Op EventType_) w w' :
  State w = Waiting ->
  callbacks_avoid is_Register (ReceiversContainer w) ->
  run_op op w = Some w' -> is_Receive op = false ->
  StronglySorted Z.lt (ids w) -> StronglySorted Z.lt (ids w').
Proof.
  intros Hw Hav Hrun Hnr Hs.
  destruct op as [f dst | e | | h | h | h | src dst]; cbn [run_op] in Hrun;
    try discriminate.
  - destruct (Send 1 e w) as [w1 e1 | |] eqn:Hd; try discriminate.
    injection Hrun as ->.
    rewrite (Send_Waiting 0 e w Hw) in Hd. unfold Send_body in Hd.
    destruct (Send_loop_inv (Send 0) (Send_guard 0) is_Register
                (fun y : World EventType_ =>
                   StronglySorted Z.lt (ids y) /\
                   callbacks_avoid is_Register (ReceiversContainer y))
                (fun _ => True)) with
      (steps := length (ReceiversContainer (set_State Sending w)))
      (it := O) (e := e) (w := set_State Sending w)
      as (w3 & e3 & L3 & Hout3 & (HI & _) & _).
    + intros y o H. exact H.
    + intros a e0 y y' e0' Hreg [H1 H2] Hm Hr. split.
      * destruct (run_action_ids (Send 0) (Send_guard 0) a e0 y y' e0'
                    Hreg Hm Hr) as [Heq | [k Heq]].
        -- now rewrite Heq.
        -- unfold ids. rewrite Heq. now apply erase_sorted.
      * eapply run_action_avoid; eauto. apply Send_guard.
    + intros y [_ H]. exact H.
    + auto.
    + split; [exact Hs | exact Hav].
    + simpl. discriminate.
    + destruct Hout3 as [H3 | H3]; rewrite H3 in Hd; [| discriminate].
      injection Hd as <- _. exact HI.
  - injection Hrun as <-. unfold ids. now rewrite Interrupt_receivers.
  - injection Hrun as <-. now rewrite Pause_ids.
  - injection Hrun as <-. now rewrite Resume_ids.
  - injection Hrun as <-. unfold ids. simpl.
    destruct (Remove_receivers (Handles w h) w) as [-> | ->]; [| exact Hs].
    now apply erase_sorted.
  - injection Hrun as <-. exact Hs.
Qed.

Lemma run_ops_sorted (ops : list (Op EventType_)) : forall w w',
  State w = Waiting -> identities_ok w -> StronglySorted Z.lt (ids w) ->
  callbacks_avoid is_Register (ReceiversContainer w) ->
  program_avoids is_Register ops ->
  NextReceiverIndex w + Z.of_nat (registrations ops) <= SIZE_MAX ->
  run_ops ops w = Some w' ->
  StronglySorted Z.lt (ids w').
Proof.
  induction ops as [| op rest IH]; intros w w' Hw Hok Hs Hav Hpa Hb Hrun;
    simpl in Hrun.
  - now injection Hrun as <-.
  - destruct (run_op op w) as [w1 |] eqn:Hop; [| discriminate].
    destruct (program_avoids_cons _ _ _ Hpa) as [Hpa1 Hpa2].
    pose proof (run_op_Register_free op w w1 Hw Hav Hpa1 Hop) as Hav1.
    pose proof (run_op_Waiting op w w1 Hw Hop) as Hw1.
    rewrite registrations_cons in Hb.
    assert (Hone : registrations [op] =
                   if is_Receive op then 1%nat else 0%nat).
    { unfold registrations. simpl. destruct (is_Receive op); reflexivity. }
    destruct (run_ops_identities_ok [op] w w1 Hw Hok Hav Hpa1) as (Hok1 & Hn1).
    { rewrite Hone. destruct (is_Receive op);
        [change (Z.of_nat 1) with 1 | change (Z.of_nat 0) with 0]; lia. }
    { simpl. now rewrite Hop. }
    rewrite Hone in Hn1.
    apply (IH w1 w' Hw1 Hok1); [| exact Hav1 | exact Hpa2 | | exact Hrun].
    + destruct (is_Receive op) eqn:Hr.
      * destruct (run_op_effect op w w1 Hw Hav Hop) as (_ & Hids & _).
        rewrite Hr in Hids. rewrite Hids.
        apply sorted_snoc; [exact Hs |].
        intros x Hx. destruct Hok as (_ & Hrange & _).
        apply Hrange in Hx. lia.
      * exact (run_op_sorted op w w1 Hw Hav Hop Hr Hs).
    + destruct (is_Receive op);
        [change (Z.of_nat 1) with 1 in Hn1
        | change (Z.of_nat 0) with 0 in Hn1]; lia.
Qed.

(** X12.  On every channel a client program reaches from the initial one
    with fewer than [2 ^ 64 - 1] registrations, none of them made by a
    callback, the receiver list is in strictly increasing order of
    identity: registration order, dispatch order and identity order are
    the same, and the first entry under an identity is the only one. *)
Theorem reachable_list_sorted_by_identity (ops : list (Op EventType_)) w :
  Z.of_nat (registrations ops) < SIZE_MAX ->
  program_avoids is_Register ops ->
  run_ops ops (initial EventType_) = Some w ->
  StronglySorted Z.lt (ids w) /\ NoDup (ids w) /\
  forall id, In id (ids w) -> 0 < id < NextReceiverIndex w.
Proof.
  intros Hb Hpa Hrun.
  destruct (run_ops_identities_ok ops (initial EventType_) w eq_refl
              initial_identities_ok (initial_avoids is_Register) Hpa)
    as ((Hnd & Hrange & _) & _); auto.
  { change (NextReceiverIndex (initial EventType_)) with 1. lia. }
  split; [| split; [exact Hnd | exact Hrange]].
  apply (run_ops_sorted ops (initial EventType_) w eq_refl
           initial_identities_ok); auto.
  - constructor.
  - apply initial_avoids.
  - change (NextReceiverIndex (initial EventType_)) with 1. lia.
Qed.

(** ** Registration order and dispatch order *)

Lemma Receive_all_world (fs : list (ReceiverFunction_ EventType_)) : forall w,
  is_size_t (NextReceiverIndex w) ->
  NextReceiverIndex w + Z.of_nat (length fs) <= SIZE_MOD ->
  ReceiversContainer (snd (Receive_all fs w)) =
    ReceiversContainer w ++ entries_from (NextReceiverIndex w) fs /\
  State (snd (Receive_all fs w)) = State w /\
  Log (snd (Receive_all fs w)) = Log w /\
  Handles (snd (Receive_all fs w)) = Handles w.
Proof.
  induction fs as [| f t IH]; intros w Hn Hb.
  - simpl. now rewrite app_nil_r.
  - cbn [Receive_all snd entries_from].
    destruct t as [| g t'].
    + simpl. auto.
    + destruct (IH (snd (Receive f w))) as (H1 & H2 & H3 & H4).
      * apply wrap_is_size_t.
      * change (NextReceiverIndex (snd (Receive f w)))
          with (wrap (NextReceiverIndex w + 1)).
        rewrite wrap_succ_small.
        -- simpl length in Hb |- *. lia.
        -- unfold is_size_t, SIZE_MAX in *. simpl length in Hb. lia.
      * rewrite H1, H2, H3, H4.
        change (NextReceiverIndex (snd (Receive f w)))
          with (wrap (NextReceiverIndex w + 1)).
        rewrite wrap_succ_small.
        -- change (ReceiversContainer (snd (Receive f w)))
             with (ReceiversContainer w ++
                   [mkReceiverData_ Active (NextReceiverIndex w) f]).
           rewrite <- app_assoc. auto.
        -- unfold is_size_t, SIZE_MAX in *. simpl length in Hb. lia.
Qed.

Lemma expected_entries_from (fs : list (ReceiverFunction_ EventType_)) :
  forall id e,
    map fst (expected_invocations (entries_from id fs) e) =
      entries_from id fs /\
    expected_event (entries_from id fs) e =
      fold_left (fun ev f => mutations f ev) fs e.
Proof.
  induction fs as [| f t IH]; intros id e; simpl; [auto |].
  destruct (IH (id + 1) (mutations f e)) as [H1 H2].
  now rewrite H1, H2.
Qed.

Lemma expected_event_app l1 l2 e :
  expected_event (l1 ++ l2) e = expected_event l2 (expected_event l1 e).
Proof.
  revert e. induction l1 as [| x t IH]; intros e; simpl; [reflexivity |].
  destruct (RState x); apply IH.
Qed.

Lemma entries_from_Function (fs : list (ReceiverFunction_ EventType_)) :
  forall id r, In r (entries_from id fs) -> In (Function r) fs.
Proof.
  induction fs as [| f t IH]; intros id r; simpl; [tauto |].
  intros [<- | H]; [now left | right; eapply IH; eauto].
Qed.

(** X13.  Registration order is dispatch order.  After the callbacks
    [fs] are registered one after the other on a waiting channel, the
    receiver list is the old one followed by one active entry per
    callback under consecutive identities; when the callbacks leave the
    channel alone, a [Send] enters the earlier active receivers first and
    then every new callback exactly once, in the order of registration,
    each one seeing the event as its predecessors left it. *)
Theorem Send_after_registrations (fuel : nat) e w
    (fs : list (ReceiverFunction_ EventType_)) :
  State w = Waiting ->
  is_size_t (NextReceiverIndex w) ->
  NextReceiverIndex w + Z.of_nat (length fs) <= SIZE_MOD ->
  callbacks_avoid touches_channel (ReceiversContainer w) ->
  (forall f a, In f fs -> In a f -> touches_channel a = false) ->
  ReceiversContainer (snd (Receive_all fs w)) =
    ReceiversContainer w ++ entries_from (NextReceiverIndex w) fs /\
  exists w' L,
    Send (S fuel) e (snd (Receive_all fs w)) =
      Done w' (fold_left (fun ev f => mutations f ev) fs
                         (expected_event (ReceiversContainer w) e)) /\
    Log w' = Log w ++ L /\
    map fst (invocations L) =
      map fst (expected_invocations (ReceiversContainer w) e) ++
      entries_from (NextReceiverIndex w) fs.
Proof.
  intros Hw Hn Hb Hav Hfs.
  destruct (Receive_all_world fs w Hn Hb) as (H1 & H2 & H3 & H4).
  split; [exact H1 |].
  assert (Hav1 : callbacks_avoid touches_channel
                   (ReceiversContainer (snd (Receive_all fs w)))).
  { rewrite H1. intros r a Hr Ha. apply in_app_or in Hr.
    destruct Hr as [Hr | Hr]; [exact (Hav r a Hr Ha) |].
    apply (Hfs (Function r) a); [| exact Ha].
    eapply entries_from_Function; eauto. }
  rewrite (Send_quiet_eq fuel e _ (eq_trans H2 Hw) Hav1).
  exists (emit (quiet_trace (ReceiversContainer (snd (Receive_all fs w))) e)
               (snd (Receive_all fs w))),
         (quiet_trace (ReceiversContainer (snd (Receive_all fs w))) e).
  split; [| split].
  - f_equal. rewrite H1, expected_event_app.
    now rewrite (proj2 (expected_entries_from fs _ _)).
  - cbn [emit Log]. rewrite H3. reflexivity.
  - rewrite invocations_quiet_trace, H1, expected_invocations_app, map_app.
    now rewrite (proj1 (expected_entries_from fs _ _)).
Qed.

(** ** The life of one subscription *)

Ltac quiet_side f Hq :=
  first
    [ reflexivity
    | let r := fresh "r" in
      let a := fresh "a" in
      let Hr := fresh "Hr" in
      let Ha := fresh "Ha" in
      intros r a Hr Ha; cbn in Hr;
      repeat (destruct Hr as [Hr | Hr]; [subst r; cbn in Ha; auto |]);
      try contradiction ].

(** X14.  The subscription management of [main], for any callback that
    leaves the channel alone and any four events: a default-constructed
    handle is not valid; after [Receive] the handle is valid and stays so
    through [Pause] and [Resume]; of the four dispatches - after
    [Receive], after [Pause], after [Resume], after [Remove] - the first
    and the third enter the callback, the second and the fourth enter
    nothing; at the end the list is empty, the handle is not valid and the
    next identity is 2. *)
Theorem lifecycle_of_a_subscription
    (f : ReceiverFunction_ EventType_) (e1 e2 e3 e4 : EventType_) :
  (forall a, In a f -> touches_channel a = false) ->
  IsValid (Handles (initial EventType_) O) = false /\
  (exists w6,
     run_ops (firstn 6 (lifecycle f e1 e2 e3 e4)) (initial EventType_)
       = Some w6 /\
     IsValid (Handles w6 O) = true /\
     ReceiversContainer w6 = [mkReceiverData_ Active 1 f]) /\
  exists w,
    run_ops (lifecycle f e1 e2 e3 e4) (initial EventType_) = Some w /\
    invocations (Log w) =
      [(mkReceiverData_ Active 1 f, e1); (mkReceiverData_ Active 1 f, e3)] /\
    ReceiversContainer w = [] /\
    IsValid (Handles w O) = false /\
    NextReceiverIndex w = 2 /\
    State w = Waiting.
Proof.
  intros Hq. split; [reflexivity |].
  split.
  - unfold lifecycle. cbn [firstn run_ops run_op].
    do 3 (rewrite (Send_quiet_eq 0); [cbv iota beta | quiet_side f Hq ..]).
    eexists. split; [reflexivity |]. split; vm_compute; reflexivity.
  - unfold lifecycle. cbn [run_ops run_op].
    do 4 (rewrite (Send_quiet_eq 0); [cbv iota beta | quiet_side f Hq ..]).
    eexists. split; [reflexivity |].
    split; [| split; [| split; [| split]]]; try (vm_compute; reflexivity).
    cbn. rewrite !invocations_app. cbn.
    rewrite !invocations_app, !invocations_rejected_sends. reflexivity.
Qed.

(** ** Changes made to the list while it is iterated *)

Section Callbacks.

Variable send : EventType_ -> World EventType_ -> Outcome EventType_.
Hypothesis send_guard : forall e w,
  State w <> Waiting -> send e w = Done (emit [AssertFailed AtSend] w) e.


Lemma run_action_no_Interrupt a e w w' e' :
  is_Interrupt a = false -> State w <> Waiting ->
  run_action send a e w = Done w' e' -> State w' = State w.
Proof.
  intros Hp Hmid Hrun.
  destruct a as [g | | e0 | h | h | h | f0 dst]; simpl in Hrun;
    try discriminate Hp.
  - now injection Hrun as <- <-.
  - rewrite (send_guard e0 w Hmid) in Hrun. now injection Hrun as <- <-.
  - now injection Hrun as <- <-.
  - now injection Hrun as <- <-.
  - injection Hrun as <- <-. simpl. apply Remove_State.
  - now injection Hrun as <- <-.
Qed.




(** What a callback that neither interrupts nor registers leaves. *)
Lemma invoke_no_stop r e w w' e' :
  callbacks_avoid stops_or_refills (ReceiversContainer w) ->
  In r (ReceiversContainer w) -> State w = Sending ->
  invoke send r e w = Done w' e' ->
  State w' = Sending /\
  (length (ReceiversContainer w') <= length (ReceiversContainer w))%nat /\
  callbacks_avoid stops_or_refills (ReceiversContainer w') /\
  Capacity w' = Capacity w.
Proof.
  intros Hav Hin Hs Hinv.
  assert (Hmid : State w <> Waiting) by congruence.
  assert (Hsr : forall a, stops_or_refills a = false ->
                          is_Interrupt a = false /\ is_Register a = false).
  { intros a H. unfold stops_or_refills in H. now apply orb_false_elim in H. }
  set (K := fun y : World EventType_ =>
              State y = Sending /\
              (length (ReceiversContainer y) <=
               length (ReceiversContainer w))%nat /\
              callbacks_avoid stops_or_refills (ReceiversContainer y)).
  assert (HK : K w').
  { apply (invoke_inv send send_guard stops_or_refills K)
      with (r := r) (e := e) (w := w) (e' := e').
    - intros y o' H. exact H.
    - intros a e0 y y' e0' Hp (H1 & H2 & H3) Hm Hrun.
      destruct (Hsr a Hp) as [Hi Hreg]. split; [| split].
      + rewrite <- H1. eapply run_action_no_Interrupt; eauto.
      + destruct (run_action_ids send send_guard a e0 y y' e0' Hreg Hm Hrun)
          as [Heq | [j Heq]].
        * apply (f_equal (@length _)) in Heq. unfold ids in Heq.
          rewrite !length_map in Heq. lia.
        * rewrite Heq. pose proof (erase_len j (ReceiversContainer y)). lia.
      + eapply run_action_avoid; eauto.
    - intros y (_ & _ & H). exact H.
    - unfold K. auto.
    - exact Hin.
    - exact Hmid.
    - exact Hinv. }
  destruct HK as (H1 & H2 & H3).
  split; [exact H1 |]. split; [exact H2 |]. split; [exact H3 |].
  apply (invoke_Capacity send send_guard r e w w' e'); auto.
  intros a Ha. exact (proj2 (Hsr a (Hav r a Hin Ha))).
Qed.



End Callbacks.

(** *** Pause and Remove on distinct identities *)




(** *** Entries behind the iterator *)




(** *** The end position fixed on entry *)

(** The loop runs to the end position it fixed when it was entered.  Once
    the list is shorter than that position and no callback interrupts or
    registers, the loop reads a slot beyond the live elements. *)
Lemma Send_loop_short (fuel steps : nat) : forall it e w,
  State w = Sending ->
  callbacks_avoid stops_or_refills (ReceiversContainer w) ->
  (0 < steps)%nat ->
  (length (ReceiversContainer w) < it + steps)%nat ->
  exists w' e', Send_loop (Send fuel) steps it e w = Fault w' e'.
Proof.
  induction steps as [| k IH]; intros it e w Hs Hav Hpos Hlen; [lia |].
  simpl. rewrite Hs. simpl.
  destruct (nth_error (ReceiversContainer w) it) as [r |] eqn:Hnth; [| eauto].
  assert (Hit : (it < length (ReceiversContainer w))%nat).
  { apply nth_error_Some. congruence. }
  destruct (RState r) eqn:Hr; simpl.
  - assert (Hmid : State w <> Waiting) by congruence.
    destruct (invoke_mid (Send fuel) (Send_guard fuel) r e w Hmid)
      as (w1 & o & Hinv & _ & _ & Hmid1 & _ & _).
    rewrite Hinv.
    destruct (invoke_no_stop (Send fuel) (Send_guard fuel) r e w w1 _
                Hav (nth_error_In _ _ Hnth) Hs Hinv)
      as (Hs1 & Hl1 & Hav1 & Hc1).
    rewrite Hc1, Nat.eqb_refl.
    apply IH; auto; lia.
  - apply IH; auto; lia.
Qed.


(** X15.  The loop of [Send] runs to the end position it fixed on entry.
    When the callback of the first active entry leaves the list shorter
    than it found it, entries follow that one, and no callback interrupts
    or registers, [Send] goes on to read a slot beyond the live
    elements. *)
Theorem erase_without_Interrupt_faults (fuel : nat) e w pre r post w1 e1 :
  State w = Waiting ->
  ReceiversContainer w = pre ++ r :: post ->
  (forall x, In x pre -> RState x = Paused) ->
  RState r = Active ->
  post <> [] ->
  callbacks_avoid stops_or_refills (ReceiversContainer w) ->
  invoke (Send fuel) r e (set_State Sending w) = Done w1 e1 ->
  (length (ReceiversContainer w1) < length (ReceiversContainer w))%nat ->
  exists w' e', Send (S fuel) e w = Fault w' e'.
Proof.
  intros Hw Hl Hp Hact Hpost Hav Hinv Hshort.
  rewrite (Send_Waiting fuel e w Hw). unfold Send_body. cbv zeta.
  set (w0 := set_State Sending w) in *.
  assert (Hl0 : ReceiversContainer w0 = [] ++ pre ++ r :: post) by exact Hl.
  replace (length (ReceiversContainer w0))
    with (length pre + S (length post))%nat
    by (rewrite Hl0; cbn [app]; rewrite length_app; reflexivity).
  change O with (length (@nil (ReceiverData_ EventType_))) at 1.
  rewrite (Send_loop_skip_paused (Send fuel) e w0 pre [] (r :: post)
             (S (length post)) eq_refl Hl0 Hp).
  cbn [length Nat.add Send_loop].
  change (State w0) with Sending. cbn [EventState_eqb negb].
  assert (Hnth : nth_error (ReceiversContainer w0) (length pre) = Some r).
  { rewrite Hl0. cbn [app]. rewrite nth_error_app2 by lia.
    now rewrite Nat.sub_diag. }
  rewrite Hnth, Hact. cbn [ReceiverState_eqb negb].
  destruct (invoke_no_stop (Send fuel) (Send_guard fuel) r e w0 w1 e1)
    as (Hs1 & _ & Hav1 & Hc1); auto.
  { eapply nth_error_In; eauto. }
  rewrite Hinv, Hc1, Nat.eqb_refl.
  destruct (Send_loop_short fuel (length post) (S (length pre)) e1 w1)
    as (w' & e' & Hout); auto.
  - destruct post; [contradiction | simpl; lia].
  - change (ReceiversContainer w0) with (ReceiversContainer w) in Hshort.
    rewrite Hl, length_app in Hshort. simpl in Hshort. lia.
  - rewrite Hout. eauto.
Qed.

(** ** Registration during a dispatch *)

Lemma emplace_capacity_ge (size cap : nat) :
  (cap <= emplace_capacity size cap)%nat.
Proof. unfold emplace_capacity. destruct (size <? cap)%nat; lia. Qed.

Lemma emplace_capacity_full (size cap : nat) :
  (cap <= size)%nat -> (cap < emplace_capacity size cap)%nat.
Proof.
  intros H. unfold emplace_capacity.
  destruct (Nat.ltb_spec size cap); lia.
Qed.

Section Registering.

Variable send : EventType_ -> World EventType_ -> Outcome EventType_.
Hypothesis send_guard : forall e w,
  State w <> Waiting -> send e w = Done (emit [AssertFailed AtSend] w) e.

(** The capacity never shrinks. *)
Lemma run_actions_Capacity_mono f : forall e w w' e',
  State w <> Waiting ->
  run_actions send f e w = Done w' e' ->
  (Capacity w <= Capacity w')%nat.
Proof.
  induction f as [| a t IH]; intros e w w' e' Hmid Hrun; simpl in Hrun.
  - injection Hrun as <- _. lia.
  - destruct (run_action_mid send send_guard a e w Hmid)
      as (w1 & o & Hrun1 & _ & _ & Hmid1 & _ & _ & Hkeep).
    rewrite Hrun1 in Hrun.
    pose proof (IH _ _ _ _ Hmid1 Hrun) as Hle.
    assert (H1 : (Capacity w <= Capacity w1)%nat).
    { destruct (is_Register a) eqn:Hreg.
      - destruct a; try discriminate Hreg. simpl in Hrun1.
        injection Hrun1 as <-. simpl. apply emplace_capacity_ge.
      - destruct (Hkeep eq_refl) as [_ ->]. lia. }
    lia.
Qed.

(** A callback that registers while the vector is full, and has erased
    nothing before, makes the vector move its elements. *)
Lemma run_actions_full f : forall e w w' e',
  State w <> Waiting ->
  (forall a, In a f -> is_Remove a = false) ->
  (exists g dst, In (ActReceive g dst) f) ->
  (Capacity w <= length (ReceiversContainer w))%nat ->
  run_actions send f e w = Done w' e' ->
  (Capacity w < Capacity w')%nat.
Proof.
  induction f as [| a t IH]; intros e w w' e' Hmid Hrem (g & dst & Hin) Hfull
    Hrun; [contradiction |].
  simpl in Hrun.
  destruct (run_action_mid send send_guard a e w Hmid)
    as (w1 & o & Hrun1 & _ & _ & Hmid1 & _ & _ & Hkeep).
  rewrite Hrun1 in Hrun.
  destruct (is_Register a) eqn:Hreg.
  - pose proof (run_actions_Capacity_mono t _ _ _ _ Hmid1 Hrun) as Hle.
    destruct a; try discriminate Hreg. simpl in Hrun1.
    injection Hrun1 as <-. simpl in Hle.
    pose proof (emplace_capacity_full _ _ Hfull). lia.
  - destruct (Hkeep eq_refl) as [_ Hc].
    assert (Hres : resizes a = false).
    { unfold resizes. rewrite Hreg, (Hrem a) by (now left). reflexivity. }
    pose proof (run_action_shape send send_guard a e w w1 _ Hres Hmid Hrun1)
      as Hsh.
    assert (Hl : length (ReceiversContainer w1) =
                 length (ReceiversContainer w)).
    { unfold shape in Hsh. injection Hsh as Hi _.
      rewrite <- (length_map Index (ReceiversContainer w1)), Hi.
      apply length_map. }
    rewrite <- Hc. apply (IH (mutate e a) w1 w' e'); auto.
    + intros b Hb. apply Hrem. now right.
    + destruct Hin as [Heq | Hin]; [subst a; discriminate Hreg |].
      exists g, dst. exact Hin.
    + rewrite Hc, Hl. exact Hfull.
Qed.

End Registering.

(** X16.  [Receive] called from a callback while the vector is full
    leaves the loop of [Send] with an iterator into storage that the
    vector has given up.  Take the first active entry of a waiting channel
    whose vector holds as many entries as it has room for; if its callback
    calls [Receive] and does not call [Remove], the callback runs to its
    end - the event has all its mutations - and the increment of the
    iterator that follows is a [Fault]; no other callback is entered. *)
Theorem Receive_on_full_vector_faults (fuel : nat) e w pre r post :
  State w = Waiting ->
  ReceiversContainer w = pre ++ r :: post ->
  (forall x, In x pre -> RState x = Paused) ->
  RState r = Active ->
  (exists g dst, In (ActReceive g dst) (Function r)) ->
  (forall a, In a (Function r) -> is_Remove a = false) ->
  (Capacity w <= length (ReceiversContainer w))%nat ->
  exists w' L,
    Send (S fuel) e w = Fault w' (mutations (Function r) e) /\
    Log w' = Log w ++ L /\
    invocations L = [(r, e)] /\
    (Capacity w < Capacity w')%nat.
Proof.
  intros Hw Hl Hp Hact Hreg Hrem Hfull.
  rewrite (Send_Waiting fuel e w Hw). unfold Send_body. cbv zeta.
  set (w1 := set_State Sending w).
  assert (Hl1 : ReceiversContainer w1 = [] ++ pre ++ r :: post) by exact Hl.
  replace (length (ReceiversContainer w1))
    with (length pre + S (length post))%nat
    by (rewrite Hl1; cbn [app]; rewrite length_app; reflexivity).
  change O with (length (@nil (ReceiverData_ EventType_))) at 1.
  rewrite (Send_loop_skip_paused (Send fuel) e w1 pre [] (r :: post)
             (S (length post)) eq_refl Hl1 Hp).
  cbn [length Nat.add Send_loop].
  change (State w1) with Sending. cbn [EventState_eqb negb].
  assert (Hnth : nth_error (ReceiversContainer w1) (length pre) = Some r).
  { rewrite Hl1. cbn [app]. rewrite nth_error_app2 by lia.
    now rewrite Nat.sub_diag. }
  rewrite Hnth, Hact. cbn [ReceiverState_eqb negb].
  destruct (invoke_mid (Send fuel) (Send_guard fuel) r e w1)
    as (w2 & o & Hinv & Hlog & Ho & Hmid & _ & _); [discriminate |].
  assert (Hgrow : (Capacity w1 < Capacity w2)%nat).
  { unfold invoke in Hinv.
    apply (run_actions_full (Send fuel) (Send_guard fuel) (Function r) e
             (emit [Invoked r e] w1) w2 (mutations (Function r) e)); auto.
    discriminate. }
  rewrite Hinv.
  replace (Nat.eqb (Capacity w2) (Capacity w1)) with false
    by (symmetry; apply Nat.eqb_neq; lia).
  exists w2, (Invoked r e :: o).
  split; [reflexivity |]. split; [exact Hlog |].
  split; [simpl; now rewrite Ho | exact Hgrow].
Qed.

(** *** Entries registered while the loop runs *)

Lemma label_map l :
  map label l = combine (map Index l) (map (@Function EventType_) l).
Proof. induction l as [| r t IH]; simpl; [reflexivity | now rewrite IH]. Qed.

Lemma shape_label w w' :
  shape w' = shape w ->
  map label (ReceiversContainer w') = map label (ReceiversContainer w).
Proof.
  unfold shape. intros H. injection H as H1 H2.
  now rewrite !label_map, H1, H2.
Qed.

Lemma firstn_snoc_long {A : Type} (n : nat) (l : list A) (x : A) :
  (n <= length l)%nat -> firstn n (l ++ [x]) = firstn n l.
Proof.
  intros H. rewrite firstn_app.
  replace (n - length l)%nat with O by lia. simpl. apply app_nil_r.
Qed.

Lemma subseq_skipn {A : Type} (l1 l : list A) (n : nat) :
  subseq l1 (skipn (S n) l) -> subseq l1 (skipn n l).
Proof.
  revert n. induction l as [| y t IH]; intros [| n] H; simpl in *; auto.
  now apply subseq_skip.
Qed.

(** The entries below the end position keep their place, their identity
    and their callback through an action that is not [Remove]. *)
Lemma run_action_keeps_front
    (send : EventType_ -> World EventType_ -> Outcome EventType_)
    (n0 : nat) (l0 : list (ReceiverIndex_ * ReceiverFunction_ EventType_))
    a e w w' e' :
  (forall e w, State w <> Waiting ->
     send e w = Done (emit [AssertFailed AtSend] w) e) ->
  is_Remove a = false -> State w <> Waiting ->
  length l0 = n0 ->
  firstn n0 (map label (ReceiversContainer w)) = l0 ->
  run_action send a e w = Done w' e' ->
  firstn n0 (map label (ReceiversContainer w')) = l0.
Proof.
  intros G Hrem Hmid Hlen Hfront Hrun.
  destruct (is_Register a) eqn:Hreg.
  - destruct a; try discriminate Hreg. simpl in Hrun.
    injection Hrun as <- _. cbn [set_Handle Receive snd ReceiversContainer].
    rewrite map_app. cbn [map]. rewrite firstn_snoc_long; [exact Hfront |].
    rewrite <- Hlen, <- Hfront. rewrite length_firstn. lia.
  - assert (Hres : resizes a = false).
    { unfold resizes. now rewrite Hreg, Hrem. }
    rewrite (shape_label w w'); [exact Hfront |].
    eapply run_action_shape; eauto.
Qed.

Lemma Send_loop_front (fuel : nat)
    (l0 : list (ReceiverIndex_ * ReceiverFunction_ EventType_)) steps :
  forall it e w,
    State w <> Waiting ->
    length l0 = (it + steps)%nat ->
    firstn (it + steps) (map label (ReceiversContainer w)) = l0 ->
    (forall i a, In i l0 -> In a (snd i) -> is_Remove a = false) ->
    exists w' e' L,
      (Send_loop (Send fuel) steps it e w = Done w' e' \/
       Send_loop (Send fuel) steps it e w = Fault w' e') /\
      Log w' = Log w ++ L /\
      firstn (it + steps) (map label (ReceiversContainer w')) = l0 /\
      subseq (map (fun i => label (fst i)) (invocations L)) (skipn it l0).
Proof.
  induction steps as [| k IH]; intros it e w Hmid Hlen Hfront Hav.
  - exists w, e, []. simpl. rewrite app_nil_r.
    split; [now left |]. split; [reflexivity |]. split; [exact Hfront |].
    constructor.
  - assert (Hstop : exists w' e' L,
              (Done w e = Done w' e' \/ Done w e = Fault w' e') /\
              Log w' = Log w ++ L /\
              firstn (it + S k) (map label (ReceiversContainer w')) = l0 /\
              subseq (map (fun i => label (fst i)) (invocations L))
                     (skipn it l0)).
    { exists w, e, []. simpl. rewrite app_nil_r.
      split; [now left |]. split; [reflexivity |]. split; [exact Hfront |].
      constructor. }
    assert (Hlong : (it < length (ReceiversContainer w))%nat).
    { assert (H : length (firstn (it + S k)
                            (map label (ReceiversContainer w))) =
                  (it + S k)%nat) by (rewrite Hfront; exact Hlen).
      rewrite length_firstn, length_map in H. lia. }
    destruct (nth_error (ReceiversContainer w) it) as [r |] eqn:Hnth.
    2:{ apply nth_error_None in Hnth. lia. }
    assert (Hl0 : nth_error l0 it = Some (label r)).
    { rewrite <- Hfront. rewrite nth_error_firstn.
      replace (it <? it + S k)%nat with true
        by (symmetry; apply Nat.ltb_lt; lia).
      now apply map_nth_error. }
    assert (Hshift : (S it + k)%nat = (it + S k)%nat) by lia.
    simpl. destruct (EventState_eqb (State w) Sending) eqn:Hs; simpl;
      [| exact Hstop].
    rewrite Hnth.
    destruct (RState r) eqn:Hr; simpl.
    + destruct (invoke_mid (Send fuel) (Send_guard fuel) r e w Hmid)
        as (w1 & o & Hinv & Hlog1 & Ho & Hmid1 & _ & _).
      rewrite Hinv.
      assert (Hfront1 : firstn (it + S k)
                          (map label (ReceiversContainer w1)) = l0).
      { unfold invoke in Hinv.
        apply (run_actions_inv (Send fuel) (Send_guard fuel) is_Remove
                 (fun y => firstn (it + S k)
                             (map label (ReceiversContainer y)) = l0))
          with (f := Function r) (e := e) (w := emit [Invoked r e] w)
               (e' := mutations (Function r) e); auto.
        - intros a e0 y y' e0' Hrem Hy Hm Hrun.
          eapply run_action_keeps_front; eauto. apply Send_guard.
        - intros a Ha. apply (Hav (label r) a); [| exact Ha].
          eapply nth_error_In; eauto. }
      assert (Hone : subseq [label r] (skipn it l0)).
      { rewrite (skipn_nth_error _ _ _ Hl0). apply subseq_take.
        apply subseq_nil. }
      destruct (Nat.eqb (Capacity w1) (Capacity w)).
      2:{ exists w1, (mutations (Function r) e), (Invoked r e :: o).
          split; [now right |]. split; [exact Hlog1 |].
          split; [exact Hfront1 |]. simpl. now rewrite Ho. }
      destruct (IH (S it) (mutations (Function r) e) w1 Hmid1)
        as (w' & e' & L & Hout & Hlog & Hf' & Hsub); auto;
        [lia | now rewrite Hshift |].
      exists w', e', (Invoked r e :: o ++ L). split; [exact Hout |].
      split; [rewrite Hlog, Hlog1, <- app_assoc; reflexivity |].
      split; [now rewrite <- Hshift |].
      simpl. rewrite invocations_app, Ho. simpl.
      rewrite (skipn_nth_error _ _ _ Hl0). now apply subseq_take.
    + destruct (IH (S it) e w Hmid) as (w' & e' & L & Hout & Hlog & Hf' & Hsub);
        auto; [lia | now rewrite Hshift |].
      exists w', e', L. split; [exact Hout |]. split; [exact Hlog |].
      split; [now rewrite <- Hshift |]. now apply subseq_skipn.
Qed.

(** X17.  While no callback erases, a dispatch enters only callbacks of
    entries that were in the list when [Send] was called, in list order
    and each at most once.  What the callbacks register meanwhile is
    appended behind the end position the loop fixed: however the dispatch
    ends, the earlier entries are in their places under their identities
    and with their callbacks, and the new entries have to wait for the
    next [Send]. *)
Theorem Send_enters_only_earlier_entries (fuel : nat) e w :
  State w = Waiting ->
  callbacks_avoid is_Remove (ReceiversContainer w) ->
  exists w' e' L,
    (Send (S fuel) e w = Done w' e' \/ Send (S fuel) e w = Fault w' e') /\
    Log w' = Log w ++ L /\
    firstn (length (ReceiversContainer w))
           (map label (ReceiversContainer w')) =
      map label (ReceiversContainer w) /\
    subseq (map (fun i => label (fst i)) (invocations L))
           (map label (ReceiversContainer w)).
Proof.
  intros Hw Hav.
  rewrite (Send_Waiting fuel e w Hw). unfold Send_body.
  destruct (Send_loop_front fuel (map label (ReceiversContainer w))
              (length (ReceiversContainer (set_State Sending w))) O e
              (set_State Sending w))
    as (w2 & e2 & L & Hout & Hlog & Hfront & Hsub).
  - simpl. discriminate.
  - simpl. apply length_map.
  - simpl. apply firstn_all2. rewrite length_map. lia.
  - intros i a Hi Ha. apply in_map_iff in Hi. destruct Hi as (r & <- & Hr).
    exact (Hav r a Hr Ha).
  - simpl in Hfront, Hsub.
    destruct Hout as [Hout | Hout]; rewrite Hout.
    + exists (set_State Waiting w2), e2, L. auto.
    + exists w2, e2, L. auto.
Qed.

End Theory.

(** ** Closed instances *)


Lemma Interrupt_stops_dispatch_witness :
  State (after interrupting_ops) = Waiting /\
  exists w' e' L,
    (Send 1 7 (after interrupting_ops) = Done w' e' \/
     Send 1 7 (after interrupting_ops) = Fault w' e') /\
    Log w' = Log (after interrupting_ops) ++ L /\
    interrupter_last (invocations L).
Proof.
  split; [reflexivity |].
  apply (Interrupt_stops_dispatch 0 7 (after interrupting_ops) eq_refl).
Defined.

Lemma Send_leaves_Waiting_witness :
  State (after three_ops) = Waiting /\
  Send 1 5 (after three_ops) <> OutOfFuel /\
  returns (Send 1 5 (after three_ops)).
Proof.
  destruct (Send_leaves_Waiting 0 5 (after three_ops) eq_refl)
    as (H1 & _ & H3 & _).
  split; [reflexivity |]. split; [exact H1 |].
  apply H3. avoid_by_cases.
Defined.

Lemma Send_rejected_while_sending_witness :
  State (set_State Sending (after three_ops)) <> Waiting /\
  exists w',
    Send 0 5 (set_State Sending (after three_ops)) = Done w' 5 /\
    Log w' = Log (set_State Sending (after three_ops)) ++ [AssertFailed AtSend] /\
    channel w' = channel (set_State Sending (after three_ops)).
Proof.
  assert (H : State (set_State Sending (after three_ops)) <> Waiting)
    by discriminate.
  split; [exact H |].
  destruct (Send_rejected_while_sending 0 5 _ H) as (w' & H1 & H2 & H3 & _).
  exists w'. auto.
Defined.

(** The first callback of [pauser_ops] pauses the third entry, which the
    dispatch under way then skips; the next dispatch skips it too. *)
Example pause_during_Send_takes_effect :
  invocations (Log (after (pauser_ops ++ [OpSend 7; OpSend 8]))) =
    [(mkReceiverData_ Active 1 [ActPause 2%nat], 7);
     (mkReceiverData_ Active 2 [], 7);
     (mkReceiverData_ Active 1 [ActPause 2%nat], 8);
     (mkReceiverData_ Active 2 [], 8)] /\
  violations (Log (after (pauser_ops ++ [OpSend 7; OpSend 8]))) = [AtPause].
Proof. split; vm_compute; reflexivity. Qed.

(** The dispatch of [three_ops]: the first and the third callback run, the
    third sees what the first did to the event. *)
Example Send_three :
  invocations (Log (after (three_ops ++ [OpSend 5]))) =
    [(mkReceiverData_ Active 1 [ActMutate (Z.add 1)], 5);
     (mkReceiverData_ Active 3 [ActMutate (Z.add 100)], 6)] /\
  Send 1 5 (after three_ops) =
    Done (after (three_ops ++ [OpSend 5])) 106.
Proof. split; vm_compute; reflexivity. Qed.


(** C3, further example.  The first callback of [leaver_ops] removes its
    own entry.  The second entry moves into slot 0, which the loop has
    left, and is not entered although it stays in the list and is active;
    the dispatch returns, and the dispatch of the specification, on the
    same channel, enters all three callbacks. *)
Example erase_during_Send_skips_an_entry :
  (exists w' e',
     Send 1 0 (after leaver_ops) = Done w' e' /\
     invocations (Log w') =
       [(mkReceiverData_ Active 1 [ActRemove 0%nat], 0);
        (mkReceiverData_ Active 3 [ActInterrupt], 0)] /\
     ReceiversContainer w' =
       [mkReceiverData_ Active 2 [ActMutate (Z.add 1)];
        mkReceiverData_ Active 3 [ActInterrupt]]) /\
  (exists w' e',
     spec_Send (Send 0) 0 (after leaver_ops) = Done w' e' /\
     map (fun i => Index (fst i)) (invocations (Log w')) = [1; 2; 3]).
Proof.
  split; eexists; eexists; split_all; vm_compute; reflexivity.
Qed.

(** The first callback of [remover_ops] removes the second entry; the
    loop finds the third entry in slot 1 and enters it, and the removed
    entry's callback is not entered. *)
Example remove_during_Send_takes_effect :
  exists w' e',
    Send 1 7 (after remover_ops) = Done w' e' /\
    map (fun i => Index (fst i)) (invocations (Log w')) = [1; 3] /\
    ids w' = [1; 3] /\ e' = 7.
Proof. eexists. eexists. split_all; vm_compute; reflexivity. Qed.

(** A callback resumes an entry located after it: the entry is entered
    when the loop reaches it. *)
Example resume_during_Send_takes_effect :
  map (fun i => Index (fst i))
    (invocations
       (Log (after [OpReceive [ActResume 1%nat] 0%nat; OpReceive [] 1%nat;
                    OpPause 1%nat; OpSend 7]))) = [1; 2].
Proof. vm_compute. reflexivity. Qed.




Lemma IsValid_tracks_bound_identity_witness :
  is_size_t (NextReceiverIndex (after three_ops)) /\
  IsValid (fst (Receive [] (after three_ops))) = true /\
  IsValid (fst (Remove (Handles (after three_ops) 1%nat) (after three_ops)))
    = false.
Proof.
  assert (Hsz : is_size_t (NextReceiverIndex (after three_ops))).
  { unfold is_size_t. rewrite SIZE_MOD_value.
    change (NextReceiverIndex (after three_ops)) with 4. lia. }
  destruct (IsValid_tracks_bound_identity
              (Handles (after three_ops) 1%nat) (after three_ops) [] Hsz)
    as (_ & _ & _ & H4 & _ & _ & _ & _ & H9 & _).
  split; [exact Hsz |]. split.
  - apply H4. discriminate.
  - apply H9. cbv. auto.
Defined.

(** C9, counterexample.  After [2 ^ 64 - 1] registrations the counter is
    0, and the handle that [Receive] returns next is bound to the new
    entry and is not valid. *)
Lemma Receive_returns_invalid_handle :
  (exists ops w,
     run_ops ops (initial Z) = Some w /\ channel w = channel wrapped /\
     Capacity w = Capacity wrapped /\
     Log w = Log wrapped /\ forall k, Handles w k = Handles wrapped k) /\
  IsValid (fst (Receive [] wrapped)) = false /\
  ReceiversContainer (snd (Receive [] wrapped)) =
    [mkReceiverData_ Active (ReceiverIndex (fst (Receive [] wrapped))) []].
Proof.
  split; [| split_all; vm_compute; reflexivity].
  destruct (counter_value_reachable (EventType_ := Z) 0)
    as (ops & w & H1 & H2 & H3 & H4 & H5 & H6 & H7).
  - unfold is_size_t. rewrite SIZE_MOD_value. lia.
  - exists ops, w. split; [exact H1 |].
    split; [| split; [exact H7 | split; [exact H5 | exact H6]]].
    unfold channel. rewrite H2, H3, H4. reflexivity.
Qed.

Lemma three_identities_ok : identities_ok (after three_ops).
Proof.
  split; [NoDup_by_cases | split].
  - intros id Hin. cbv in Hin.
    change (NextReceiverIndex (after three_ops)) with 4. intuition lia.
  - change (NextReceiverIndex (after three_ops)) with 4.
    rewrite SIZE_MOD_value. lia.
Qed.

Lemma Remove_erases_bound_entry_witness :
  identities_ok (after three_ops) /\
  In (mkReceiverData_ Paused 2 [ActMutate (Z.mul 2)])
     (ReceiversContainer (after three_ops)) /\
  Index (mkReceiverData_ Paused 2 [ActMutate (Z.mul 2)]) =
    ReceiverIndex (Handles (after three_ops) 1%nat) /\
  fst (Remove (Handles (after three_ops) 1%nat) (after three_ops)) =
    mkSubscription_ 0 /\
  ~ In (ReceiverIndex (Handles (after three_ops) 1%nat))
       (ids (snd (Remove (Handles (after three_ops) 1%nat) (after three_ops)))).
Proof.
  assert (Hin : In (mkReceiverData_ Paused 2 [ActMutate (Z.mul 2)])
                   (ReceiversContainer (after three_ops))).
  { right. left. reflexivity. }
  destruct (Remove_erases_bound_entry
              (Handles (after three_ops) 1%nat) (after three_ops)
              (mkReceiverData_ Paused 2 [ActMutate (Z.mul 2)])
              three_identities_ok Hin eq_refl) as (H1 & _ & H3 & _).
  split; [exact three_identities_ok |]. split; [exact Hin |].
  split; [reflexivity |]. split; [exact H1 | exact H3].
Defined.



Lemma stale_copy_stays_valid_witness :
  1%nat <> 5%nat /\
  identities_ok (after three_ops) /\
  In (ReceiverIndex (Handles (after three_ops) 1%nat)) (ids (after three_ops)) /\
  exists w1,
    run_ops [OpCopy 1%nat 5%nat; OpRemove 1%nat] (after three_ops) = Some w1 /\
    IsValid (Handles w1 1%nat) = false /\
    IsValid (Handles w1 5%nat) = true /\
    ~ In (ReceiverIndex (Handles w1 5%nat)) (ids w1).
Proof.
  assert (Hne : 1%nat <> 5%nat) by discriminate.
  assert (Hin : In (ReceiverIndex (Handles (after three_ops) 1%nat))
                   (ids (after three_ops))).
  { right. left. reflexivity. }
  destruct (stale_copy_stays_valid 1 5 (after three_ops) Hne
              three_identities_ok Hin)
    as (w1 & H1 & H2 & _ & H4 & H5 & _).
  split; [exact Hne |]. split; [exact three_identities_ok |].
  split; [exact Hin |].
  exists w1. auto.
Defined.

(** C7, counterexample.  Once the counter has wrapped to 0, a
    registration gets the identity 0.  A handle whose entry was removed
    holds 0, so a second [Remove] through it finds that entry and erases
    it. *)
Lemma second_Remove_erases_identity_0 :
  (exists ops w,
     run_ops ops (initial Z) = Some w /\ channel w = channel wrapped /\
     Capacity w = Capacity wrapped /\
     Log w = Log wrapped /\ forall k, Handles w k = Handles wrapped k) /\
  run_ops [OpReceive [] 0%nat; OpReceive [] 1%nat; OpRemove 1%nat] wrapped =
    Some (run_from wrapped
            [OpReceive [] 0%nat; OpReceive [] 1%nat; OpRemove 1%nat]) /\
  ReceiversContainer
    (run_from wrapped [OpReceive [] 0%nat; OpReceive [] 1%nat]) =
    [mkReceiverData_ Active 0 []; mkReceiverData_ Active 1 []] /\
  Handles (run_from wrapped [OpReceive [] 0%nat; OpReceive [] 1%nat]) 1%nat =
    mkSubscription_ 1 /\
  ReceiversContainer
    (run_from wrapped
       [OpReceive [] 0%nat; OpReceive [] 1%nat; OpRemove 1%nat]) =
    [mkReceiverData_ Active 0 []] /\
  Handles
    (run_from wrapped
       [OpReceive [] 0%nat; OpReceive [] 1%nat; OpRemove 1%nat]) 1%nat =
    mkSubscription_ 0 /\
  ReceiversContainer
    (run_from wrapped
       [OpReceive [] 0%nat; OpReceive [] 1%nat; OpRemove 1%nat;
        OpRemove 1%nat]) = [].
Proof.
  split; [| split_all; vm_compute; reflexivity].
  destruct (counter_value_reachable (EventType_ := Z) 0)
    as (ops & w & H1 & H2 & H3 & H4 & H5 & H6 & H7).
  - unfold is_size_t. rewrite SIZE_MOD_value. lia.
  - exists ops, w. split; [exact H1 |].
    split; [| split; [exact H7 | split; [exact H5 | exact H6]]].
    unfold channel. rewrite H2, H3, H4. reflexivity.
Qed.

(** C10, counterexample.  The first receiver is still registered when the
    counter is back at 1, so the next registration shares its identity.
    [Remove] through the new handle erases the older entry; the copy of
    the handle then designates the entry that is left, and [Pause] through
    it pauses that entry. *)
Lemma stale_copy_pauses_an_entry :
  (exists ops w,
     run_ops ops (initial Z) = Some w /\ channel w = channel second_round /\
     Capacity w = Capacity second_round /\
     Log w = Log second_round /\
     forall k, Handles w k = Handles second_round k) /\
  run_ops [OpReceive [ActInterrupt] 2%nat; OpCopy 2%nat 3%nat; OpRemove 2%nat]
          second_round =
    Some (run_from second_round
            [OpReceive [ActInterrupt] 2%nat; OpCopy 2%nat 3%nat;
             OpRemove 2%nat]) /\
  Handles (run_from second_round [OpReceive [ActInterrupt] 2%nat]) 2%nat =
    mkSubscription_ 1 /\
  ReceiversContainer
    (run_from second_round
       [OpReceive [ActInterrupt] 2%nat; OpCopy 2%nat 3%nat; OpRemove 2%nat]) =
    [mkReceiverData_ Active 1 [ActInterrupt]] /\
  IsValid
    (Handles
       (run_from second_round
          [OpReceive [ActInterrupt] 2%nat; OpCopy 2%nat 3%nat; OpRemove 2%nat])
       3%nat) = true /\
  ReceiversContainer
    (run_from second_round
       [OpReceive [ActInterrupt] 2%nat; OpCopy 2%nat 3%nat; OpRemove 2%nat;
        OpPause 3%nat]) =
    [mkReceiverData_ Paused 1 [ActInterrupt]].
Proof.
  split; [| split_all; vm_compute; reflexivity].
  destruct (survivor_reachable (EventType_ := Z))
    as (ops & w & H1 & H2 & H3 & H4 & H5 & H6 & H7).
  exists ops, w. split; [exact H1 |].
  split; [| split; [exact H7 | split; [exact H5 | exact H6]]].
  unfold channel. rewrite H2, H3, H4. reflexivity.
Qed.

(** ** Closed instances of the further properties *)

Lemma Resume_undoes_Pause_witness :
  (forall r,
     find (fun x => Index x =? ReceiverIndex (Handles (after three_ops) 0%nat))
          (ReceiversContainer (after three_ops)) = Some r ->
     RState r = Active) /\
  Resume (Handles (after three_ops) 0%nat)
         (Pause (Handles (after three_ops) 0%nat) (after three_ops)) =
    after three_ops /\
  Pause (Handles (after three_ops) 1%nat)
        (Resume (Handles (after three_ops) 1%nat) (after three_ops)) =
    after three_ops.
Proof.
  assert (H0 : forall r,
     find (fun x => Index x =? ReceiverIndex (Handles (after three_ops) 0%nat))
          (ReceiversContainer (after three_ops)) = Some r ->
     RState r = Active).
  { intros r H. vm_compute in H. injection H as <-. reflexivity. }
  split; [exact H0 |]. split.
  - apply (Resume_undoes_Pause (Handles (after three_ops) 0%nat)
             (after three_ops)). exact H0.
  - apply (Resume_undoes_Pause (Handles (after three_ops) 1%nat)
             (after three_ops)).
    intros r H. vm_compute in H. injection H as <-. reflexivity.
Defined.

Lemma Pause_twice_witness :
  In (ReceiverIndex (Handles (after three_ops) 0%nat)) (ids (after three_ops)) /\
  Log (Pause (Handles (after three_ops) 0%nat)
             (Pause (Handles (after three_ops) 0%nat) (after three_ops))) =
    Log (Pause (Handles (after three_ops) 0%nat) (after three_ops))
      ++ [AssertFailed AtPause].
Proof.
  assert (Hin : In (ReceiverIndex (Handles (after three_ops) 0%nat))
                   (ids (after three_ops))) by (left; reflexivity).
  split; [exact Hin |].
  apply (Pause_twice (Handles (after three_ops) 0%nat) (after three_ops)).
  exact Hin.
Defined.

Lemma operations_without_entry_witness :
  ~ In (ReceiverIndex Subscription_default) (ids (after three_ops)) /\
  Pause Subscription_default (after three_ops) = after three_ops /\
  Remove Subscription_default (after three_ops) =
    (Subscription_default, emit [AssertFailed AtRemove] (after three_ops)).
Proof.
  assert (Hn : ~ In (ReceiverIndex Subscription_default)
                    (ids (after three_ops))).
  { cbv. intuition discriminate. }
  destruct (operations_without_entry Subscription_default (after three_ops) Hn)
    as (H1 & _ & H3 & _).
  auto.
Defined.

Lemma Remove_erases_first_match_witness :
  In (ReceiverIndex (Handles (after three_ops) 1%nat)) (ids (after three_ops)) /\
  exists l1 r l2,
    ReceiversContainer (after three_ops) = l1 ++ r :: l2 /\
    Index r = ReceiverIndex (Handles (after three_ops) 1%nat) /\
    (forall x, In x l1 ->
               Index x <> ReceiverIndex (Handles (after three_ops) 1%nat)) /\
    Remove (Handles (after three_ops) 1%nat) (after three_ops) =
      (mkSubscription_ 0, set_Receivers (l1 ++ l2) (after three_ops)).
Proof.
  assert (Hin : In (ReceiverIndex (Handles (after three_ops) 1%nat))
                   (ids (after three_ops))) by (right; left; reflexivity).
  split; [exact Hin |].
  exact (Remove_erases_first_match _ _ Hin).
Defined.

Lemma Receive_then_Remove_witness :
  is_size_t (NextReceiverIndex (after three_ops)) /\
  ~ In (NextReceiverIndex (after three_ops)) (ids (after three_ops)) /\
  ReceiversContainer
    (snd (Remove (fst (Receive [] (after three_ops)))
                 (snd (Receive [] (after three_ops))))) =
    ReceiversContainer (after three_ops).
Proof.
  assert (Hsz : is_size_t (NextReceiverIndex (after three_ops))).
  { unfold is_size_t. rewrite SIZE_MOD_value.
    change (NextReceiverIndex (after three_ops)) with 4. lia. }
  assert (Hn : ~ In (NextReceiverIndex (after three_ops))
                    (ids (after three_ops))).
  { cbv. intuition discriminate. }
  split; [exact Hsz |]. split; [exact Hn |].
  rewrite (Receive_then_Remove [] (after three_ops) Hsz Hn). reflexivity.
Defined.

Lemma Pause_commutes_with_Remove_witness :
  ReceiverIndex (Handles (after three_ops) 0%nat) <>
    ReceiverIndex (Handles (after three_ops) 2%nat) /\
  ReceiversContainer
    (Pause (Handles (after three_ops) 0%nat)
       (snd (Remove (Handles (after three_ops) 2%nat) (after three_ops)))) =
  ReceiversContainer
    (snd (Remove (Handles (after three_ops) 2%nat)
            (Pause (Handles (after three_ops) 0%nat) (after three_ops)))).
Proof.
  assert (Hne : ReceiverIndex (Handles (after three_ops) 0%nat) <>
                ReceiverIndex (Handles (after three_ops) 2%nat))
    by discriminate.
  split; [exact Hne |].
  apply (Pause_commutes_with_Remove _ _ (after three_ops) Hne).
Defined.

Lemma Send_without_active_receiver_witness :
  State (after [OpReceive [ActInterrupt] 0%nat; OpPause 0%nat]) = Waiting /\
  (forall r,
     In r (ReceiversContainer
             (after [OpReceive [ActInterrupt] 0%nat; OpPause 0%nat])) ->
     RState r = Paused) /\
  Send 1 7 (after [OpReceive [ActInterrupt] 0%nat; OpPause 0%nat]) =
    Done (after [OpReceive [ActInterrupt] 0%nat; OpPause 0%nat]) 7.
Proof.
  assert (Hp : forall r,
     In r (ReceiversContainer
             (after [OpReceive [ActInterrupt] 0%nat; OpPause 0%nat])) ->
     RState r = Paused).
  { intros r Hr. cbv in Hr. destruct Hr as [<- | []]. reflexivity. }
  split; [reflexivity |]. split; [exact Hp |].
  apply (Send_without_active_receiver 0 7
           (after [OpReceive [ActInterrupt] 0%nat; OpPause 0%nat]) eq_refl Hp).
Defined.

Lemma Send_interrupted_by_first_active_witness :
  State (after interrupting_ops) = Waiting /\
  ReceiversContainer (after interrupting_ops) =
    [] ++ mkReceiverData_ Active 1 [ActInterrupt]
       :: [mkReceiverData_ Active 2 []] /\
  exists w' L,
    Send 1 7 (after interrupting_ops) =
      Done w' (mutations [ActInterrupt] 7) /\
    State w' = Waiting /\
    Log w' = Log (after interrupting_ops) ++ L /\
    invocations L = [(mkReceiverData_ Active 1 [ActInterrupt], 7)].
Proof.
  split; [reflexivity |]. split; [reflexivity |].
  destruct (Send_interrupted_by_first_active 0 7 (after interrupting_ops)
              [] (mkReceiverData_ Active 1 [ActInterrupt])
              [mkReceiverData_ Active 2 []] eq_refl eq_refl)
    as (w' & L & H1 & H2 & H3 & H4 & _).
  - intros x [].
  - reflexivity.
  - left. reflexivity.
  - intros a [<- | []]. reflexivity.
  - exists w', L. auto.
Defined.

Lemma Send_changes_only_the_log_witness :
  State (after three_ops) = Waiting /\
  callbacks_avoid touches_channel (ReceiversContainer (after three_ops)) /\
  Send 1 5 (after three_ops) =
    Done (emit (quiet_trace (ReceiversContainer (after three_ops)) 5)
               (after three_ops))
         (expected_event (ReceiversContainer (after three_ops)) 5).
Proof.
  assert (Hav : callbacks_avoid touches_channel
                  (ReceiversContainer (after three_ops))) by avoid_by_cases.
  split; [reflexivity |]. split; [exact Hav |].
  apply (Send_changes_only_the_log 0 5 (after three_ops) eq_refl Hav).
Defined.

Lemma Send_adds_no_entry_witness :
  State (after eraser_ops) = Waiting /\
  exists w' e',
    (Send 1 0 (after eraser_ops) = Done w' e' \/
     Send 1 0 (after eraser_ops) = Fault w' e') /\
    NextReceiverIndex w' = NextReceiverIndex (after eraser_ops) /\
    (length (ReceiversContainer w')
     <= length (ReceiversContainer (after eraser_ops)))%nat.
Proof.
  split; [reflexivity |].
  assert (Hd : exists w' e', Send 1 0 (after eraser_ops) = Fault w' e').
  { eexists. eexists. vm_compute. reflexivity. }
  destruct Hd as (w' & e' & Hd).
  assert (Hav : callbacks_avoid is_Register
                  (ReceiversContainer (after eraser_ops))) by avoid_by_cases.
  destruct (Send_adds_no_entry 0 0 (after eraser_ops) w' e' eq_refl Hav
              (or_intror Hd)) as (H1 & _ & H2 & _).
  exists w', e'. auto.
Defined.

Lemma reachable_list_sorted_by_identity_witness :
  Z.of_nat (registrations three_ops) < SIZE_MAX /\
  run_ops three_ops (initial Z) = Some (after three_ops) /\
  StronglySorted Z.lt (ids (after three_ops)).
Proof.
  assert (Hb : Z.of_nat (registrations three_ops) < SIZE_MAX) by reflexivity.
  assert (Hpa : program_avoids is_Register three_ops) by program_by_cases.
  split; [exact Hb |]. split; [reflexivity |].
  apply (reachable_list_sorted_by_identity three_ops (after three_ops)
           Hb Hpa eq_refl).
Defined.

Lemma Send_after_registrations_witness :
  State (after three_ops) = Waiting /\
  is_size_t (NextReceiverIndex (after three_ops)) /\
  NextReceiverIndex (after three_ops)
    + Z.of_nat (length [[]; [ActMutate (Z.add 1)]]) <= SIZE_MOD /\
  callbacks_avoid touches_channel (ReceiversContainer (after three_ops)) /\
  ReceiversContainer
    (snd (Receive_all [[]; [ActMutate (Z.add 1)]] (after three_ops))) =
    ReceiversContainer (after three_ops)
      ++ entries_from 4 [[]; [ActMutate (Z.add 1)]].
Proof.
  assert (Hsz : is_size_t (NextReceiverIndex (after three_ops))).
  { unfold is_size_t. rewrite SIZE_MOD_value.
    change (NextReceiverIndex (after three_ops)) with 4. lia. }
  assert (Hb : NextReceiverIndex (after three_ops)
                 + Z.of_nat (length [[]; [ActMutate (Z.add 1)]]) <= SIZE_MOD).
  { rewrite SIZE_MOD_value.
    change (NextReceiverIndex (after three_ops)) with 4. simpl length. lia. }
  assert (Hav : callbacks_avoid touches_channel
                  (ReceiversContainer (after three_ops))) by avoid_by_cases.
  split; [reflexivity |]. split; [exact Hsz |]. split; [exact Hb |].
  split; [exact Hav |].
  apply (Send_after_registrations 0 5 (after three_ops)
           [[]; [ActMutate (Z.add 1)]] eq_refl Hsz Hb Hav).
  intros f a Hf Ha. cbv in Hf.
  destruct Hf as [<- | [<- | []]]; cbv in Ha.
  - contradiction.
  - destruct Ha as [<- | []]. reflexivity.
Defined.

Lemma lifecycle_of_a_subscription_witness :
  (forall a : Action Z, In a [ActMutate (Z.add 1)] ->
                        touches_channel a = false) /\
  exists w,
    run_ops (lifecycle [ActMutate (Z.add 1)] 10 20 30 40) (initial Z) = Some w /\
    invocations (Log w) =
      [(mkReceiverData_ Active 1 [ActMutate (Z.add 1)], 10);
       (mkReceiverData_ Active 1 [ActMutate (Z.add 1)], 30)] /\
    ReceiversContainer w = [] /\
    IsValid (Handles w 0%nat) = false.
Proof.
  assert (Hq : forall a : Action Z, In a [ActMutate (Z.add 1)] ->
                                    touches_channel a = false).
  { intros a [<- | []]. reflexivity. }
  split; [exact Hq |].
  destruct (lifecycle_of_a_subscription [ActMutate (Z.add 1)] 10 20 30 40 Hq)
    as (_ & _ & w & H1 & H2 & H3 & H4 & _).
  exists w. auto.
Defined.

Lemma erase_without_Interrupt_faults_witness :
  State (after eraser_ops) = Waiting /\
  ReceiversContainer (after eraser_ops) =
    [] ++ mkReceiverData_ Active 1 [ActRemove 1%nat]
       :: [mkReceiverData_ Active 2 []] /\
  callbacks_avoid stops_or_refills (ReceiversContainer (after eraser_ops)) /\
  exists w' e', Send 1 7 (after eraser_ops) = Fault w' e'.
Proof.
  assert (Hav : callbacks_avoid stops_or_refills
                  (ReceiversContainer (after eraser_ops))) by avoid_by_cases.
  split; [reflexivity |]. split; [reflexivity |]. split; [exact Hav |].
  eapply (erase_without_Interrupt_faults 0 7 (after eraser_ops) []
            (mkReceiverData_ Active 1 [ActRemove 1%nat])
            [mkReceiverData_ Active 2 []]).
  - reflexivity.
  - reflexivity.
  - intros x [].
  - reflexivity.
  - discriminate.
  - exact Hav.
  - vm_compute. reflexivity.
  - cbv. lia.
Defined.

(** The only receiver of [registrar_alone] registers another one: the
    vector, which has one slot, moves its element, and the loop goes on
    with its iterator into the old storage. *)
Lemma Receive_on_full_vector_faults_witness :
  State (after registrar_alone) = Waiting /\
  ReceiversContainer (after registrar_alone) =
    [] ++ mkReceiverData_ Active 1 [ActReceive [] 5%nat] :: [] /\
  (Capacity (after registrar_alone)
   <= length (ReceiversContainer (after registrar_alone)))%nat /\
  exists w' L,
    Send 1 7 (after registrar_alone) =
      Fault w' (mutations [ActReceive [] 5%nat] 7) /\
    Log w' = Log (after registrar_alone) ++ L /\
    invocations L = [(mkReceiverData_ Active 1 [ActReceive [] 5%nat], 7)].
Proof.
  assert (Hfull : (Capacity (after registrar_alone)
                   <= length (ReceiversContainer (after registrar_alone)))%nat)
    by (cbv; lia).
  split; [reflexivity |]. split; [reflexivity |]. split; [exact Hfull |].
  destruct (Receive_on_full_vector_faults 0 7 (after registrar_alone) []
              (mkReceiverData_ Active 1 [ActReceive [] 5%nat]) []
              eq_refl eq_refl)
    as (w' & L & H1 & H2 & H3 & _).
  - intros x [].
  - reflexivity.
  - exists [], 5%nat. left. reflexivity.
  - intros a [<- | []]. reflexivity.
  - exact Hfull.
  - exists w', L. auto.
Defined.

Lemma Send_enters_only_earlier_entries_witness :
  State (after registrar_ops) = Waiting /\
  callbacks_avoid is_Remove (ReceiversContainer (after registrar_ops)) /\
  exists w' e' L,
    (Send 1 7 (after registrar_ops) = Done w' e' \/
     Send 1 7 (after registrar_ops) = Fault w' e') /\
    Log w' = Log (after registrar_ops) ++ L /\
    subseq (map (fun i => label (fst i)) (invocations L))
           (map label (ReceiversContainer (after registrar_ops))).
Proof.
  assert (Hav : callbacks_avoid is_Remove
                  (ReceiversContainer (after registrar_ops)))
    by avoid_by_cases.
  split; [reflexivity |]. split; [exact Hav |].
  destruct (Send_enters_only_earlier_entries 0 7 (after registrar_ops)
              eq_refl Hav) as (w' & e' & L & H1 & H2 & _ & H4).
  exists w', e', L. auto.
Defined.

(** The first callback of [registrar_ops] registers a fourth receiver;
    the vector, which holds three entries in four slots, has room for it.
    The dispatch under way returns without entering the new entry; with
    the first entry paused, the next dispatch enters it last.  With the
    first entry active the next dispatch registers a fifth receiver on a
    full vector. *)
Example register_during_Send_waits :
  Capacity (after registrar_ops) = 4%nat /\
  map (fun i => Index (fst i))
      (invocations (Log (after (registrar_ops ++ [OpSend 7])))) = [1; 2; 3] /\
  ids (after (registrar_ops ++ [OpSend 7])) = [1; 2; 3; 4] /\
  map (fun i => Index (fst i))
      (invocations
         (Log (after (registrar_ops ++ [OpSend 7; OpPause 0%nat; OpSend 8]))))
    = [1; 2; 3; 2; 3; 4] /\
  is_Fault (Send 1 8 (after (registrar_ops ++ [OpSend 7]))) = true.
Proof. split_all; vm_compute; reflexivity. Qed.

(** The first callback of [refiller_ops] removes the second entry and
    registers a new receiver, for which the vector has the slot just
    freed: the loop finds the new entry where the removed one was and
    enters it in the same dispatch. *)
Example erase_then_register_refills_the_slot :
  exists w' e',
    Send 1 7 (after refiller_ops) = Done w' e' /\
    map (fun i => Index (fst i)) (invocations (Log w')) = [1; 3] /\
    ids w' = [1; 3] /\ e' = 107.
Proof. eexists. eexists. split_all; vm_compute; reflexivity. Qed.
